(** * Konsole scrollback core: history stores and the screen window

    A shallow embedding of [History.cpp] (the history files, the three
    history scrolls, the compact block allocator and the history types) and of
    [ScreenWindow.cpp], together with the properties the specification states
    about them.

    Conventions.
    - A C++ [int] is a [Z] with the two's complement wrap-around of 32 bits
      written out ([CInt.to_int]) wherever the code computes with values that
      are not bounded by a container size.
    - A function that can run into a failed [Q_ASSERT], an out-of-range
      container access or a read of uninitialised memory returns [option];
      [None] stands for that programmer error.
    - Objects that the code handles through pointers carry their address or an
      object identifier, so that identity can be told apart from equality. *)

From Stdlib Require Import ZArith Lia Bool List.
From Stdlib Require Strings.Byte.
From stdpp Require Import base tactics option list numbers.
Open Scope Z_scope.

(** ** Machine integers and the Qt helpers *)

Module CInt.

Definition int_min : Z := - 2 ^ 31.
Definition int_max : Z := 2 ^ 31 - 1.

(** Conversion to a 32-bit [int] (two's complement wrap-around). *)
Definition to_int (z : Z) : Z := (z + 2 ^ 31) mod 2 ^ 32 - 2 ^ 31.

(** Conversion to [unsigned int], [size_t] (LP64), [quint16] and
    [unsigned char]. *)
Definition to_uint (z : Z) : Z := z mod 2 ^ 32.
Definition to_size_t (z : Z) : Z := z mod 2 ^ 64.
Definition to_quint16 (z : Z) : Z := z mod 2 ^ 16.
Definition to_uchar (z : Z) : Z := z mod 2 ^ 8.

Definition in_int (z : Z) : Prop := int_min <= z <= int_max.

(** [qMax(a,b)] is [(a < b) ? b : a], [qMin(a,b)] is [(a < b) ? a : b] and
    [qBound(min,val,max)] is [qMax(min, qMin(max, val))]; [std::max] is
    [qMax].  These are the functions as a release build of Qt computes them;
    [qBound] is also called with [max < min] (in [scrollTo], for a window
    taller than the output), where it returns [min]. *)
Definition qMax (a b : Z) : Z := if a <? b then b else a.
Definition qMin (a b : Z) : Z := if a <? b then a else b.
Definition qBound (min val max : Z) : Z := qMax min (qMin max val).

Lemma to_int_id z : in_int z -> to_int z = z.
Proof.
  unfold in_int, int_min, int_max, to_int. intros H.
  rewrite Z.mod_small; lia.
Qed.

Lemma to_int_range z : in_int (to_int z).
Proof.
  unfold in_int, int_min, int_max, to_int.
  pose proof (Z.mod_pos_bound (z + 2 ^ 31) (2 ^ 32) ltac:(lia)). lia.
Qed.

Lemma to_int_idem z : to_int (to_int z) = to_int z.
Proof. apply to_int_id, to_int_range. Qed.

Lemma to_size_t_id z : 0 <= z < 2 ^ 64 -> to_size_t z = z.
Proof. intros H. unfold to_size_t. apply Z.mod_small. lia. Qed.

Lemma qMax_max a b : qMax a b = Z.max a b.
Proof. unfold qMax. destruct (Z.ltb_spec a b); lia. Qed.

Lemma qMin_min a b : qMin a b = Z.min a b.
Proof. unfold qMin. destruct (Z.ltb_spec a b); lia. Qed.

Lemma qBound_range lo v hi : lo <= hi -> lo <= qBound lo v hi <= hi.
Proof. intros H. unfold qBound. rewrite qMax_max, qMin_min. lia. Qed.

End CInt.

(** ** Characters

    [Character.h] is not among the sources.  Following the data model of the
    specification a cell is a code point together with its format: rendition
    bits, foreground colour and background colour.  Colours are opaque values
    compared with [==]; integers stand for them. *)

Definition CharacterColor : Type := Z.

Record Character := mkCharacter {
  character : Z;                      (* quint16 *)
  rendition : Z;
  foregroundColor : CharacterColor;
  backgroundColor : CharacterColor
}.

(** Modelled from the spec: [Character::equalsFormat] (declared in
    [Character.h]) is the format-only equality: rendition and both colours. *)
Definition equalsFormat (a b : Character) : bool :=
  (backgroundColor a =? backgroundColor b)
  && (foregroundColor a =? foregroundColor b)
  && (rendition a =? rendition b).

(** A [Character] whose code point fits the 16 bits of the cell model. *)
Definition wf_Character (c : Character) : bool :=
  (0 <=? character c) && (character c <? 2 ^ 16).

Lemma equalsFormat_refl c : equalsFormat c c = true.
Proof. unfold equalsFormat. rewrite !Z.eqb_refl. reflexivity. Qed.

Lemma equalsFormat_eq a b :
  equalsFormat a b = true ->
  rendition a = rendition b /\ foregroundColor a = foregroundColor b
  /\ backgroundColor a = backgroundColor b.
Proof.
  unfold equalsFormat. rewrite !andb_true_iff, !Z.eqb_eq. tauto.
Qed.

Lemma forallb_wf_Forall (l : list Character) :
  forallb wf_Character l = true -> Forall (fun c => wf_Character c = true) l.
Proof.
  induction l as [|c l IH]; simpl; intros H; constructor;
    apply andb_true_iff in H as [H1 H2]; auto.
Qed.

(** ** The compact history: block allocator, compressed lines, scroll *)

Module Compact.

(** Modelled from the spec: [CharacterFormat] (declared in [History.h]) is
    one format run, [{startPos, format}]; [setFormat] copies the format of
    a character.  The width of [startPos] is not in the sources; it holds
    the [int] column it is assigned. *)
Record CharacterFormat := mkFormat {
  fgColor : CharacterColor;
  bgColor : CharacterColor;
  startPos : Z;
  fmt_rendition : Z
}.

(** [formatArray[j].setFormat(c); formatArray[j].startPos = k;] *)
Definition setFormat (c : Character) (k : Z) : CharacterFormat :=
  {| fgColor := foregroundColor c; bgColor := backgroundColor c;
     startPos := k; fmt_rendition := rendition c |}.

(** Memory obtained from the allocator is uninitialised: an array cell is
    [None] until it is written. *)
Definition read {A} (mem : list (option A)) (i : Z) : option A :=
  if i <? 0 then None
  else match mem !! Z.to_nat i with
       | Some (Some x) => Some x
       | _ => None
       end.

Section Allocator.

(** Modelled from the spec: the members of [CompactHistoryBlock] that
    live in [History.h] -- the fixed slab size and the object sizes handed
    to the allocator -- are parameters. *)
Variable blockLength : Z.
Variable sizeof_CharacterFormat : Z.
Variable sizeof_CompactHistoryLine : Z.

(** One slab: start address, bump pointer and live-allocation counter. *)
Record CompactHistoryBlock := mkBlock {
  blockStart : Z;
  tail : Z;
  allocCount : Z
}.

(** Modelled from the spec: [remaining], [contains] and [isInUse] of
    [CompactHistoryBlock] ([History.h]): the room left behind the bump
    pointer, the pointer-range test and "live counter is not zero". *)
Definition remaining (b : CompactHistoryBlock) : Z :=
  blockStart b + blockLength - tail b.
Definition contains (b : CompactHistoryBlock) (addr : Z) : bool :=
  (blockStart b <=? addr) && (addr <? blockStart b + blockLength).
Definition isInUse (b : CompactHistoryBlock) : bool :=
  negb (allocCount b =? 0).

(** [CompactHistoryBlock::allocate]; [None] is the [NULL] result. *)
Definition Block_allocate (b : CompactHistoryBlock) (size : Z)
  : option (Z * CompactHistoryBlock) :=
  if tail b - blockStart b + size >? blockLength then None
  else Some (tail b,
             {| blockStart := blockStart b; tail := tail b + size;
                allocCount := allocCount b + 1 |}).

(** [CompactHistoryBlock::deallocate] *)
Definition Block_deallocate (b : CompactHistoryBlock) : CompactHistoryBlock :=
  {| blockStart := blockStart b; tail := tail b;
     allocCount := allocCount b - 1 |}.

(** The list of slabs (the member [list] of the source).  A new
    [CompactHistoryBlock] maps a fresh region of [blockLength] bytes;
    [mmap_next] is the address the next mapping gets, so that mappings
    never overlap. *)
Record CompactHistoryBlockList := mkBlockList {
  blocks : list CompactHistoryBlock;
  mmap_next : Z
}.

Definition BlockList_empty : CompactHistoryBlockList :=
  {| blocks := []; mmap_next := blockLength |}.

Definition last_block (l : list CompactHistoryBlock) : option CompactHistoryBlock :=
  l !! (length l - 1)%nat.

(** [CompactHistoryBlockList::allocate] *)
Definition BlockList_allocate (bl : CompactHistoryBlockList) (size : Z)
  : option (Z * CompactHistoryBlockList) :=
  match last_block (blocks bl) with
  | Some lastb =>
      if remaining lastb <? size then
        (* new block appended *)
        let fresh := {| blockStart := mmap_next bl; tail := mmap_next bl;
                        allocCount := 0 |} in
        '(p, b') ← Block_allocate fresh size;
        Some (p, {| blocks := blocks bl ++ [b'];
                    mmap_next := mmap_next bl + blockLength |})
      else
        '(p, b') ← Block_allocate lastb size;
        Some (p, {| blocks := <[(length (blocks bl) - 1)%nat := b']> (blocks bl);
                    mmap_next := mmap_next bl |})
  | None =>
      let fresh := {| blockStart := mmap_next bl; tail := mmap_next bl;
                      allocCount := 0 |} in
      '(p, b') ← Block_allocate fresh size;
      Some (p, {| blocks := blocks bl ++ [b'];
                  mmap_next := mmap_next bl + blockLength |})
  end.

(** The scan of [CompactHistoryBlockList::deallocate]: the index of the
    first slab that contains [ptr]; running off the end of the list is an
    out-of-range [list.at(i)]. *)
Fixpoint find_block (ptr : Z) (l : list CompactHistoryBlock) (i : nat) : option nat :=
  match l with
  | [] => None
  | b :: l' => if contains b ptr then Some i else find_block ptr l' (S i)
  end.

(** [CompactHistoryBlockList::deallocate] *)
Definition BlockList_deallocate (bl : CompactHistoryBlockList) (ptr : Z)
  : option CompactHistoryBlockList :=
  i ← find_block ptr (blocks bl) 0%nat;
  b ← blocks bl !! i;
  let b' := Block_deallocate b in
  if isInUse b' then
    Some {| blocks := <[i := b']> (blocks bl); mmap_next := mmap_next bl |}
  else
    Some {| blocks := delete i (blocks bl); mmap_next := mmap_next bl |}.

(** The number of live allocations over all slabs. *)
Definition live_allocations (bl : CompactHistoryBlockList) : Z :=
  foldr (fun b acc => allocCount b + acc) 0 (blocks bl).

(** *** Compressed lines *)

(** A [CompactHistoryLine] object: its own address [this], the addresses
    and contents of its two arrays, and its scalar members.  The
    constructor leaves [formatArray], [text] and [wrapped] unset for an
    empty line.  The class is declared in [History.h]; [length_] (the member
    [length]) and [formatLength] hold the counts they are assigned, as the
    specification describes them. *)
Record CompactHistoryLine := mkLine {
  this : Z;
  formatArray : option Z;
  formatArray_mem : list (option CharacterFormat);
  length_ : Z;
  text : option Z;
  text_mem : list Z;
  formatLength : Z;
  wrapped : option bool
}.

(** First loop of the constructor: count the format changes.  [c] is the
    character that started the current run, [rest] is [line[k..]]. *)
Fixpoint count_formats (c : Character) (rest : list Character) (formatLength : Z) : Z :=
  match rest with
  | [] => formatLength
  | x :: rest' =>
      if negb (equalsFormat x c) then count_formats x rest' (formatLength + 1)
      else count_formats c rest' formatLength
  end.

(** Second loop of the constructor:
    [while (k < length && j < formatLength)], [rest] is [line[k..]]. *)
Fixpoint record_formats (formatLength : Z) (c : Character) (k j : Z)
    (rest : list Character) (fa : list (option CharacterFormat))
  : list (option CharacterFormat) :=
  match rest with
  | [] => fa
  | x :: rest' =>
      if j <? formatLength then
        if negb (equalsFormat x c) then
          record_formats formatLength x (k + 1) (j + 1) rest'
            (<[Z.to_nat j := Some (setFormat x k)]> fa)
        else record_formats formatLength c (k + 1) j rest' fa
      else fa
  end.

(** [new(blockList) CompactHistoryLine(line, blockList)]: the header is
    allocated by [operator new], then the constructor runs. *)
Definition CompactHistoryLine_new (line : list Character) (bl : CompactHistoryBlockList)
  : option (CompactHistoryLine * CompactHistoryBlockList) :=
  '(self, bl0) ← BlockList_allocate bl sizeof_CompactHistoryLine;
  match line with
  | [] =>
      Some ({| this := self; formatArray := None; formatArray_mem := [];
               length_ := 0; text := None; text_mem := [];
               formatLength := 0; wrapped := None |}, bl0)
  | c0 :: rest =>
      let len := Z.of_nat (length line) in
      let fl := count_formats c0 rest 1 in
      '(fa, bl1) ← BlockList_allocate bl0 (sizeof_CharacterFormat * fl);
      '(tx, bl2) ← BlockList_allocate bl1 (2 * len);
      let fmem0 := <[0%nat := Some (setFormat c0 0)]> (replicate (Z.to_nat fl) None) in
      let fmem := record_formats fl c0 1 1 rest fmem0 in
      Some ({| this := self; formatArray := Some fa; formatArray_mem := fmem;
               length_ := len; text := Some tx;
               text_mem := map (fun c => CInt.to_quint16 (character c)) line;
               formatLength := fl; wrapped := Some false |}, bl2)
  end.

(** [CompactHistoryLine::~CompactHistoryLine] *)
Definition CompactHistoryLine_delete (l : CompactHistoryLine) (bl : CompactHistoryBlockList)
  : option CompactHistoryBlockList :=
  bl2 ← (if length_ l >? 0 then
           tx ← text l;
           bl1 ← BlockList_deallocate bl tx;
           fa ← formatArray l;
           BlockList_deallocate bl1 fa
         else Some bl);
  BlockList_deallocate bl2 (this l).

(** The loop of [getCharacter]; it runs at most [formatLength] times. *)
Fixpoint find_formatPos (fuel : nat) (l : CompactHistoryLine) (index formatPos : Z)
  : option Z :=
  match fuel with
  | O => None
  | S fuel' =>
      if formatPos + 1 <? formatLength l then
        e ← read (formatArray_mem l) (formatPos + 1);
        if index >=? startPos e then find_formatPos fuel' l index (formatPos + 1)
        else Some formatPos
      else Some formatPos
  end.

(** [CompactHistoryLine::getCharacter] *)
Definition getCharacter (l : CompactHistoryLine) (index : Z) : option Character :=
  if negb (index <? length_ l) then None
  else
    formatPos ← find_formatPos (S (Z.to_nat (formatLength l))) l index 0;
    ch ← (if index <? 0 then None else text_mem l !! Z.to_nat index);
    f ← read (formatArray_mem l) formatPos;
    Some {| character := ch; rendition := fmt_rendition f;
            foregroundColor := fgColor f; backgroundColor := bgColor f |}.

(** The loop of [getCharacters], [i] running from [startColumn]. *)
Fixpoint getCharacters_loop (l : CompactHistoryLine) (n : nat) (i : Z)
  : option (list Character) :=
  match n with
  | O => Some []
  | S n' =>
      c ← getCharacter l i;
      cs ← getCharacters_loop l n' (i + 1);
      Some (c :: cs)
  end.

(** [CompactHistoryLine::getCharacters]: the cells written to
    [array[0 .. size)]; the rest of the caller's array is kept. *)
Definition getCharacters (l : CompactHistoryLine) (array : list Character)
    (size startColumn : Z) : option (list Character) :=
  if negb ((0 <=? startColumn) && (0 <=? size)) then None
  else if negb (CInt.to_int (startColumn + size) <=? CInt.to_int (length_ l)) then None
  else
    cs ← getCharacters_loop l (Z.to_nat size) startColumn;
    Some (cs ++ drop (Z.to_nat size) array).

(** *** The scroll *)

Record CompactHistoryScroll := mkScroll {
  lines : list CompactHistoryLine;
  blockList : CompactHistoryBlockList;
  _maxLineCount : Z                 (* unsigned int *)
}.

(** The loop of [setMaxNbLines]: [while (lines.size() > (int) lineCount)
    delete lines.takeAt(0);] *)
Fixpoint evict (lineCount : Z) (ls : list CompactHistoryLine)
    (bl : CompactHistoryBlockList)
  : option (list CompactHistoryLine * CompactHistoryBlockList) :=
  match ls with
  | [] => if 0 >? CInt.to_int lineCount then None else Some ([], bl)
  | l :: ls' =>
      if Z.of_nat (length ls) >? CInt.to_int lineCount then
        bl' ← CompactHistoryLine_delete l bl;
        evict lineCount ls' bl'
      else Some (ls, bl)
  end.

(** [CompactHistoryScroll::setMaxNbLines] *)
Definition setMaxNbLines (s : CompactHistoryScroll) (lineCount : Z)
  : option CompactHistoryScroll :=
  '(ls, bl) ← evict lineCount (lines s) (blockList s);
  Some {| lines := ls; blockList := bl; _maxLineCount := lineCount |}.

(** [CompactHistoryScroll::CompactHistoryScroll] *)
Definition CompactHistoryScroll_new (maxLineCount : Z) : option CompactHistoryScroll :=
  setMaxNbLines {| lines := []; blockList := BlockList_empty; _maxLineCount := 0 |}
                maxLineCount.

(** [CompactHistoryScroll::addCellsVector] *)
Definition addCellsVector (s : CompactHistoryScroll) (cells : list Character)
  : option CompactHistoryScroll :=
  '(line, bl) ← CompactHistoryLine_new cells (blockList s);
  if Z.of_nat (length (lines s)) >? CInt.to_int (_maxLineCount s) then
    match lines s with
    | [] => None
    | old :: ls =>
        bl' ← CompactHistoryLine_delete old bl;
        Some {| lines := ls ++ [line]; blockList := bl';
                _maxLineCount := _maxLineCount s |}
    end
  else
    Some {| lines := lines s ++ [line]; blockList := bl;
            _maxLineCount := _maxLineCount s |}.

(** [CompactHistoryScroll::addCells]: the first [count] cells of [a] are
    copied into a [TextLine]. *)
Definition addCells (s : CompactHistoryScroll) (a : list Character) (count : Z)
  : option CompactHistoryScroll :=
  if (count <? 0) || (Z.of_nat (length a) <? count) then None
  else addCellsVector s (take (Z.to_nat count) a).

(** [CompactHistoryScroll::addLine] *)
Definition addLine (s : CompactHistoryScroll) (previousWrapped : bool)
  : option CompactHistoryScroll :=
  let n := length (lines s) in
  line ← lines s !! (n - 1)%nat;
  let line' := {| this := this line; formatArray := formatArray line;
                  formatArray_mem := formatArray_mem line;
                  length_ := length_ line; text := text line;
                  text_mem := text_mem line;
                  formatLength := formatLength line;
                  wrapped := Some previousWrapped |} in
  Some {| lines := <[(n - 1)%nat := line']> (lines s);
          blockList := blockList s; _maxLineCount := _maxLineCount s |}.

(** [CompactHistoryScroll::getLines] *)
Definition getLines (s : CompactHistoryScroll) : Z := Z.of_nat (length (lines s)).

Definition line_at (s : CompactHistoryScroll) (lineNumber : Z)
  : option CompactHistoryLine :=
  if lineNumber <? 0 then None else lines s !! Z.to_nat lineNumber.

(** [CompactHistoryScroll::getLineLen] *)
Definition getLineLen (s : CompactHistoryScroll) (lineNumber : Z) : option Z :=
  line ← line_at s lineNumber;
  Some (length_ line).

(** [CompactHistoryScroll::getCells]: the contents of [buffer] after the
    call. *)
Definition getCells (s : CompactHistoryScroll) (lineNumber startColumn count : Z)
    (buffer : list Character) : option (list Character) :=
  if count =? 0 then Some buffer
  else
    line ← line_at s lineNumber;
    if negb (0 <=? startColumn) then None
    else if negb (CInt.to_uint startColumn <=? CInt.to_uint (length_ line - count))
    then None
    else getCharacters line buffer count startColumn.

(** [CompactHistoryScroll::isWrappedLine] *)
Definition isWrappedLine (s : CompactHistoryScroll) (lineNumber : Z) : option bool :=
  line ← line_at s lineNumber;
  wrapped line.

(** *** Run-length encoding of the formats: decoding inverts encoding *)

(** The format runs that start inside [rest = line[k..]], when [c] started
    the run that is current at [k]. *)
Fixpoint runs (c : Character) (k : Z) (rest : list Character) : list CharacterFormat :=
  match rest with
  | [] => []
  | x :: rest' =>
      if negb (equalsFormat x c) then setFormat x k :: runs x (k + 1) rest'
      else runs c (k + 1) rest'
  end.

(** What the loop of [getCharacter] computes, on the list of runs behind the
    current one. *)
Fixpoint scan (cur : CharacterFormat) (next : list CharacterFormat) (index : Z)
  : CharacterFormat :=
  match next with
  | [] => cur
  | e :: next' => if index >=? startPos e then scan e next' index else cur
  end.

Definition same_format (f : CharacterFormat) (c : Character) : Prop :=
  fmt_rendition f = rendition c /\ fgColor f = foregroundColor c
  /\ bgColor f = backgroundColor c.

Lemma count_formats_runs rest : forall c k n,
  count_formats c rest n = n + Z.of_nat (length (runs c k rest)).
Proof.
  induction rest as [|x rest IH]; intros c k n; simpl.
  - lia.
  - destruct (equalsFormat x c); simpl.
    + apply IH.
    + rewrite (IH x (k + 1)). lia.
Qed.

Lemma record_formats_runs rest : forall fl c k j pre n,
  Z.of_nat (length pre) = j ->
  fl = j + Z.of_nat n ->
  (length (runs c k rest) <= n)%nat ->
  record_formats fl c k j rest (pre ++ replicate n None)
  = pre ++ map Some (runs c k rest)
        ++ replicate (n - length (runs c k rest)) None.
Proof.
  induction rest as [|x rest IH]; intros fl c k j pre n Hpre Hfl Hn; simpl in *.
  - rewrite Nat.sub_0_r. reflexivity.
  - destruct (Z.ltb_spec j fl) as [Hlt|Hge].
    + destruct (equalsFormat x c); simpl in *.
      * apply IH; assumption.
      * destruct n as [|n]; [lia|]. simpl replicate.
        replace (Z.to_nat j) with (length pre + 0)%nat by lia.
        rewrite insert_app_r. simpl.
        rewrite (cons_middle _ pre), app_assoc.
        rewrite (IH fl x (k + 1) (j + 1) (pre ++ [Some (setFormat x k)]) n).
        -- rewrite <- app_assoc. reflexivity.
        -- rewrite length_app. simpl. lia.
        -- lia.
        -- lia.
    + assert (n = 0%nat) by lia. subst n.
      destruct (equalsFormat x c); simpl in *; [|lia].
      assert (length (runs c (k + 1) rest) = 0%nat) as H0 by lia.
      apply length_zero_iff_nil in H0. rewrite H0. reflexivity.
Qed.

(** The format array the constructor builds holds exactly the runs, all of
    them initialised. *)
Lemma formatArray_built c0 rest :
  let fl := count_formats c0 rest 1 in
  record_formats fl c0 1 1 rest
    (<[0%nat := Some (setFormat c0 0)]> (replicate (Z.to_nat fl) None))
  = map Some (setFormat c0 0 :: runs c0 1 rest)
  /\ fl = Z.of_nat (length (setFormat c0 0 :: runs c0 1 rest)).
Proof.
  intros fl. unfold fl. rewrite (count_formats_runs rest c0 1 1).
  set (r := runs c0 1 rest).
  replace (Z.to_nat (1 + Z.of_nat (length r))) with (S (length r)) by lia.
  simpl replicate. simpl length.
  split; [|lia].
  change (<[0%nat:=Some (setFormat c0 0)]> (None :: replicate (length r) None))
    with ([Some (setFormat c0 0)] ++ replicate (length r) (@None CharacterFormat)).
  rewrite (record_formats_runs rest (1 + Z.of_nat (length r)) c0 1 1
             [Some (setFormat c0 0)] (length r)); fold r; simpl; try lia.
  rewrite Nat.sub_diag. simpl. rewrite app_nil_r. reflexivity.
Qed.

Lemma runs_startPos c k rest e :
  e ∈ runs c k rest -> k <= startPos e.
Proof.
  revert c k. induction rest as [|x rest IH]; intros c k; simpl.
  - intros H. inversion H.
  - destruct (equalsFormat x c); simpl.
    + intros H. apply IH in H. lia.
    + intros H. apply elem_of_cons in H as [->|H]; [simpl; lia|].
      apply IH in H. lia.
Qed.

Lemma scan_before cur next index :
  (forall e, e ∈ next -> index < startPos e) -> scan cur next index = cur.
Proof.
  destruct next as [|e next]; simpl; [reflexivity|]. intros H.
  destruct (Z.geb_spec index (startPos e)) as [Hge|]; [|reflexivity].
  specialize (H e ltac:(left)). lia.
Qed.

(** Decoding position [index] with the runs of [c :: rest] (which starts at
    column [k - 1]) gives the format of the cell at [index]. *)
Lemma scan_runs rest : forall c k cur index x,
  same_format cur c ->
  k - 1 <= index ->
  (c :: rest) !! Z.to_nat (index - (k - 1)) = Some x ->
  same_format (scan cur (runs c k rest) index) x.
Proof.
  induction rest as [|y rest IH]; intros c k cur index x Hcur Hlo Hx.
  - simpl. destruct (Z.to_nat (index - (k - 1))) as [|n] eqn:E; simpl in Hx.
    + injection Hx as <-. exact Hcur.
    + destruct n; discriminate.
  - simpl. destruct (Z.eq_dec index (k - 1)) as [->|Hne].
    + replace (Z.to_nat (k - 1 - (k - 1))) with 0%nat in Hx by lia.
      simpl in Hx. injection Hx as <-.
      rewrite scan_before; [exact Hcur|].
      intros e He. destruct (equalsFormat y c); simpl in He.
      * apply runs_startPos in He. lia.
      * apply elem_of_cons in He as [->|He]; [simpl; lia|].
        apply runs_startPos in He. lia.
    + assert (Hx' : (y :: rest) !! Z.to_nat (index - k) = Some x).
      { replace (Z.to_nat (index - (k - 1))) with (S (Z.to_nat (index - k))) in Hx by lia.
        exact Hx. }
      destruct (equalsFormat y c) eqn:Eq; simpl.
      * destruct (Z.eq_dec index k) as [->|Hne'].
        -- replace (Z.to_nat (k - k)) with 0%nat in Hx' by lia.
           simpl in Hx'. injection Hx' as <-.
           rewrite scan_before.
           ++ apply equalsFormat_eq in Eq. unfold same_format in *. intuition congruence.
           ++ intros e He. apply runs_startPos in He. lia.
        -- apply (IH c (k + 1) cur index x Hcur); [lia|].
           replace (Z.to_nat (index - (k + 1 - 1))) with (S (Z.to_nat (index - k - 1))) by lia.
           replace (Z.to_nat (index - k)) with (S (Z.to_nat (index - k - 1))) in Hx' by lia.
           exact Hx'.
      * destruct (Z.geb_spec index k) as [_|]; [|lia].
        apply (IH y (k + 1) (setFormat y k) index x).
        -- unfold same_format. simpl. auto.
        -- lia.
        -- replace (index - (k + 1 - 1)) with (index - k) by lia. exact Hx'.
Qed.

(** The loop of [getCharacter] terminates within its fuel and computes
    [scan]. *)
Lemma find_formatPos_scan (l : CompactHistoryLine) (R : list CharacterFormat) index :
  formatArray_mem l = map Some R ->
  formatLength l = Z.of_nat (length R) ->
  forall fuel p cur,
    (length R - p <= fuel)%nat -> (0 < fuel)%nat ->
    R !! p = Some cur ->
    exists q, find_formatPos fuel l index (Z.of_nat p) = Some (Z.of_nat q)
              /\ R !! q = Some (scan cur (drop (S p) R) index).
Proof.
  intros Hmem Hlen. induction fuel as [|fuel IH]; intros p cur Hfuel Hpos Hp; [lia|].
  simpl. rewrite Hlen.
  destruct (Z.ltb_spec (Z.of_nat p + 1) (Z.of_nat (length R))) as [Hlt|Hge].
  - destruct (lookup_lt_is_Some_2 R (S p) ltac:(lia)) as [e He].
    assert (Hrd : read (formatArray_mem l) (Z.of_nat p + 1) = Some e).
    { unfold read. destruct (Z.ltb_spec (Z.of_nat p + 1) 0); [lia|].
      replace (Z.to_nat (Z.of_nat p + 1)) with (S p) by lia.
      rewrite Hmem, list_lookup_fmap, He. reflexivity. }
    rewrite Hrd. simpl.
    rewrite (drop_S R e (S p) He). simpl.
    destruct (Z.geb_spec index (startPos e)).
    + replace (Z.of_nat p + 1) with (Z.of_nat (S p)) by lia.
      apply IH; [lia|lia|exact He].
    + exists p. auto.
  - exists p. split; [reflexivity|].
    rewrite drop_ge by lia. simpl. exact Hp.
Qed.

(** A line as the constructor leaves it, whatever addresses it got. *)
Definition encodes (l : CompactHistoryLine) (line : list Character) : Prop :=
  length_ l = Z.of_nat (length line)
  /\ text_mem l = map (fun c => CInt.to_quint16 (character c)) line
  /\ match line with
     | [] => formatLength l = 0
     | c0 :: rest =>
         formatArray_mem l = map Some (setFormat c0 0 :: runs c0 1 rest)
         /\ formatLength l = Z.of_nat (length (setFormat c0 0 :: runs c0 1 rest))
     end.

Lemma getCharacter_encodes l line i c :
  encodes l line ->
  line !! i = Some c ->
  wf_Character c = true ->
  getCharacter l (Z.of_nat i) = Some c.
Proof.
  intros (Hlen & Htext & Hfmt) Hi Hwf.
  pose proof (lookup_lt_Some _ _ _ Hi) as Hlt.
  destruct line as [|c0 rest]; [simpl in Hlt; lia|].
  destruct Hfmt as [Hmem Hfl].
  set (R := setFormat c0 0 :: runs c0 1 rest) in *.
  unfold getCharacter. rewrite Hlen.
  destruct (Z.ltb_spec (Z.of_nat i) (Z.of_nat (length (c0 :: rest)))) as [_|]; [|lia].
  simpl negb. cbv iota.
  destruct (find_formatPos_scan l R (Z.of_nat i) Hmem Hfl
              (S (Z.to_nat (formatLength l))) 0%nat (setFormat c0 0))
    as (q & Hq & HRq).
  { rewrite Hfl. lia. }
  { lia. }
  { reflexivity. }
  change (Z.of_nat 0) with 0 in Hq. rewrite Hq. simpl mbind.
  destruct (Z.ltb_spec (Z.of_nat i) 0) as [|_]; [lia|].
  rewrite Nat2Z.id, Htext, list_lookup_fmap, Hi. simpl.
  assert (Hrd : read (formatArray_mem l) (Z.of_nat q)
                = Some (scan (setFormat c0 0) (runs c0 1 rest) (Z.of_nat i))).
  { unfold read. destruct (Z.ltb_spec (Z.of_nat q) 0); [lia|].
    rewrite Nat2Z.id, Hmem, list_lookup_fmap, HRq. reflexivity. }
  rewrite Hrd. simpl.
  assert (Hsf : same_format (scan (setFormat c0 0) (runs c0 1 rest) (Z.of_nat i)) c).
  { apply (scan_runs rest c0 1 (setFormat c0 0) (Z.of_nat i) c).
    - unfold same_format. simpl. auto.
    - lia.
    - replace (Z.to_nat (Z.of_nat i - (1 - 1))) with i by lia. exact Hi. }
  destruct Hsf as (Hr & Hf & Hb). rewrite Hr, Hf, Hb.
  unfold wf_Character in Hwf. apply andb_true_iff in Hwf as [H0 H1].
  apply Z.leb_le in H0. apply Z.ltb_lt in H1.
  unfold CInt.to_quint16. rewrite Z.mod_small by lia.
  destruct c; reflexivity.
Qed.

Lemma getCharacters_loop_encodes l line :
  encodes l line ->
  Forall (fun c => wf_Character c = true) line ->
  forall n i, (i + n <= length line)%nat ->
    getCharacters_loop l n (Z.of_nat i) = Some (take n (drop i line)).
Proof.
  intros Henc Hwf. induction n as [|n IH]; intros i Hin; simpl.
  - reflexivity.
  - destruct (lookup_lt_is_Some_2 line i ltac:(lia)) as [c Hc].
    rewrite (getCharacter_encodes l line i c Henc Hc).
    2:{ exact (Forall_lookup_1 _ _ _ _ Hwf Hc). }
    simpl. replace (Z.of_nat i + 1) with (Z.of_nat (S i)) by lia.
    rewrite IH by lia. simpl.
    rewrite (drop_S line c i Hc). reflexivity.
Qed.

(** *** The allocator keeps its books *)

(** How many of the live pointers lie in the slab [b]. *)
Fixpoint count_in (b : CompactHistoryBlock) (live : list Z) : Z :=
  match live with
  | [] => 0
  | p :: live' => (if contains b p then 1 else 0) + count_in b live'
  end.

Definition total (l : list CompactHistoryBlock) : Z :=
  foldr (fun b acc => allocCount b + acc) 0 l.

(** The invariant of the slab list against the list [live] of the pointers
    handed out and not yet given back: slabs do not overlap, each slab counts
    the live pointers inside it, and every live pointer is inside a slab. *)
Record bl_inv (bl : CompactHistoryBlockList) (live : list Z) : Prop := mk_bl_inv {
  inv_bounds : forall i b, blocks bl !! i = Some b ->
    blockStart b <= tail b <= blockStart b + blockLength
    /\ blockStart b + blockLength <= mmap_next bl;
  inv_disjoint : forall i j b1 b2,
    blocks bl !! i = Some b1 -> blocks bl !! j = Some b2 -> i <> j ->
    blockStart b1 + blockLength <= blockStart b2
    \/ blockStart b2 + blockLength <= blockStart b1;
  inv_count : forall i b, blocks bl !! i = Some b -> allocCount b = count_in b live;
  inv_cover : forall p, p ∈ live ->
    exists i b, blocks bl !! i = Some b /\ contains b p = true;
  inv_total : live_allocations bl = Z.of_nat (length live)
}.

Hypothesis blockLength_pos : 0 < blockLength.

Lemma count_in_perm b l1 l2 : l1 ≡ₚ l2 -> count_in b l1 = count_in b l2.
Proof. induction 1; simpl; lia. Qed.

Lemma count_in_nonneg b live : 0 <= count_in b live.
Proof. induction live as [|p live IH]; simpl; [lia|]. destruct (contains b p); lia. Qed.

Lemma count_in_zero b live :
  (forall p, p ∈ live -> contains b p = false) -> count_in b live = 0.
Proof.
  induction live as [|p live IH]; intros H; simpl; [reflexivity|].
  rewrite (H p) by left. rewrite IH; [reflexivity|].
  intros q Hq. apply H. right. exact Hq.
Qed.

Lemma count_in_pos b live p :
  p ∈ live -> contains b p = true -> 0 < count_in b live.
Proof.
  induction live as [|q live IH]; intros Hin Hc; [inversion Hin|].
  simpl. pose proof (count_in_nonneg b live).
  apply elem_of_cons in Hin as [<-|Hin].
  - rewrite Hc. lia.
  - specialize (IH Hin Hc). destruct (contains b q); lia.
Qed.

Lemma contains_start b b' p :
  blockStart b' = blockStart b -> contains b' p = contains b p.
Proof. intros H. unfold contains. rewrite H. reflexivity. Qed.

Lemma count_in_start b b' live :
  blockStart b' = blockStart b -> count_in b' live = count_in b live.
Proof.
  intros H. induction live as [|p live IH]; simpl; [reflexivity|].
  rewrite (contains_start b b' p H), IH. reflexivity.
Qed.

Lemma contains_range b p :
  contains b p = true <-> blockStart b <= p < blockStart b + blockLength.
Proof. unfold contains. rewrite andb_true_iff, Z.leb_le, Z.ltb_lt. tauto. Qed.

Lemma contains_false b p :
  p < blockStart b \/ blockStart b + blockLength <= p -> contains b p = false.
Proof.
  intros H. destruct (contains b p) eqn:E; [|reflexivity].
  apply contains_range in E. lia.
Qed.

Lemma bl_inv_perm bl l1 l2 : l1 ≡ₚ l2 -> bl_inv bl l1 -> bl_inv bl l2.
Proof.
  intros Hp [Hb Hd Hc Hcov Ht]. constructor; auto.
  - intros i b Hi. rewrite <- (count_in_perm b l1 l2 Hp). eauto.
  - intros p Hin. apply Hcov. rewrite Hp. exact Hin.
  - rewrite Ht. rewrite Hp. reflexivity.
Qed.

Lemma total_snoc l b : total (l ++ [b]) = total l + allocCount b.
Proof. induction l as [|x l IH]; simpl; [lia|]. fold (total (l ++ [b])). fold (total l). lia. Qed.

Lemma total_insert l : forall i b b',
  l !! i = Some b -> total (<[i:=b']> l) = total l - allocCount b + allocCount b'.
Proof.
  induction l as [|x l IH]; intros [|i] b b' Hi; simpl in *; try discriminate.
  - injection Hi as ->. fold (total l). lia.
  - fold (total (<[i:=b']> l)). fold (total l). rewrite (IH i b b' Hi). lia.
Qed.

Lemma total_delete l : forall i b,
  l !! i = Some b -> total (delete i l) = total l - allocCount b.
Proof.
  induction l as [|x l IH]; intros [|i] b Hi; simpl in *; try discriminate.
  - injection Hi as ->. fold (total l). lia.
  - fold (total (delete i l)). fold (total l). rewrite (IH i b Hi). lia.
Qed.

Lemma find_block_spec p l : forall i0,
  (exists j b, l !! j = Some b /\ contains b p = true) ->
  exists i b, find_block p l i0 = Some (i0 + i)%nat
              /\ l !! i = Some b /\ contains b p = true.
Proof.
  induction l as [|x l IH]; intros i0 (j & b & Hj & Hc).
  - discriminate.
  - simpl. destruct (contains x p) eqn:E.
    + exists 0%nat, x. rewrite Nat.add_0_r. auto.
    + destruct j as [|j]; simpl in Hj.
      * injection Hj as ->. congruence.
      * destruct (IH (S i0) (ex_intro _ j (ex_intro _ b (conj Hj Hc))))
          as (i & b' & Hf & Hi & Hc').
        exists (S i), b'. rewrite Hf. split; [f_equal; lia|]. auto.
Qed.

(** A slab that contains [p] is the only one that does. *)
Lemma disjoint_contains bl live i j b1 b2 p :
  bl_inv bl live ->
  blocks bl !! i = Some b1 -> blocks bl !! j = Some b2 -> i <> j ->
  contains b1 p = true -> contains b2 p = false.
Proof.
  intros Hinv Hi Hj Hne Hc. apply contains_range in Hc.
  apply contains_false.
  destruct (inv_disjoint _ _ Hinv i j b1 b2 Hi Hj Hne); lia.
Qed.

(** Allocation succeeds for any size that fits a slab, and hands out a
    pointer that becomes live. *)
Lemma allocate_inv bl live size :
  bl_inv bl live -> 0 < size <= blockLength ->
  exists p bl', BlockList_allocate bl size = Some (p, bl')
                /\ bl_inv bl' (p :: live).
Proof.
  intros Hinv Hsize.
  assert (Hfresh :
    let fresh := {| blockStart := mmap_next bl; tail := mmap_next bl; allocCount := 0 |} in
    exists p bl',
      ('(p, b') ← Block_allocate fresh size;
       Some (p, {| blocks := blocks bl ++ [b'];
                   mmap_next := mmap_next bl + blockLength |}))
      = Some (p, bl') /\ bl_inv bl' (p :: live)).
  { intros fresh. unfold Block_allocate. simpl.
    destruct (Z.gtb_spec (mmap_next bl - mmap_next bl + size) blockLength) as [|_]; [lia|].
    simpl. eexists _, _. split; [reflexivity|].
    set (b' := {| blockStart := mmap_next bl; tail := mmap_next bl + size;
                  allocCount := 0 + 1 |}).
    assert (Hold : forall q, q ∈ live -> contains b' q = false).
    { intros q Hq. destruct (inv_cover _ _ Hinv q Hq) as (i & b & Hi & Hc).
      apply contains_range in Hc.
      destruct (inv_bounds _ _ Hinv i b Hi) as [_ Hb].
      apply contains_false. simpl. lia. }
    constructor; simpl.
    - intros i b Hi. apply lookup_snoc_Some in Hi as [[_ Hi]|[_ <-]].
      + destruct (inv_bounds _ _ Hinv i b Hi). lia.
      + simpl. lia.
    - intros i j b1 b2 Hi Hj Hne.
      apply lookup_snoc_Some in Hi as [[Hli Hi]|[Hli <-]];
        apply lookup_snoc_Some in Hj as [[Hlj Hj]|[Hlj <-]]; simpl.
      + exact (inv_disjoint _ _ Hinv i j b1 b2 Hi Hj Hne).
      + destruct (inv_bounds _ _ Hinv i b1 Hi). lia.
      + destruct (inv_bounds _ _ Hinv j b2 Hj). lia.
      + lia.
    - intros i b Hi. apply lookup_snoc_Some in Hi as [[_ Hi]|[_ <-]].
      + destruct (inv_bounds _ _ Hinv i b Hi) as [_ Hb].
        rewrite (contains_false b (mmap_next bl)) by lia.
        rewrite (inv_count _ _ Hinv i b Hi). lia.
      + assert (contains b' (mmap_next bl) = true) as ->.
        { apply contains_range. simpl. lia. }
        rewrite (count_in_zero b' live Hold). reflexivity.
    - intros q Hq. apply elem_of_cons in Hq as [->|Hq].
      + exists (length (blocks bl)), b'. split.
        * apply lookup_snoc_Some. right. auto.
        * apply contains_range. simpl. lia.
      + destruct (inv_cover _ _ Hinv q Hq) as (i & b & Hi & Hc).
        exists i, b. split; [|exact Hc].
        apply lookup_snoc_Some. left. split; [|exact Hi].
        eapply lookup_lt_Some. exact Hi.
    - unfold live_allocations. simpl. fold (total (blocks bl ++ [b'])).
      rewrite total_snoc. pose proof (inv_total _ _ Hinv) as Ht.
      unfold live_allocations in Ht. fold (total (blocks bl)) in Ht.
      rewrite Ht. simpl. lia. }
  unfold BlockList_allocate.
  destruct (last_block (blocks bl)) as [lastb|] eqn:Hlast; [|exact Hfresh].
  destruct (Z.ltb_spec (remaining lastb) size) as [|Hroom]; [exact Hfresh|].
  clear Hfresh. unfold last_block in Hlast.
  set (i := (length (blocks bl) - 1)%nat) in *.
  destruct (inv_bounds _ _ Hinv i lastb Hlast) as [Hb1 Hb2].
  unfold remaining in Hroom. unfold Block_allocate.
  destruct (Z.gtb_spec (tail lastb - blockStart lastb + size) blockLength) as [|_]; [lia|].
  simpl. eexists _, _. split; [reflexivity|].
  set (b' := {| blockStart := blockStart lastb; tail := tail lastb + size;
                allocCount := allocCount lastb + 1 |}).
  assert (Hp : contains lastb (tail lastb) = true) by (apply contains_range; lia).
  assert (Hlk : forall j c, <[i:=b']> (blocks bl) !! j = Some c ->
            (j = i /\ c = b') \/ (j <> i /\ blocks bl !! j = Some c)).
  { intros j c Hj. apply list_lookup_insert_Some in Hj. intuition auto. }
  assert (Hst : forall j c, <[i:=b']> (blocks bl) !! j = Some c ->
            exists c0, blocks bl !! j = Some c0 /\ blockStart c = blockStart c0).
  { intros j c Hj. destruct (Hlk j c Hj) as [[-> ->]|[_ Hj']]; eauto. }
  constructor; simpl.
  - intros j c Hj. destruct (Hlk j c Hj) as [[-> ->]|[_ Hj']].
    + simpl. lia.
    + exact (inv_bounds _ _ Hinv j c Hj').
  - intros j1 j2 c1 c2 H1 H2 Hne.
    destruct (Hst j1 c1 H1) as (d1 & Hd1 & ->).
    destruct (Hst j2 c2 H2) as (d2 & Hd2 & ->).
    exact (inv_disjoint _ _ Hinv j1 j2 d1 d2 Hd1 Hd2 Hne).
  - intros j c Hj. destruct (Hlk j c Hj) as [[-> ->]|[Hne Hj']].
    + rewrite (contains_start lastb b' _ eq_refl), Hp.
      rewrite (count_in_start lastb b' live eq_refl).
      simpl. rewrite (inv_count _ _ Hinv i lastb Hlast). lia.
    + rewrite (disjoint_contains bl live i j lastb c (tail lastb) Hinv Hlast Hj'
                 ltac:(congruence) Hp).
      rewrite (inv_count _ _ Hinv j c Hj'). lia.
  - intros q Hq.
    assert (Hcov : exists j b, blocks bl !! j = Some b /\ contains b q = true).
    { apply elem_of_cons in Hq as [->|Hq]; [eauto|].
      exact (inv_cover _ _ Hinv q Hq). }
    destruct Hcov as (j & b & Hj & Hc).
    destruct (decide (j = i)) as [->|Hne].
    + exists i, b'. split.
      * apply list_lookup_insert_eq. eapply lookup_lt_Some. exact Hlast.
      * assert (b = lastb) as -> by congruence.
        rewrite (contains_start lastb b' q eq_refl). exact Hc.
    + exists j, b. rewrite list_lookup_insert_ne by congruence. auto.
  - unfold live_allocations. simpl. fold (total (<[i:=b']> (blocks bl))).
    rewrite (total_insert _ i lastb b' Hlast).
    pose proof (inv_total _ _ Hinv) as Ht.
    unfold live_allocations in Ht. fold (total (blocks bl)) in Ht.
    rewrite Ht. simpl. lia.
Qed.

(** Giving back a live pointer succeeds and takes it off the books. *)
Lemma deallocate_inv bl live p :
  bl_inv bl (p :: live) ->
  exists bl', BlockList_deallocate bl p = Some bl' /\ bl_inv bl' live.
Proof.
  intros Hinv.
  destruct (find_block_spec p (blocks bl) 0%nat
              (inv_cover _ _ Hinv p ltac:(left))) as (i & b & Hf & Hi & Hc).
  unfold BlockList_deallocate. rewrite Hf. simpl. rewrite Hi. simpl.
  pose proof (inv_count _ _ Hinv i b Hi) as Hcnt. simpl in Hcnt. rewrite Hc in Hcnt.
  pose proof (inv_total _ _ Hinv) as Ht.
  unfold live_allocations in Ht. fold (total (blocks bl)) in Ht.
  assert (Hother : forall j c, blocks bl !! j = Some c -> j <> i ->
            allocCount c = count_in c live).
  { intros j c Hj Hne. pose proof (inv_count _ _ Hinv j c Hj) as Hcj. simpl in Hcj.
    rewrite (disjoint_contains bl _ i j b c p Hinv Hi Hj ltac:(congruence) Hc) in Hcj.
    lia. }
  unfold isInUse. simpl.
  destruct (Z.eqb_spec (allocCount b - 1) 0) as [Hz|Hnz]; simpl.
  - eexists. split; [reflexivity|].
    assert (Hlk : forall j c, delete i (blocks bl) !! j = Some c ->
              exists j', blocks bl !! j' = Some c /\ j' <> i
                         /\ j' = (if decide (j < i)%nat then j else S j)).
    { intros j c Hj. destruct (decide (j < i)%nat).
      - rewrite list_lookup_delete_lt in Hj by lia. exists j. split; [auto|]. split; [lia|auto].
      - rewrite list_lookup_delete_ge in Hj by lia. exists (S j). split; [auto|]. split; [lia|auto]. }
    constructor; simpl.
    + intros j c Hj. destruct (Hlk j c Hj) as (j' & Hj' & _).
      exact (inv_bounds _ _ Hinv j' c Hj').
    + intros j1 j2 c1 c2 H1 H2 Hne.
      destruct (Hlk j1 c1 H1) as (j1' & H1' & _ & E1).
      destruct (Hlk j2 c2 H2) as (j2' & H2' & _ & E2).
      apply (inv_disjoint _ _ Hinv j1' j2' c1 c2 H1' H2').
      subst j1' j2'. repeat case_decide; lia.
    + intros j c Hj. destruct (Hlk j c Hj) as (j' & Hj' & Hne & _).
      exact (Hother j' c Hj' Hne).
    + intros q Hq.
      destruct (inv_cover _ _ Hinv q ltac:(right; exact Hq)) as (j & c & Hj & Hcq).
      assert (j <> i) as Hne.
      { intros ->. assert (c = b) as -> by congruence.
        pose proof (count_in_pos b live q Hq Hcq). lia. }
      destruct (decide (j < i)%nat).
      * exists j, c. rewrite list_lookup_delete_lt by lia. auto.
      * exists (j - 1)%nat, c. rewrite list_lookup_delete_ge by lia.
        replace (S (j - 1)) with j by lia. auto.
    + unfold live_allocations. simpl. fold (total (delete i (blocks bl))).
      rewrite (total_delete _ i b Hi). simpl in Ht. lia.
  - eexists. split; [reflexivity|].
    set (b' := Block_deallocate b).
    assert (Hlk : forall j c, <[i:=b']> (blocks bl) !! j = Some c ->
              (j = i /\ c = b') \/ (j <> i /\ blocks bl !! j = Some c)).
    { intros j c Hj. apply list_lookup_insert_Some in Hj. intuition auto. }
    assert (Hst : forall j c, <[i:=b']> (blocks bl) !! j = Some c ->
              exists c0, blocks bl !! j = Some c0 /\ blockStart c = blockStart c0
                         /\ tail c = tail c0).
    { intros j c Hj. destruct (Hlk j c Hj) as [[-> ->]|[_ Hj']]; eauto. }
    constructor; simpl.
    + intros j c Hj. destruct (Hst j c Hj) as (c0 & Hc0 & -> & ->).
      exact (inv_bounds _ _ Hinv j c0 Hc0).
    + intros j1 j2 c1 c2 H1 H2 Hne.
      destruct (Hst j1 c1 H1) as (d1 & Hd1 & -> & _).
      destruct (Hst j2 c2 H2) as (d2 & Hd2 & -> & _).
      exact (inv_disjoint _ _ Hinv j1 j2 d1 d2 Hd1 Hd2 Hne).
    + intros j c Hj. destruct (Hlk j c Hj) as [[-> ->]|[Hne Hj']].
      * rewrite (count_in_start b b' live eq_refl). simpl. lia.
      * exact (Hother j c Hj' Hne).
    + intros q Hq.
      destruct (inv_cover _ _ Hinv q ltac:(right; exact Hq)) as (j & c & Hj & Hcq).
      destruct (decide (j = i)) as [->|Hne].
      * exists i, b'. split.
        -- apply list_lookup_insert_eq. eapply lookup_lt_Some. exact Hi.
        -- assert (c = b) as -> by congruence.
           rewrite (contains_start b b' q eq_refl). exact Hcq.
      * exists j, c. rewrite list_lookup_insert_ne by congruence. auto.
    + unfold live_allocations. simpl. fold (total (<[i:=b']> (blocks bl))).
      rewrite (total_insert _ i b b' Hi). simpl in *. lia.
Qed.

Lemma bl_inv_empty : bl_inv BlockList_empty [].
Proof.
  constructor; simpl; try (intros; discriminate).
  - intros p Hp. inversion Hp.
  - reflexivity.
Qed.

(** *** Lines and the allocator *)

(** The slab allocations a line object owns. *)
Definition line_ptrs (l : CompactHistoryLine) : list Z :=
  match text l, formatArray l with
  | Some tx, Some fa => [tx; fa; this l]
  | _, _ => [this l]
  end.

(** The two array pointers are set exactly when the line is not empty. *)
Definition line_wf (l : CompactHistoryLine) : Prop :=
  if length_ l >? 0 then is_Some (text l) /\ is_Some (formatArray l)
  else text l = None /\ formatArray l = None.

(** A line whose two arrays each fit a slab (the allocator's contract). *)
Definition fits (line : list Character) : bool :=
  match line with
  | [] => true
  | c0 :: rest =>
      (sizeof_CharacterFormat * count_formats c0 rest 1 <=? blockLength)
      && (2 * Z.of_nat (length line) <=? blockLength)
  end.

Hypothesis sizeof_line_fits : 0 < sizeof_CompactHistoryLine <= blockLength.
Hypothesis sizeof_format_pos : 0 < sizeof_CharacterFormat.

Lemma runs_length c k rest : (length (runs c k rest) <= length rest)%nat.
Proof.
  revert c k. induction rest as [|x rest IH]; intros c k; simpl; [lia|].
  destruct (equalsFormat x c); simpl.
  - specialize (IH c (k + 1)). lia.
  - specialize (IH x (k + 1)). lia.
Qed.

Lemma CompactHistoryLine_new_inv line bl live :
  bl_inv bl live -> fits line = true ->
  exists l bl', CompactHistoryLine_new line bl = Some (l, bl')
    /\ bl_inv bl' (line_ptrs l ++ live)
    /\ line_wf l /\ encodes l line
    /\ length (line_ptrs l) = (if length_ l >? 0 then 3 else 1)%nat.
Proof.
  intros Hinv Hfit.
  destruct (allocate_inv bl live sizeof_CompactHistoryLine Hinv sizeof_line_fits)
    as (self & bl0 & Ha0 & Hinv0).
  unfold CompactHistoryLine_new. rewrite Ha0. simpl.
  destruct line as [|c0 rest].
  - eexists _, _. split; [reflexivity|].
    unfold line_ptrs, line_wf, encodes. simpl.
    split; [exact Hinv0|]. repeat split; auto.
  - unfold fits in Hfit.
    apply andb_true_iff in Hfit as [Hf1 Hf2].
    apply Z.leb_le in Hf1. apply Z.leb_le in Hf2.
    destruct (formatArray_built c0 rest) as [Hmem Hfl].
    set (fl := count_formats c0 rest 1) in *.
    simpl length in *.
    assert (Hfl_sz : 0 < sizeof_CharacterFormat * fl <= blockLength).
    { split; [apply Z.mul_pos_pos; lia|exact Hf1]. }
    destruct (allocate_inv bl0 _ _ Hinv0 Hfl_sz) as (fa & bl1 & Ha1 & Hinv1).
    rewrite Ha1. simpl.
    assert (Htx_sz : 0 < 2 * Z.of_nat (S (length rest)) <= blockLength) by lia.
    destruct (allocate_inv bl1 _ _ Hinv1 Htx_sz) as (tx & bl2 & Ha2 & Hinv2).
    rewrite Ha2. simpl.
    eexists _, _. split; [reflexivity|].
    unfold line_ptrs, line_wf, encodes. simpl.
    destruct (Z.gtb_spec (Z.of_nat (S (length rest))) 0) as [_|]; [|lia].
    split; [exact Hinv2|]. repeat split; eauto.
Qed.

Lemma CompactHistoryLine_delete_inv l bl live :
  line_wf l -> bl_inv bl (line_ptrs l ++ live) ->
  exists bl', CompactHistoryLine_delete l bl = Some bl' /\ bl_inv bl' live.
Proof.
  unfold line_wf, line_ptrs, CompactHistoryLine_delete.
  destruct (length_ l >? 0).
  - intros [[tx ->] [fa ->]] Hinv. simpl in *.
    destruct (deallocate_inv _ _ _ Hinv) as (bl1 & -> & Hinv1). simpl.
    destruct (deallocate_inv _ _ _ Hinv1) as (bl2 & -> & Hinv2). simpl.
    exact (deallocate_inv _ _ _ Hinv2).
  - intros [Ht _]. rewrite Ht. simpl. intros Hinv.
    exact (deallocate_inv _ _ _ Hinv).
Qed.

(** *** The invariant of the scroll *)

Definition owned (ls : list CompactHistoryLine) : list Z :=
  concat (map line_ptrs ls).

Record store_inv (s : CompactHistoryScroll) : Prop := mk_store_inv {
  sinv_alloc : bl_inv (blockList s) (owned (lines s));
  sinv_lines : Forall line_wf (lines s);
  sinv_max : 0 <= CInt.to_int (_maxLineCount s)
}.

Lemma evict_inv lineCount : forall ls bl,
  bl_inv bl (owned ls) -> Forall line_wf ls ->
  0 <= CInt.to_int lineCount ->
  exists bl', evict lineCount ls bl
              = Some (drop (length ls - Z.to_nat (CInt.to_int lineCount)) ls, bl')
              /\ bl_inv bl' (owned (drop (length ls - Z.to_nat (CInt.to_int lineCount)) ls)).
Proof.
  induction ls as [|l ls IH]; intros bl Hinv Hwf Hmax; simpl.
  - destruct (Z.gtb_spec 0 (CInt.to_int lineCount)); [lia|]. eauto.
  - destruct (Z.gtb_spec (Z.of_nat (S (length ls))) (CInt.to_int lineCount)) as [Hgt|Hle].
    + unfold owned in Hinv. simpl in Hinv.
      destruct (CompactHistoryLine_delete_inv l bl _ (Forall_inv Hwf) Hinv)
        as (bl' & -> & Hinv'). simpl.
      destruct (IH bl' Hinv' (Forall_inv_tail Hwf) Hmax) as (bl'' & -> & Hinv'').
      replace (S (length ls) - Z.to_nat (CInt.to_int lineCount))%nat
        with (S (length ls - Z.to_nat (CInt.to_int lineCount))) by lia.
      simpl. eauto.
    + replace (S (length ls) - Z.to_nat (CInt.to_int lineCount))%nat with 0%nat by lia.
      simpl. eauto.
Qed.

Lemma evict_Some lineCount : forall ls bl ls' bl',
  evict lineCount ls bl = Some (ls', bl') -> 0 <= CInt.to_int lineCount.
Proof.
  induction ls as [|l ls IH]; intros bl ls' bl'; simpl.
  - destruct (Z.gtb_spec 0 (CInt.to_int lineCount)); [discriminate|lia].
  - destruct (Z.gtb_spec (Z.of_nat (S (length ls))) (CInt.to_int lineCount)); [|lia].
    destruct (CompactHistoryLine_delete l bl); simpl; [|discriminate].
    apply IH.
Qed.

(** [setMaxNbLines] keeps the last [lineCount] lines. *)
Lemma setMaxNbLines_inv s lineCount :
  store_inv s -> 0 <= CInt.to_int lineCount ->
  exists s', setMaxNbLines s lineCount = Some s'
    /\ store_inv s'
    /\ lines s' = drop (length (lines s) - Z.to_nat (CInt.to_int lineCount)) (lines s)
    /\ _maxLineCount s' = lineCount.
Proof.
  intros [Ha Hl Hm] Hmax. unfold setMaxNbLines.
  destruct (evict_inv lineCount (lines s) (blockList s) Ha Hl Hmax) as (bl' & -> & Hinv').
  simpl. eexists. split; [reflexivity|]. split; [|auto].
  constructor; simpl; auto. apply Forall_drop. exact Hl.
Qed.

Lemma CompactHistoryScroll_new_inv m :
  0 <= CInt.to_int m ->
  exists s, CompactHistoryScroll_new m = Some s /\ store_inv s
            /\ lines s = [] /\ _maxLineCount s = m.
Proof.
  intros Hm. unfold CompactHistoryScroll_new.
  destruct (setMaxNbLines_inv
              {| lines := []; blockList := BlockList_empty; _maxLineCount := 0 |} m)
    as (s & Hs & Hinv & Hl & Hmax); auto.
  { constructor; simpl; [exact bl_inv_empty|constructor|reflexivity]. }
  exists s. simpl in Hl. auto.
Qed.

(** [addCellsVector] succeeds for a line that fits a slab.  The eviction test
    runs before the new line is appended. *)
Lemma addCellsVector_inv s cells :
  store_inv s -> fits cells = true ->
  exists s' l, addCellsVector s cells = Some s'
    /\ store_inv s'
    /\ encodes l cells /\ wrapped l = (if length_ l >? 0 then Some false else None)
    /\ lines s' = (if Z.of_nat (length (lines s)) >? CInt.to_int (_maxLineCount s)
                   then drop 1 (lines s) else lines s) ++ [l]
    /\ _maxLineCount s' = _maxLineCount s.
Proof.
  intros [Ha Hl Hm] Hfit. unfold addCellsVector.
  destruct (CompactHistoryLine_new_inv cells _ _ Ha Hfit)
    as (l & bl & Hnew & Hinv & Hwf & Henc & _).
  rewrite Hnew. simpl.
  assert (Hw : wrapped l = (if length_ l >? 0 then Some false else None)).
  { unfold CompactHistoryLine_new in Hnew.
    destruct (BlockList_allocate (blockList s) sizeof_CompactHistoryLine) as [[? ?]|];
      simpl in Hnew; [|discriminate].
    destruct cells as [|c0 rest].
    - injection Hnew as <- _. reflexivity.
    - destruct (BlockList_allocate _ _) as [[? ?]|]; simpl in Hnew; [|discriminate].
      destruct (BlockList_allocate _ _) as [[? ?]|]; simpl in Hnew; [|discriminate].
      injection Hnew as <- _. simpl.
      destruct (Z.gtb_spec (Z.of_nat (S (length rest))) 0); [reflexivity|lia]. }
  destruct (Z.gtb_spec (Z.of_nat (length (lines s))) (CInt.to_int (_maxLineCount s)))
    as [Hgt|Hle].
  - destruct (lines s) as [|old ls] eqn:Els; [simpl in Hgt; lia|].
    assert (Hperm : line_ptrs l ++ owned (old :: ls)
                    ≡ₚ line_ptrs old ++ owned (ls ++ [l])).
    { unfold owned. rewrite map_app, concat_app. simpl. rewrite app_nil_r.
      rewrite (Permutation_app_comm (line_ptrs l)). rewrite <- app_assoc. reflexivity. }
    pose proof (bl_inv_perm _ _ _ Hperm Hinv) as Hinv1.
    destruct (CompactHistoryLine_delete_inv old bl _ (Forall_inv Hl) Hinv1)
      as (bl' & -> & Hinv2). simpl.
    eexists _, l. split; [reflexivity|]. split; [|auto].
    constructor; simpl; auto.
    apply Forall_app. split; [exact (Forall_inv_tail Hl)|]. constructor; auto.
  - eexists _, l. split; [reflexivity|]. split; [|auto].
    constructor; simpl; auto.
    + apply (bl_inv_perm _ (line_ptrs l ++ owned (lines s))); [|exact Hinv].
      unfold owned. rewrite map_app, concat_app. simpl. rewrite app_nil_r.
      apply Permutation_app_comm.
    + apply Forall_app. split; [exact Hl|]. constructor; auto.
Qed.

Lemma addLine_inv s w :
  store_inv s -> lines s <> [] ->
  exists s', addLine s w = Some s' /\ store_inv s'
    /\ length (lines s') = length (lines s)
    /\ _maxLineCount s' = _maxLineCount s.
Proof.
  intros [Ha Hl Hm] Hne. unfold addLine.
  destruct (lookup_lt_is_Some_2 (lines s) (length (lines s) - 1)) as [line Hline].
  { destruct (lines s); [congruence|simpl; lia]. }
  rewrite Hline. simpl. eexists. split; [reflexivity|].
  set (line' := {| this := this line; wrapped := Some w |}).
  assert (Hp : line_ptrs line' = line_ptrs line) by reflexivity.
  split; [|split; [apply length_insert|reflexivity]].
  constructor; simpl; auto.
  - unfold owned. rewrite list_fmap_insert, Hp.
    rewrite list_insert_id; [exact Ha|].
    rewrite list_lookup_fmap, Hline. reflexivity.
  - apply Forall_insert; [exact Hl|]. exact (Forall_lookup_1 _ _ _ _ Hl Hline).
Qed.

(** An allocation that succeeded was for a size that fits a slab. *)
Lemma allocate_Some_fits bl live size p bl' :
  bl_inv bl live -> 0 < size ->
  BlockList_allocate bl size = Some (p, bl') -> size <= blockLength.
Proof.
  intros Hinv Hpos. unfold BlockList_allocate.
  assert (Hfresh : forall x,
    ('(p, b') ← Block_allocate
        {| blockStart := mmap_next bl; tail := mmap_next bl; allocCount := 0 |} size;
     Some (p, {| blocks := blocks bl ++ [b'];
                 mmap_next := mmap_next bl + blockLength |})) = Some x ->
    size <= blockLength).
  { intros x. unfold Block_allocate. simpl.
    destruct (Z.gtb_spec (mmap_next bl - mmap_next bl + size) blockLength);
      [discriminate|lia]. }
  destruct (last_block (blocks bl)) as [lastb|] eqn:Hlast; [|apply Hfresh].
  destruct (Z.ltb_spec (remaining lastb) size) as [|Hroom]; [apply Hfresh|].
  intros _. unfold last_block in Hlast.
  destruct (inv_bounds _ _ Hinv _ lastb Hlast). unfold remaining in Hroom. lia.
Qed.

Lemma count_formats_pos c rest : 1 <= count_formats c rest 1.
Proof. rewrite (count_formats_runs rest c 1 1). lia. Qed.

Lemma CompactHistoryLine_new_Some_fits line bl live l bl' :
  bl_inv bl live ->
  CompactHistoryLine_new line bl = Some (l, bl') -> fits line = true.
Proof.
  intros Hinv. unfold CompactHistoryLine_new, fits.
  destruct (allocate_inv bl live sizeof_CompactHistoryLine Hinv sizeof_line_fits)
    as (self & bl0 & -> & Hinv0). simpl.
  destruct line as [|c0 rest]; [reflexivity|].
  pose proof (count_formats_pos c0 rest) as Hfl.
  set (fl := count_formats c0 rest 1) in *.
  destruct (BlockList_allocate bl0 (sizeof_CharacterFormat * fl)) as [[fa bl1]|] eqn:E1;
    simpl; [|discriminate].
  assert (Hp1 : 0 < sizeof_CharacterFormat * fl) by (apply Z.mul_pos_pos; lia).
  pose proof (allocate_Some_fits _ _ _ _ _ Hinv0 Hp1 E1) as Hs1.
  destruct (allocate_inv bl0 _ _ Hinv0 (conj Hp1 Hs1)) as (fa' & bl1' & E1' & Hinv1).
  rewrite E1 in E1'. injection E1' as <- <-.
  destruct (BlockList_allocate bl1 _) as [[tx bl2]|] eqn:E2;
    simpl; [|discriminate].
  assert (Hp2 : 0 < 2 * Z.of_nat (S (length rest))) by lia.
  pose proof (allocate_Some_fits _ _ _ _ _ Hinv1 Hp2 E2) as Hs2.
  intros _. apply andb_true_iff. split; apply Z.leb_le; assumption.
Qed.

(** *** Runs of the scroll *)

Inductive Op :=
| AddCells (a : list Character) (count : Z)
| AddLine (previousWrapped : bool)
| SetMaxNbLines (lineCount : Z).

Definition step (s : CompactHistoryScroll) (op : Op) : option CompactHistoryScroll :=
  match op with
  | AddCells a count => addCells s a count
  | AddLine w => addLine s w
  | SetMaxNbLines n => setMaxNbLines s n
  end.

Fixpoint run (s : CompactHistoryScroll) (ops : list Op) : option CompactHistoryScroll :=
  match ops with
  | [] => Some s
  | op :: ops' => s' ← step s op; run s' ops'
  end.

(** A scroll constructed with capacity [m] and then driven by [ops]. *)
Definition run_new (m : Z) (ops : list Op) : option CompactHistoryScroll :=
  s ← CompactHistoryScroll_new m; run s ops.

Lemma addCells_Some s a count s' :
  addCells s a count = Some s' ->
  0 <= count <= Z.of_nat (length a)
  /\ addCellsVector s (take (Z.to_nat count) a) = Some s'.
Proof.
  unfold addCells.
  destruct (Z.ltb_spec count 0); simpl; [discriminate|].
  destruct (Z.ltb_spec (Z.of_nat (length a)) count); [discriminate|].
  intros Hv. split; [lia|exact Hv].
Qed.

Lemma addCellsVector_Some_fits s cells s' :
  store_inv s -> addCellsVector s cells = Some s' -> fits cells = true.
Proof.
  intros Hinv. unfold addCellsVector.
  destruct (CompactHistoryLine_new cells (blockList s)) as [[l bl]|] eqn:E;
    simpl; [|discriminate].
  intros _. exact (CompactHistoryLine_new_Some_fits _ _ _ _ _ (sinv_alloc _ Hinv) E).
Qed.

Lemma step_inv s op s' : store_inv s -> step s op = Some s' -> store_inv s'.
Proof.
  intros Hinv. destruct op as [a count|w|n]; simpl.
  - intros H. apply addCells_Some in H as [_ H].
    pose proof (addCellsVector_Some_fits _ _ _ Hinv H) as Hfit.
    destruct (addCellsVector_inv s _ Hinv Hfit) as (s1 & l & H1 & Hinv1 & _).
    congruence.
  - intros H.
    assert (lines s <> []) as Hne.
    { unfold addLine in H. destruct (lines s); [discriminate|congruence]. }
    destruct (addLine_inv s w Hinv Hne) as (s1 & H1 & Hinv1 & _). congruence.
  - intros H.
    assert (0 <= CInt.to_int n) as Hn.
    { unfold setMaxNbLines in H.
      destruct (evict n (lines s) (blockList s)) as [[ls bl]|] eqn:E; [|discriminate].
      exact (evict_Some _ _ _ _ _ E). }
    destruct (setMaxNbLines_inv s n Hinv Hn) as (s1 & H1 & Hinv1 & _). congruence.
Qed.

Lemma run_inv ops : forall s s', store_inv s -> run s ops = Some s' -> store_inv s'.
Proof.
  induction ops as [|op ops IH]; intros s s' Hinv; simpl.
  - intros [= <-]. exact Hinv.
  - destruct (step s op) as [s1|] eqn:E; simpl; [|discriminate].
    apply IH. exact (step_inv _ _ _ Hinv E).
Qed.

Lemma CompactHistoryScroll_new_Some m s :
  CompactHistoryScroll_new m = Some s -> store_inv s /\ lines s = [] /\ _maxLineCount s = m.
Proof.
  intros H.
  assert (0 <= CInt.to_int m) as Hm.
  { unfold CompactHistoryScroll_new, setMaxNbLines in H. simpl in H.
    destruct (Z.gtb_spec 0 (CInt.to_int m)); [discriminate|lia]. }
  destruct (CompactHistoryScroll_new_inv m Hm) as (s1 & H1 & Hinv & Hl & Hmax).
  assert (s1 = s) as <- by congruence. auto.
Qed.

(** Every scroll that a run produces satisfies the invariant. *)
Lemma run_new_inv m ops s : run_new m ops = Some s -> store_inv s.
Proof.
  unfold run_new. destruct (CompactHistoryScroll_new m) as [s0|] eqn:E; simpl; [|discriminate].
  apply run_inv. apply (CompactHistoryScroll_new_Some _ _ E).
Qed.

(** *** Properties of the compact scroll *)

(** The slab allocations of a line object: header and two arrays, or the
    header alone when the line is empty. *)
Definition allocations_of (l : CompactHistoryLine) : Z :=
  if length_ l >? 0 then 3 else 1.

Lemma owned_length ls :
  Forall line_wf ls ->
  Z.of_nat (length (owned ls)) = foldr (fun l acc => allocations_of l + acc) 0 ls.
Proof.
  induction 1 as [|l ls Hl _ IH]; simpl; [reflexivity|].
  unfold owned in *. simpl. rewrite length_app, Nat2Z.inj_add, IH.
  f_equal. unfold line_wf in Hl. unfold allocations_of, line_ptrs.
  destruct (length_ l >? 0).
  - destruct Hl as [[tx ->] [fa ->]]. reflexivity.
  - destruct Hl as [-> _]. reflexivity.
Qed.

(** C9 (as amended): in every state a scroll can reach, the live slab
    allocations are exactly those of the lines it currently holds -- three
    for a line built from a non-empty cell sequence (format-run array,
    code-point array, header), one (the header) for a line built from an empty
    sequence; the lines hold their array pointers accordingly.  Allocations of
    lines that were destroyed are no longer counted, so they were released. *)
Theorem compact_line_allocations m ops s :
  run_new m ops = Some s ->
  live_allocations (blockList s)
  = foldr (fun l acc => allocations_of l + acc) 0 (lines s)
  /\ Forall line_wf (lines s).
Proof.
  intros Hrun. destruct (run_new_inv _ _ _ Hrun) as [Ha Hl _].
  split; [|exact Hl].
  rewrite (inv_total _ _ Ha). apply owned_length. exact Hl.
Qed.

(** C6: a cell sequence committed with [addCells] is read back unchanged by
    [getCells] on the line it became: the run-length format encoding of the
    constructor followed by the decoding of [getCharacter] is the identity.
    The write succeeds whenever the line's arrays fit a slab. *)
Theorem compact_getCells_roundtrip m ops s a count buffer :
  run_new m ops = Some s ->
  0 <= count <= Z.of_nat (length a) ->
  count <= CInt.int_max ->
  fits (take (Z.to_nat count) a) = true ->
  forallb wf_Character (take (Z.to_nat count) a) = true ->
  exists s', addCells s a count = Some s'
    /\ getCells s' (getLines s' - 1) 0 count buffer
       = Some (take (Z.to_nat count) a ++ drop (Z.to_nat count) buffer).
Proof.
  intros Hrun Hcount Hint Hfit Hwf.
  pose proof (run_new_inv _ _ _ Hrun) as Hinv.
  set (cells := take (Z.to_nat count) a) in *.
  assert (Hlen : Z.of_nat (length cells) = count).
  { unfold cells. rewrite length_take. lia. }
  destruct (addCellsVector_inv s cells Hinv Hfit)
    as (s' & l & Hadd & _ & Henc & _ & Hlines & _).
  exists s'. split.
  { unfold addCells.
    destruct (Z.ltb_spec count 0); [lia|].
    destruct (Z.ltb_spec (Z.of_nat (length a)) count); [lia|]. exact Hadd. }
  unfold getCells.
  destruct (Z.eqb_spec count 0) as [->|Hnz]; [reflexivity|].
  set (pre := if Z.of_nat (length (lines s)) >? CInt.to_int (_maxLineCount s)
              then drop 1 (lines s) else lines s) in *.
  assert (Hat : line_at s' (getLines s' - 1) = Some l).
  { unfold line_at, getLines. rewrite Hlines, length_app. simpl.
    destruct (Z.ltb_spec (Z.of_nat (length pre + 1) - 1) 0); [lia|].
    replace (Z.to_nat (Z.of_nat (length pre + 1) - 1)) with (length pre) by lia.
    apply list_lookup_middle. reflexivity. }
  rewrite Hat. simpl.
  destruct Henc as (Hl & Henc').
  assert (Henc : encodes l cells) by (split; assumption).
  rewrite Hl, Hlen. replace (count - count) with 0 by lia.
  change (CInt.to_uint 0 <=? CInt.to_uint 0) with true. simpl.
  unfold getCharacters. simpl.
  destruct (Z.leb_spec 0 count); [|lia]. simpl.
  rewrite Hl, Hlen. replace (0 + count) with count by lia.
  rewrite (CInt.to_int_id count) by (unfold CInt.in_int, CInt.int_min; lia).
  destruct (Z.leb_spec count count); [|lia]. simpl.
  pose proof (forallb_wf_Forall _ Hwf) as Hwf'.
  pose proof (getCharacters_loop_encodes l cells Henc Hwf' (Z.to_nat count) 0%nat
                ltac:(lia)) as Hloop.
  change (Z.of_nat 0) with 0 in Hloop. rewrite Hloop.
  simpl. rewrite drop_0, take_ge by lia. reflexivity.
Qed.

(** The number of lines after a write: the eviction test precedes the append,
    so a scroll that holds exactly [_maxLineCount] lines grows by one more. *)
Lemma addCells_getLines s a count s' :
  store_inv s -> addCells s a count = Some s' ->
  getLines s' = (if getLines s >? CInt.to_int (_maxLineCount s)
                 then getLines s else getLines s + 1)
  /\ _maxLineCount s' = _maxLineCount s.
Proof.
  intros Hinv H. apply addCells_Some in H as [_ H].
  pose proof (addCellsVector_Some_fits _ _ _ Hinv H) as Hfit.
  destruct (addCellsVector_inv s _ Hinv Hfit) as (s1 & l & H1 & _ & _ & _ & Hlines & Hmax).
  assert (s1 = s') as -> by congruence. split; [|exact Hmax].
  pose proof (sinv_max _ Hinv) as Hpos.
  unfold getLines. rewrite Hlines, length_app. simpl.
  destruct (Z.gtb_spec (Z.of_nat (length (lines s))) (CInt.to_int (_maxLineCount s))).
  - rewrite length_drop. lia.
  - lia.
Qed.

Definition writes (ws : list (list Character)) : list Op :=
  map (fun w => AddCells w (Z.of_nat (length w))) ws.

Lemma run_writes_getLines ws : forall s s',
  store_inv s ->
  getLines s <= CInt.to_int (_maxLineCount s) + 1 ->
  run s (writes ws) = Some s' ->
  getLines s' = Z.min (getLines s + Z.of_nat (length ws))
                      (CInt.to_int (_maxLineCount s) + 1).
Proof.
  induction ws as [|w ws IH]; intros s s' Hinv Hle; simpl.
  - intros [= <-]. lia.
  - destruct (addCells s w (Z.of_nat (length w))) as [s1|] eqn:E; simpl; [|discriminate].
    destruct (addCells_getLines _ _ _ _ Hinv E) as [Hn Hmax].
    pose proof (step_inv s (AddCells w (Z.of_nat (length w))) s1 Hinv E) as Hinv1.
    intros Hrun.
    assert (Hle1 : getLines s1 <= CInt.to_int (_maxLineCount s1) + 1).
    { rewrite Hmax, Hn.
      destruct (Z.gtb_spec (getLines s) (CInt.to_int (_maxLineCount s))); lia. }
    rewrite (IH s1 s' Hinv1 Hle1 Hrun), Hmax, Hn.
    destruct (Z.gtb_spec (getLines s) (CInt.to_int (_maxLineCount s))); lia.
Qed.

(** After [k] writes into a fresh scroll of capacity [m] the scroll holds
    [min k (m + 1)] lines: one more than [m] as soon as [k > m]. *)
Lemma getLines_after_writes m ws s :
  run_new m (writes ws) = Some s ->
  getLines s = Z.min (Z.of_nat (length ws)) (CInt.to_int m + 1).
Proof.
  unfold run_new. destruct (CompactHistoryScroll_new m) as [s0|] eqn:E; simpl; [|discriminate].
  destruct (CompactHistoryScroll_new_Some _ _ E) as (Hinv & Hl & Hm).
  intros Hrun.
  rewrite (run_writes_getLines ws s0 s Hinv); unfold getLines; rewrite ?Hl, ?Hm; simpl.
  - reflexivity.
  - pose proof (sinv_max _ Hinv) as Hx. rewrite Hm in Hx. lia.
  - exact Hrun.
Qed.

(** *** Further properties of compressed lines *)

Lemma equalsFormat_false a b :
  equalsFormat a b = false ->
  (rendition a, foregroundColor a, backgroundColor a)
  <> (rendition b, foregroundColor b, backgroundColor b).
Proof.
  intros H [= Hr Hf Hb]. unfold equalsFormat in H.
  rewrite Hr, Hf, Hb, !Z.eqb_refl in H. discriminate.
Qed.

(** Whatever the allocator answers, a line that was constructed encodes the
    cells it was given; [wrapped] is set only for a line that is not empty. *)
Lemma CompactHistoryLine_new_encodes line bl l bl' :
  CompactHistoryLine_new line bl = Some (l, bl') ->
  encodes l line
  /\ wrapped l = match line with [] => None | _ :: _ => Some false end.
Proof.
  unfold CompactHistoryLine_new.
  destruct (BlockList_allocate bl sizeof_CompactHistoryLine) as [[self bl0]|];
    cbn [mbind option_bind]; [|discriminate].
  destruct line as [|c0 rest].
  - intros [= <- _]. unfold encodes. simpl. auto.
  - destruct (BlockList_allocate bl0 _) as [[fa bl1]|];
      cbn [mbind option_bind]; [|discriminate].
    destruct (BlockList_allocate bl1 _) as [[tx bl2]|];
      cbn [mbind option_bind]; [|discriminate].
    intros [= <- _]. destruct (formatArray_built c0 rest) as [Hmem Hfl].
    unfold encodes. cbn [length_ text_mem formatArray_mem formatLength wrapped].
    auto.
Qed.

(** Adjacent runs: start columns grow strictly and formats differ. *)
Lemma runs_adjacent rest : forall c k cur j e e',
  same_format cur c -> startPos cur < k ->
  (cur :: runs c k rest) !! j = Some e ->
  (cur :: runs c k rest) !! S j = Some e' ->
  startPos e < startPos e' < k + Z.of_nat (length rest)
  /\ (fmt_rendition e, fgColor e, bgColor e)
     <> (fmt_rendition e', fgColor e', bgColor e').
Proof.
  induction rest as [|x rest IH]; intros c k cur j e e' Hcur Hk Hj HSj.
  - simpl in HSj. destruct j; discriminate.
  - simpl in Hj, HSj |- *. destruct (equalsFormat x c) eqn:Eq; simpl in Hj, HSj.
    + destruct (IH c (k + 1) cur j e e' Hcur ltac:(lia) Hj HSj) as [Hs Hd].
      split; [lia|exact Hd].
    + destruct j as [|j].
      * simpl in Hj, HSj. injection Hj as <-. injection HSj as <-.
        split; [simpl; lia|].
        destruct Hcur as (Hr & Hf & Hb). simpl. rewrite Hr, Hf, Hb.
        intros H. apply (equalsFormat_false x c Eq). congruence.
      * destruct (IH x (k + 1) (setFormat x k) j e e') as [Hs Hd]; auto.
        -- unfold same_format. simpl. auto.
        -- simpl. lia.
        -- split; [lia|exact Hd].
Qed.

(** X1: the format runs a constructed line stores are a proper run-length
    encoding: there is at least one run and at most one per cell, the first
    run starts at column 0, start columns grow strictly and stay inside the
    line, and two adjacent runs never carry the same format. *)
Theorem format_runs_strictly_sorted_and_distinct line bl l bl' :
  CompactHistoryLine_new line bl = Some (l, bl') ->
  line <> [] ->
  exists R,
    formatArray_mem l = map Some R
    /\ formatLength l = Z.of_nat (length R)
    /\ (1 <= length R <= length line)%nat
    /\ (exists e0, R !! 0%nat = Some e0 /\ startPos e0 = 0)
    /\ forall j e e', R !! j = Some e -> R !! S j = Some e' ->
         startPos e < startPos e' < Z.of_nat (length line)
         /\ (fmt_rendition e, fgColor e, bgColor e)
            <> (fmt_rendition e', fgColor e', bgColor e').
Proof.
  intros Hnew Hne. destruct (CompactHistoryLine_new_encodes _ _ _ _ Hnew) as [Henc _].
  destruct line as [|c0 rest]; [congruence|].
  destruct Henc as (_ & _ & Hmem & Hfl).
  exists (setFormat c0 0 :: runs c0 1 rest).
  split; [exact Hmem|]. split; [exact Hfl|].
  pose proof (runs_length c0 1 rest) as Hrl.
  split; [simpl; lia|]. split; [exists (setFormat c0 0); auto|].
  intros j e e' Hj HSj.
  destruct (runs_adjacent rest c0 1 (setFormat c0 0) j e e') as [Hs Hd]; auto.
  - unfold same_format. simpl. auto.
  - simpl. lia.
  - split; [simpl length; lia|exact Hd].
Qed.

(** *** Slabs are released as soon as they are empty *)

Definition slabs_in_use (bl : CompactHistoryBlockList) : Prop :=
  Forall (fun b => 0 < allocCount b) (blocks bl).

Lemma Block_allocate_count b size p b' :
  Block_allocate b size = Some (p, b') -> allocCount b' = allocCount b + 1.
Proof.
  unfold Block_allocate. destruct (_ >? blockLength); [discriminate|].
  intros [= _ <-]. reflexivity.
Qed.

Lemma allocate_in_use bl size p bl' :
  slabs_in_use bl -> BlockList_allocate bl size = Some (p, bl') -> slabs_in_use bl'.
Proof.
  unfold slabs_in_use, BlockList_allocate. intros Hpos.
  set (fresh := {| blockStart := mmap_next bl; tail := mmap_next bl; allocCount := 0 |}).
  assert (Hfresh :
    ('(p, b') ← Block_allocate fresh size;
     Some (p, {| blocks := blocks bl ++ [b'];
                 mmap_next := mmap_next bl + blockLength |})) = Some (p, bl') ->
    Forall (fun b => 0 < allocCount b) (blocks bl')).
  { destruct (Block_allocate fresh size) as [[q b']|] eqn:E;
      cbn [mbind option_bind]; [|discriminate].
    apply Block_allocate_count in E. intros [= _ <-]. cbn [blocks].
    apply Forall_app. split; [exact Hpos|].
    constructor; [simpl in E; lia|constructor]. }
  destruct (last_block (blocks bl)) as [lastb|] eqn:Hlast; [|exact Hfresh].
  destruct (remaining lastb <? size); [exact Hfresh|].
  destruct (Block_allocate lastb size) as [[q b']|] eqn:E;
    cbn [mbind option_bind]; [|discriminate].
  apply Block_allocate_count in E. intros [= _ <-]. cbn [blocks].
  apply Forall_insert; [exact Hpos|].
  unfold last_block in Hlast.
  pose proof (Forall_lookup_1 _ _ _ _ Hpos Hlast) as Hc. simpl in Hc. lia.
Qed.

Lemma deallocate_in_use bl p bl' :
  slabs_in_use bl -> BlockList_deallocate bl p = Some bl' -> slabs_in_use bl'.
Proof.
  unfold slabs_in_use, BlockList_deallocate. intros Hpos.
  destruct (find_block p (blocks bl) 0) as [i|]; cbn [mbind option_bind]; [|discriminate].
  destruct (blocks bl !! i) as [b|] eqn:Hb; cbn [mbind option_bind]; [|discriminate].
  pose proof (Forall_lookup_1 _ _ _ _ Hpos Hb) as Hc. simpl in Hc.
  unfold isInUse. simpl.
  destruct (Z.eqb_spec (allocCount b - 1) 0); simpl; intros [= <-]; simpl.
  - apply Forall_delete. exact Hpos.
  - apply Forall_insert; [exact Hpos|]. simpl. lia.
Qed.

Lemma line_new_in_use line bl l bl' :
  slabs_in_use bl -> CompactHistoryLine_new line bl = Some (l, bl') -> slabs_in_use bl'.
Proof.
  intros Hpos. unfold CompactHistoryLine_new.
  destruct (BlockList_allocate bl sizeof_CompactHistoryLine) as [[self bl0]|] eqn:E0;
    cbn [mbind option_bind]; [|discriminate].
  pose proof (allocate_in_use _ _ _ _ Hpos E0) as H0.
  destruct line as [|c0 rest]; [intros [= _ <-]; exact H0|].
  destruct (BlockList_allocate bl0 _) as [[fa bl1]|] eqn:E1;
    cbn [mbind option_bind]; [|discriminate].
  pose proof (allocate_in_use _ _ _ _ H0 E1) as H1.
  destruct (BlockList_allocate bl1 _) as [[tx bl2]|] eqn:E2;
    cbn [mbind option_bind]; [|discriminate].
  intros [= _ <-]. exact (allocate_in_use _ _ _ _ H1 E2).
Qed.

Lemma line_delete_in_use l bl bl' :
  slabs_in_use bl -> CompactHistoryLine_delete l bl = Some bl' -> slabs_in_use bl'.
Proof.
  intros Hpos. unfold CompactHistoryLine_delete.
  destruct (length_ l >? 0).
  - destruct (text l) as [tx|]; cbn [mbind option_bind]; [|discriminate].
    destruct (BlockList_deallocate bl tx) as [bl1|] eqn:E1;
      cbn [mbind option_bind]; [|discriminate].
    destruct (formatArray l) as [fa|]; cbn [mbind option_bind]; [|discriminate].
    destruct (BlockList_deallocate bl1 fa) as [bl2|] eqn:E2;
      cbn [mbind option_bind]; [|discriminate].
    intros E3.
    exact (deallocate_in_use _ _ _
             (deallocate_in_use _ _ _ (deallocate_in_use _ _ _ Hpos E1) E2) E3).
  - cbn [mbind option_bind]. apply deallocate_in_use. exact Hpos.
Qed.

Lemma evict_in_use lineCount : forall ls bl ls' bl',
  slabs_in_use bl -> evict lineCount ls bl = Some (ls', bl') -> slabs_in_use bl'.
Proof.
  induction ls as [|l ls IH]; intros bl ls' bl' Hpos; simpl.
  - destruct (0 >? CInt.to_int lineCount); [discriminate|]. intros [= _ <-]. exact Hpos.
  - destruct (_ >? CInt.to_int lineCount).
    + destruct (CompactHistoryLine_delete l bl) as [bl1|] eqn:E;
        cbn [mbind option_bind]; [|discriminate].
      apply IH. exact (line_delete_in_use _ _ _ Hpos E).
    + intros [= _ <-]. exact Hpos.
Qed.

Lemma step_in_use s op s' :
  slabs_in_use (blockList s) -> step s op = Some s' -> slabs_in_use (blockList s').
Proof.
  intros Hpos. destruct op as [a count|w|n]; simpl.
  - intros H. apply addCells_Some in H as [_ H]. revert H. unfold addCellsVector.
    destruct (CompactHistoryLine_new _ _) as [[l bl]|] eqn:E;
      cbn [mbind option_bind]; [|discriminate].
    pose proof (line_new_in_use _ _ _ _ Hpos E) as H1.
    destruct (_ >? _).
    + destruct (lines s) as [|old ls]; [discriminate|].
      destruct (CompactHistoryLine_delete old bl) as [bl1|] eqn:E1;
        cbn [mbind option_bind]; [|discriminate].
      intros [= <-]. exact (line_delete_in_use _ _ _ H1 E1).
    + intros [= <-]. exact H1.
  - unfold addLine. destruct (lines s !! _); cbn [mbind option_bind]; [|discriminate].
    intros [= <-]. exact Hpos.
  - unfold setMaxNbLines.
    destruct (evict n (lines s) (blockList s)) as [[ls bl]|] eqn:E;
      cbn [mbind option_bind]; [|discriminate].
    intros [= <-]. exact (evict_in_use _ _ _ _ _ Hpos E).
Qed.

Lemma run_in_use ops : forall s s',
  slabs_in_use (blockList s) -> run s ops = Some s' -> slabs_in_use (blockList s').
Proof.
  induction ops as [|op ops IH]; intros s s' Hpos; simpl.
  - intros [= <-]. exact Hpos.
  - destruct (step s op) as [s1|] eqn:E; cbn [mbind option_bind]; [|discriminate].
    apply IH. exact (step_in_use _ _ _ Hpos E).
Qed.

Lemma total_in_use l :
  Forall (fun b => 0 < allocCount b) l -> l <> [] -> 0 < total l.
Proof.
  induction 1 as [|b l Hb Hl IH]; [congruence|]. intros _. simpl. fold (total l).
  destruct l as [|b' l']; [simpl; lia|].
  specialize (IH ltac:(discriminate)). lia.
Qed.

(** X2: the slab list of a scroll never holds an empty slab -- a slab is
    unmapped by the deallocation that takes its last allocation -- and a
    scroll without lines holds no slab at all: evicting every line returns
    all memory. *)
Theorem slabs_released_when_empty m ops s :
  run_new m ops = Some s ->
  Forall (fun b => 0 < allocCount b) (blocks (blockList s))
  /\ (lines s = [] -> blocks (blockList s) = []).
Proof.
  intros Hrun. pose proof (run_new_inv _ _ _ Hrun) as Hinv.
  assert (Hpos : slabs_in_use (blockList s)).
  { unfold run_new in Hrun.
    destruct (CompactHistoryScroll_new m) as [s0|] eqn:E;
      cbn [mbind option_bind] in Hrun; [|discriminate].
    apply (run_in_use ops s0 s); [|exact Hrun].
    unfold CompactHistoryScroll_new, setMaxNbLines in E. simpl in E.
    destruct (0 >? CInt.to_int m); [discriminate|]. injection E as <-.
    constructor. }
  split; [exact Hpos|]. intros Hl.
  pose proof (inv_total _ _ (sinv_alloc _ Hinv)) as Ht. rewrite Hl in Ht.
  unfold live_allocations in Ht. fold (total (blocks (blockList s))) in Ht.
  destruct (blocks (blockList s)) as [|b l] eqn:Eb; [reflexivity|].
  pose proof (total_in_use (b :: l) ltac:(rewrite <- Eb; exact Hpos) ltac:(discriminate))
    as Hgt.
  rewrite Ht in Hgt. simpl in Hgt. lia.
Qed.

(** *** Capacity *)

Lemma step_getLines_bound s op s' :
  store_inv s ->
  getLines s <= CInt.to_int (_maxLineCount s) + 1 ->
  step s op = Some s' ->
  getLines s' <= CInt.to_int (_maxLineCount s') + 1.
Proof.
  intros Hinv Hle. destruct op as [a count|w|n]; simpl.
  - intros H. destruct (addCells_getLines _ _ _ _ Hinv H) as [Hn ->]. rewrite Hn.
    destruct (Z.gtb_spec (getLines s) (CInt.to_int (_maxLineCount s))); lia.
  - intros H.
    assert (lines s <> []) as Hne.
    { unfold addLine in H. destruct (lines s); [discriminate|congruence]. }
    destruct (addLine_inv s w Hinv Hne) as (s1 & H1 & _ & Hlen & Hmax).
    assert (s1 = s') as -> by congruence. unfold getLines in *. rewrite Hlen, Hmax. exact Hle.
  - intros H.
    assert (0 <= CInt.to_int n) as Hn.
    { unfold setMaxNbLines in H.
      destruct (evict n (lines s) (blockList s)) as [[ls bl]|] eqn:E; [|discriminate].
      exact (evict_Some _ _ _ _ _ E). }
    destruct (setMaxNbLines_inv s n Hinv Hn) as (s1 & H1 & _ & Hl & Hmax).
    assert (s1 = s') as -> by congruence. unfold getLines. rewrite Hl, Hmax, length_drop. lia.
Qed.

Lemma run_getLines_bound ops : forall s s',
  store_inv s ->
  getLines s <= CInt.to_int (_maxLineCount s) + 1 ->
  run s ops = Some s' ->
  getLines s' <= CInt.to_int (_maxLineCount s') + 1.
Proof.
  induction ops as [|op ops IH]; intros s s' Hinv Hle; simpl.
  - intros [= <-]. exact Hle.
  - destruct (step s op) as [s1|] eqn:E; cbn [mbind option_bind]; [|discriminate].
    apply IH; [exact (step_inv _ _ _ Hinv E)|exact (step_getLines_bound _ _ _ Hinv Hle E)].
Qed.

(** X3: whatever mix of writes, flag stamps and capacity changes a scroll
    has seen, it holds at most [_maxLineCount + 1] lines, and its capacity
    is not negative as an [int]. *)
Theorem getLines_at_most_capacity_plus_one m ops s :
  run_new m ops = Some s ->
  0 <= getLines s <= CInt.to_int (_maxLineCount s) + 1
  /\ 0 <= CInt.to_int (_maxLineCount s).
Proof.
  intros Hrun. pose proof (run_new_inv _ _ _ Hrun) as Hinv.
  split; [|exact (sinv_max _ Hinv)]. split; [unfold getLines; lia|].
  unfold run_new in Hrun.
  destruct (CompactHistoryScroll_new m) as [s0|] eqn:E;
    cbn [mbind option_bind] in Hrun; [|discriminate].
  destruct (CompactHistoryScroll_new_Some _ _ E) as (Hinv0 & Hl & Hm).
  apply (run_getLines_bound ops s0 s Hinv0); [|exact Hrun].
  pose proof (sinv_max _ Hinv0). unfold getLines. rewrite Hl. simpl. lia.
Qed.

Lemma evict_negative lineCount : forall ls bl,
  bl_inv bl (owned ls) -> Forall line_wf ls ->
  CInt.to_int lineCount < 0 ->
  evict lineCount ls bl = None.
Proof.
  induction ls as [|l ls IH]; intros bl Hinv Hwf Hneg; simpl.
  - destruct (Z.gtb_spec 0 (CInt.to_int lineCount)); [reflexivity|lia].
  - destruct (Z.gtb_spec (Z.of_nat (S (length ls))) (CInt.to_int lineCount)); [|lia].
    unfold owned in Hinv. simpl in Hinv.
    destruct (CompactHistoryLine_delete_inv l bl _ (Forall_inv Hwf) Hinv)
      as (bl' & -> & Hinv'). cbn [mbind option_bind].
    exact (IH bl' Hinv' (Forall_inv_tail Hwf) Hneg).
Qed.

(** X4: [setMaxNbLines(n)] on any scroll a run has produced.  For
    [(int) n >= 0] it succeeds, keeps exactly the newest
    [min(getLines, n)] lines in their order and records [n] as the capacity;
    for a count above [INT_MAX], whose cast is negative, the eviction loop
    runs through all lines and then takes from the empty list. *)
Theorem setMaxNbLines_keeps_newest m ops s n :
  run_new m ops = Some s ->
  (0 <= CInt.to_int n ->
   exists s', setMaxNbLines s n = Some s'
     /\ getLines s' = Z.min (getLines s) (CInt.to_int n)
     /\ lines s' = drop (Z.to_nat (getLines s - getLines s')) (lines s)
     /\ _maxLineCount s' = n)
  /\ (CInt.to_int n < 0 -> setMaxNbLines s n = None).
Proof.
  intros Hrun. pose proof (run_new_inv _ _ _ Hrun) as Hinv. split.
  - intros Hn. destruct (setMaxNbLines_inv s n Hinv Hn) as (s' & H & _ & Hl & Hmax).
    exists s'. split; [exact H|].
    assert (Hg : getLines s' = Z.min (getLines s) (CInt.to_int n)).
    { unfold getLines. rewrite Hl, length_drop. lia. }
    split; [exact Hg|]. split; [|exact Hmax].
    rewrite Hl, Hg. f_equal. unfold getLines. lia.
  - intros Hneg. unfold setMaxNbLines.
    rewrite (evict_negative n (lines s) (blockList s)
               (sinv_alloc _ Hinv) (sinv_lines _ Hinv) Hneg).
    reflexivity.
Qed.

(** *** Committed lines stay as they are *)

(** The line that [setWrapped] leaves. *)
Definition with_wrapped (l : CompactHistoryLine) (w : bool) : CompactHistoryLine :=
  {| this := this l; formatArray := formatArray l;
     formatArray_mem := formatArray_mem l; length_ := length_ l;
     text := text l; text_mem := text_mem l;
     formatLength := formatLength l; wrapped := Some w |}.

Lemma find_formatPos_with_wrapped l w index : forall fuel formatPos,
  find_formatPos fuel (with_wrapped l w) index formatPos
  = find_formatPos fuel l index formatPos.
Proof.
  induction fuel as [|fuel IH]; intros formatPos; [reflexivity|].
  cbn [find_formatPos with_wrapped formatLength formatArray_mem].
  destruct (formatPos + 1 <? formatLength l); [|reflexivity].
  destruct (read (formatArray_mem l) (formatPos + 1)) as [e|];
    cbn [mbind option_bind]; [|reflexivity].
  destruct (index >=? startPos e); [apply IH|reflexivity].
Qed.

Lemma getCharacter_with_wrapped l w index :
  getCharacter (with_wrapped l w) index = getCharacter l index.
Proof.
  unfold getCharacter. rewrite find_formatPos_with_wrapped. reflexivity.
Qed.

Lemma getCharacters_with_wrapped l w array size startColumn :
  getCharacters (with_wrapped l w) array size startColumn
  = getCharacters l array size startColumn.
Proof.
  unfold getCharacters.
  assert (H : forall n i, getCharacters_loop (with_wrapped l w) n i
                          = getCharacters_loop l n i).
  { induction n as [|n IH]; intros i; [reflexivity|].
    cbn [getCharacters_loop]. rewrite getCharacter_with_wrapped.
    destruct (getCharacter l i); cbn [mbind option_bind]; [|reflexivity].
    rewrite IH. reflexivity. }
  rewrite H. reflexivity.
Qed.

(** The cells a line reads back in full. *)
Definition line_cells (l : CompactHistoryLine) : option (list Character) :=
  getCharacters l [] (length_ l) 0.

Lemma line_cells_with_wrapped l w : line_cells (with_wrapped l w) = line_cells l.
Proof. unfold line_cells. apply getCharacters_with_wrapped. Qed.

(** X5: the history is append-only with eviction from the front.  Whatever
    operation a scroll performs, the lines it holds afterwards read back as
    the lines it held before with some oldest ones dropped, followed by at
    most one new line: no committed line is edited or reordered. *)
Theorem committed_lines_are_kept m ops s op s' :
  run_new m ops = Some s ->
  step s op = Some s' ->
  exists d new,
    map line_cells (lines s') = drop d (map line_cells (lines s)) ++ new
    /\ (d <= length (lines s))%nat /\ (length new <= 1)%nat.
Proof.
  intros Hrun. pose proof (run_new_inv _ _ _ Hrun) as Hinv.
  pose proof (sinv_max _ Hinv) as Hmax.
  destruct op as [a count|w|n]; simpl.
  - intros H. apply addCells_Some in H as [_ H].
    pose proof (addCellsVector_Some_fits _ _ _ Hinv H) as Hfit.
    destruct (addCellsVector_inv s _ Hinv Hfit) as (s1 & l & H1 & _ & _ & _ & Hlines & _).
    assert (s1 = s') as -> by congruence. rewrite Hlines, map_app.
    destruct (Z.gtb_spec (Z.of_nat (length (lines s))) (CInt.to_int (_maxLineCount s))).
    + exists 1%nat, [line_cells l]. rewrite <- skipn_map. split; [reflexivity|].
      split; [lia|simpl; lia].
    + exists 0%nat, [line_cells l]. split; [reflexivity|]. split; [lia|simpl; lia].
  - unfold addLine.
    destruct (lines s !! (length (lines s) - 1)%nat) as [line|] eqn:E;
      cbn [mbind option_bind]; [|discriminate].
    intros [= <-]. exists 0%nat, []. cbn [lines]. rewrite app_nil_r, drop_0.
    split; [|split; [lia|simpl; lia]].
    change (map line_cells ?l) with (line_cells <$> l).
    rewrite list_fmap_insert.
    change {| this := this line; formatArray := formatArray line;
              formatArray_mem := formatArray_mem line; length_ := length_ line;
              text := text line; text_mem := text_mem line;
              formatLength := formatLength line; wrapped := Some w |}
      with (with_wrapped line w).
    rewrite line_cells_with_wrapped. apply list_insert_id.
    rewrite list_lookup_fmap, E. reflexivity.
  - intros H.
    assert (0 <= CInt.to_int n) as Hn.
    { unfold setMaxNbLines in H.
      destruct (evict n (lines s) (blockList s)) as [[ls bl]|] eqn:E; [|discriminate].
      exact (evict_Some _ _ _ _ _ E). }
    destruct (setMaxNbLines_inv s n Hinv Hn) as (s1 & H1 & _ & Hl & _).
    assert (s1 = s') as -> by congruence.
    exists (length (lines s) - Z.to_nat (CInt.to_int n))%nat, [].
    rewrite Hl, app_nil_r, <- skipn_map. split; [reflexivity|]. split; [lia|simpl; lia].
Qed.

(** *** The scroll holds the newest writes *)

(** One committed line: the cells, then the wrap flag of [addLine]. *)
Definition commit (w : list Character * bool) : list Op :=
  [AddCells (fst w) (Z.of_nat (length (fst w))); AddLine (snd w)].

Definition commits (ws : list (list Character * bool)) : list Op :=
  concat (map commit ws).

(** The line [l] holds the committed write [w]. *)
Definition stores (l : CompactHistoryLine) (w : list Character * bool) : Prop :=
  encodes l (fst w) /\ wrapped l = Some (snd w).

Lemma run_app ops1 : forall s ops2,
  run s (ops1 ++ ops2) = s' ← run s ops1; run s' ops2.
Proof.
  induction ops1 as [|op ops1 IH]; intros s ops2; simpl; [reflexivity|].
  destruct (step s op) as [s1|]; simpl; [apply IH|reflexivity].
Qed.

Lemma commit_stores s hist w :
  store_inv s -> Forall2 stores (lines s) hist -> fits (fst w) = true ->
  exists s', run s (commit w) = Some s' /\ store_inv s'
    /\ _maxLineCount s' = _maxLineCount s
    /\ Forall2 stores (lines s')
         ((if Z.of_nat (length hist) >? CInt.to_int (_maxLineCount s)
           then drop 1 hist else hist) ++ [w]).
Proof.
  intros Hinv Hst Hfit. destruct w as [cells b]. cbn [fst snd] in *.
  destruct (addCellsVector_inv s cells Hinv Hfit)
    as (s1 & l & Hadd & Hinv1 & Henc & _ & Hlines & Hmax).
  assert (Hne : lines s1 <> []).
  { rewrite Hlines. intros H. apply app_eq_nil in H as [_ H]. discriminate. }
  destruct (addLine_inv s1 b Hinv1 Hne) as (s' & Hal & Hinv' & _ & Hmax').
  exists s'. split; [|split; [exact Hinv'|split; [congruence|]]].
  - unfold commit. cbn [run step fst snd]. unfold addCells.
    destruct (Z.ltb_spec (Z.of_nat (length cells)) 0); [lia|].
    destruct (Z.ltb_spec (Z.of_nat (length cells)) (Z.of_nat (length cells))); [lia|].
    cbn [orb]. rewrite Nat2Z.id, firstn_all, Hadd. cbn [mbind option_bind].
    rewrite Hal. reflexivity.
  - unfold addLine in Hal. rewrite Hlines in Hal.
    set (pre := if Z.of_nat (length (lines s)) >? CInt.to_int (_maxLineCount s)
                then drop 1 (lines s) else lines s) in *.
    rewrite length_app in Hal. cbn [length] in Hal.
    replace (length pre + 1 - 1)%nat with (length pre + 0)%nat in Hal by lia.
    rewrite lookup_app_r in Hal by lia.
    replace (length pre + 0 - length pre)%nat with 0%nat in Hal by lia.
    cbn [lookup list_lookup mbind option_bind] in Hal.
    rewrite insert_app_r in Hal. cbn [insert list_insert] in Hal.
    injection Hal as <-. cbn [lines].
    apply Forall2_app.
    + unfold pre. rewrite <- (Forall2_length Hst).
      destruct (Z.of_nat (length (lines s)) >? CInt.to_int (_maxLineCount s));
        [apply Forall2_drop|]; exact Hst.
    + constructor; [|constructor]. split; [exact Henc|reflexivity].
Qed.

Lemma commits_stores M : forall ws s hist,
  store_inv s -> Forall2 stores (lines s) hist ->
  M = S (Z.to_nat (CInt.to_int (_maxLineCount s))) ->
  (length hist <= M)%nat ->
  Forall (fun w => fits (fst w) = true) ws ->
  exists s', run s (commits ws) = Some s' /\ store_inv s'
    /\ _maxLineCount s' = _maxLineCount s
    /\ Forall2 stores (lines s') (drop (length (hist ++ ws) - M) (hist ++ ws)).
Proof.
  induction ws as [|w ws IH]; intros s hist Hinv Hst HM Hlen Hfit.
  - exists s. cbn [commits map concat run]. rewrite app_nil_r.
    replace (length hist - M)%nat with 0%nat by lia.
    rewrite drop_0. auto.
  - inversion Hfit as [|? ? Hw Hws]; subst x l.
    destruct (commit_stores s hist w Hinv Hst Hw) as (s1 & Hrun1 & Hinv1 & Hmax1 & Hst1).
    pose proof (sinv_max _ Hinv) as Hpos.
    set (hist1 := (if Z.of_nat (length hist) >? CInt.to_int (_maxLineCount s)
                   then drop 1 hist else hist) ++ [w]) in *.
    assert (Hh1 : hist1 = drop (length hist + 1 - M) (hist ++ [w])
                  /\ (length hist1 <= M)%nat).
    { unfold hist1.
      destruct (Z.gtb_spec (Z.of_nat (length hist)) (CInt.to_int (_maxLineCount s))).
      - assert (length hist = M) as Hm by lia.
        replace (length hist + 1 - M)%nat with 1%nat by lia.
        rewrite length_app, length_drop. cbn [length].
        destruct hist as [|h hist]; [simpl in Hm; lia|].
        split; [reflexivity|simpl in *; lia].
      - replace (length hist + 1 - M)%nat with 0%nat by lia.
        rewrite drop_0, length_app. cbn [length]. split; [reflexivity|lia]. }
    destruct Hh1 as [Hh1 Hlen1].
    destruct (IH s1 hist1 Hinv1 Hst1 ltac:(congruence) Hlen1 Hws)
      as (s' & Hrun & Hinv' & Hmax' & Hst').
    exists s'. split; [|split; [exact Hinv'|split; [congruence|]]].
    + change (commits (w :: ws)) with (commit w ++ commits ws).
      rewrite run_app, Hrun1. exact Hrun.
    + replace (drop (length (hist ++ w :: ws) - M) (hist ++ w :: ws))
        with (drop (length (hist1 ++ ws) - M) (hist1 ++ ws)); [exact Hst'|].
      rewrite Hh1.
      assert (Hd : drop (length hist + 1 - M) (hist ++ [w]) ++ ws
                   = drop (length hist + 1 - M) (hist ++ w :: ws)).
      { rewrite (cons_middle w hist ws), app_assoc.
        rewrite (drop_app_le (hist ++ [w])); [reflexivity|].
        rewrite length_app. simpl. lia. }
      rewrite Hd, drop_drop, length_drop. f_equal.
      rewrite !length_app. cbn [length]. lia.
Qed.

(** What a line that holds the write [w] answers to reads. *)
Lemma stores_reads s kept i w buffer :
  Forall2 stores (lines s) kept ->
  kept !! i = Some w ->
  forallb wf_Character (fst w) = true ->
  Z.of_nat (length (fst w)) <= CInt.int_max ->
  getLineLen s (Z.of_nat i) = Some (Z.of_nat (length (fst w)))
  /\ isWrappedLine s (Z.of_nat i) = Some (snd w)
  /\ forall col n, (0 < n)%nat -> (col + n <= length (fst w))%nat ->
       getCells s (Z.of_nat i) (Z.of_nat col) (Z.of_nat n) buffer
       = Some (take n (drop col (fst w)) ++ drop n buffer).
Proof.
  intros Hst Hi Hwf Hint.
  destruct (Forall2_lookup_r _ _ _ _ _ Hst Hi) as (l & Hl & Henc & Hwr).
  assert (Hat : line_at s (Z.of_nat i) = Some l).
  { unfold line_at. destruct (Z.ltb_spec (Z.of_nat i) 0); [lia|].
    rewrite Nat2Z.id. exact Hl. }
  pose proof Henc as (Hlen & _).
  split; [unfold getLineLen; rewrite Hat; cbn [mbind option_bind]; congruence|].
  split; [unfold isWrappedLine; rewrite Hat; exact Hwr|].
  intros col n Hn Hcol. unfold getCells.
  destruct (Z.eqb_spec (Z.of_nat n) 0); [lia|].
  rewrite Hat. cbn [mbind option_bind].
  destruct (Z.leb_spec 0 (Z.of_nat col)); [|lia]. cbn [negb].
  assert (Hu : forall x, 0 <= x <= CInt.int_max -> CInt.to_uint x = x).
  { intros x Hx. unfold CInt.to_uint. apply Z.mod_small.
    unfold CInt.int_max in Hx. lia. }
  rewrite Hlen, !Hu by lia.
  destruct (Z.leb_spec (Z.of_nat col) (Z.of_nat (length (fst w)) - Z.of_nat n)); [|lia].
  cbn [negb]. unfold getCharacters.
  destruct (Z.leb_spec 0 (Z.of_nat n)); [|lia]. cbn [andb negb].
  rewrite Hlen, !CInt.to_int_id by (unfold CInt.in_int, CInt.int_min; lia).
  destruct (Z.leb_spec (Z.of_nat col + Z.of_nat n) (Z.of_nat (length (fst w)))); [|lia].
  cbn [negb]. rewrite Nat2Z.id.
  rewrite (getCharacters_loop_encodes l (fst w) Henc (forallb_wf_Forall _ Hwf) n col Hcol).
  destruct (Z.leb_spec 0 (Z.of_nat col)); [|lia]. reflexivity.
Qed.

(** The lines a fresh scroll of capacity [m] holds after the writes [ws]. *)
Lemma run_new_commits_stores m ws :
  0 <= CInt.to_int m ->
  Forall (fun w : list Character * bool => fits (fst w) = true) ws ->
  exists s, run_new m (commits ws) = Some s
    /\ store_inv s
    /\ Forall2 stores (lines s) (drop (length ws - S (Z.to_nat (CInt.to_int m))) ws).
Proof.
  intros Hm Hfit.
  destruct (CompactHistoryScroll_new_inv m Hm) as (s0 & Hnew & Hinv0 & Hl0 & Hm0).
  assert (Hst0 : Forall2 stores (lines s0) []) by (rewrite Hl0; constructor).
  destruct (commits_stores (S (Z.to_nat (CInt.to_int m))) ws s0 [] Hinv0 Hst0
              ltac:(rewrite Hm0; reflexivity) ltac:(simpl; lia) Hfit)
    as (s & Hrun & Hinv & _ & Hst).
  cbn [app] in Hst.
  exists s. split; [unfold run_new; rewrite Hnew; exact Hrun|]. split; assumption.
Qed.

(** X6: the scroll is a bounded FIFO of lines.  After any sequence of
    committed lines (cells, then [addLine] with the wrap flag) written to a
    fresh scroll of capacity [m], every write succeeds, the scroll holds the
    newest [min k (m + 1)] of them in order, and each held line reports the
    length and wrap flag it was written with and reads back, over any column
    range inside it, exactly the cells that were written. *)
Theorem history_holds_newest_writes m ws buffer :
  0 <= CInt.to_int m ->
  Forall (fun w => fits (fst w) = true /\ forallb wf_Character (fst w) = true
                   /\ Z.of_nat (length (fst w)) <= CInt.int_max) ws ->
  exists s, run_new m (commits ws) = Some s
    /\ let kept := drop (length ws - S (Z.to_nat (CInt.to_int m))) ws in
       getLines s = Z.of_nat (length kept)
       /\ forall i w, kept !! i = Some w ->
            getLineLen s (Z.of_nat i) = Some (Z.of_nat (length (fst w)))
            /\ isWrappedLine s (Z.of_nat i) = Some (snd w)
            /\ forall col n, (0 < n)%nat -> (col + n <= length (fst w))%nat ->
                 getCells s (Z.of_nat i) (Z.of_nat col) (Z.of_nat n) buffer
                 = Some (take n (drop col (fst w)) ++ drop n buffer).
Proof.
  intros Hm Hws.
  assert (Hfit : Forall (fun w : list Character * bool => fits (fst w) = true) ws).
  { eapply Forall_impl; [|exact Hws]. intros w (H & _). exact H. }
  destruct (run_new_commits_stores m ws Hm Hfit) as (s & Hrun & _ & Hst).
  exists s. split; [exact Hrun|].
  cbn zeta. split; [unfold getLines; rewrite (Forall2_length Hst); reflexivity|].
  intros i w Hi.
  assert (Hw : fits (fst w) = true /\ forallb wf_Character (fst w) = true
               /\ Z.of_nat (length (fst w)) <= CInt.int_max).
  { rewrite lookup_drop in Hi. exact (Forall_lookup_1 _ _ _ _ Hws Hi). }
  destruct Hw as (_ & Hwf & Hint).
  exact (stores_reads s _ i w buffer Hst Hi Hwf Hint).
Qed.

(** X7: [addLine] stamps the wrap flag on the newest line and touches
    nothing else: no slab is allocated or released, the number of lines and
    every line's length and cells stay as they were, and every other line
    keeps its wrap flag. *)
Theorem addLine_stamps_newest_line s w :
  lines s <> [] ->
  exists s', addLine s w = Some s'
    /\ getLines s' = getLines s
    /\ blockList s' = blockList s
    /\ _maxLineCount s' = _maxLineCount s
    /\ isWrappedLine s' (getLines s - 1) = Some w
    /\ forall i,
         getLineLen s' i = getLineLen s i
         /\ (i <> getLines s - 1 -> isWrappedLine s' i = isWrappedLine s i)
         /\ forall col n buf, getCells s' i col n buf = getCells s i col n buf.
Proof.
  intros Hne. unfold addLine.
  assert (Hk : (length (lines s) - 1 < length (lines s))%nat).
  { destruct (lines s); [congruence|simpl; lia]. }
  destruct (lookup_lt_is_Some_2 _ _ Hk) as [line Hline].
  rewrite Hline. cbn [mbind option_bind].
  change {| this := this line; formatArray := formatArray line;
            formatArray_mem := formatArray_mem line; length_ := length_ line;
            text := text line; text_mem := text_mem line;
            formatLength := formatLength line; wrapped := Some w |}
    with (with_wrapped line w).
  eexists. split; [reflexivity|].
  assert (Hat : forall i,
    line_at {| lines := <[(length (lines s) - 1)%nat := with_wrapped line w]> (lines s);
               blockList := blockList s; _maxLineCount := _maxLineCount s |} i
    = if i =? getLines s - 1 then Some (with_wrapped line w) else line_at s i).
  { intros i. unfold line_at, getLines. cbn [lines].
    destruct (Z.eqb_spec i (Z.of_nat (length (lines s)) - 1)) as [->|Hi].
    - destruct (Z.ltb_spec (Z.of_nat (length (lines s)) - 1) 0); [lia|].
      replace (Z.to_nat (Z.of_nat (length (lines s)) - 1))
        with (length (lines s) - 1)%nat by lia.
      apply list_lookup_insert_eq. exact Hk.
    - destruct (Z.ltb_spec i 0); [reflexivity|].
      apply list_lookup_insert_ne. lia. }
  repeat split.
  - unfold getLines. cbn [lines]. rewrite length_insert. reflexivity.
  - unfold isWrappedLine. rewrite Hat, Z.eqb_refl. reflexivity.
  - unfold getLineLen. rewrite Hat.
    destruct (Z.eqb_spec i (getLines s - 1)) as [->|Hi]; [|reflexivity].
    unfold line_at, getLines.
    destruct (Z.ltb_spec (Z.of_nat (length (lines s)) - 1) 0); [lia|].
    replace (Z.to_nat (Z.of_nat (length (lines s)) - 1))
      with (length (lines s) - 1)%nat by lia.
    rewrite Hline. reflexivity.
  - intros Hi. unfold isWrappedLine. rewrite Hat.
    destruct (Z.eqb_spec i (getLines s - 1)); [contradiction|reflexivity].
  - intros col n buf. unfold getCells. rewrite Hat.
    destruct (Z.eqb_spec i (getLines s - 1)) as [->|Hi]; [|reflexivity].
    unfold line_at, getLines.
    destruct (Z.ltb_spec (Z.of_nat (length (lines s)) - 1) 0); [lia|].
    replace (Z.to_nat (Z.of_nat (length (lines s)) - 1))
      with (length (lines s) - 1)%nat by lia.
    rewrite Hline. cbn [mbind option_bind with_wrapped length_].
    destruct (n =? 0); [reflexivity|].
    destruct (negb (0 <=? col)); [reflexivity|].
    destruct (negb (CInt.to_uint col <=? CInt.to_uint (length_ line - n))); [reflexivity|].
    apply getCharacters_with_wrapped.
Qed.

(** *** Live allocations never alias *)

(** Every live pointer lies in the used part of a slab, and no pointer is
    live twice. *)
Definition ptrs_ok (bl : CompactHistoryBlockList) (live : list Z) : Prop :=
  bl_inv bl live
  /\ NoDup live
  /\ forall p, p ∈ live ->
       exists i b, blocks bl !! i = Some b /\ blockStart b <= p < tail b.

Lemma ptrs_ok_perm bl l1 l2 : l1 ≡ₚ l2 -> ptrs_ok bl l1 -> ptrs_ok bl l2.
Proof.
  intros Hp (Hinv & Hnd & Hin). split; [exact (bl_inv_perm _ _ _ Hp Hinv)|].
  split; [rewrite <- Hp; exact Hnd|].
  intros p Hp'. apply Hin. rewrite Hp. exact Hp'.
Qed.

Lemma Block_allocate_Some b size p b' :
  Block_allocate b size = Some (p, b') ->
  p = tail b /\ blockStart b' = blockStart b /\ tail b' = tail b + size
  /\ tail b - blockStart b + size <= blockLength.
Proof.
  unfold Block_allocate.
  destruct (Z.gtb_spec (tail b - blockStart b + size) blockLength); [discriminate|].
  intros [= <- <-]. cbn [blockStart tail]. auto.
Qed.

Lemma find_block_Some p l : forall i0 k,
  find_block p l i0 = Some k ->
  exists j b, k = (i0 + j)%nat /\ l !! j = Some b /\ contains b p = true.
Proof.
  induction l as [|b l IH]; intros i0 k; cbn [find_block]; [discriminate|].
  destruct (contains b p) eqn:E.
  - intros [= <-]. exists 0%nat, b. split; [lia|]. split; [reflexivity|exact E].
  - intros H. destruct (IH _ _ H) as (j & c & -> & Hj & Hc).
    exists (S j), c. split; [lia|]. split; [exact Hj|exact Hc].
Qed.

Lemma allocate_ptrs bl live size p bl' :
  ptrs_ok bl live -> 0 < size ->
  BlockList_allocate bl size = Some (p, bl') ->
  ptrs_ok bl' (p :: live).
Proof.
  intros (Hinv & Hnd & Hin) Hsize Halloc.
  assert (Hfresh :
    ('(p, b') ← Block_allocate {| blockStart := mmap_next bl; tail := mmap_next bl;
                                  allocCount := 0 |} size;
     Some (p, {| blocks := blocks bl ++ [b'];
                 mmap_next := mmap_next bl + blockLength |})) = Some (p, bl') ->
    size <= blockLength
    /\ (forall q, q ∈ live -> q <> p)
    /\ forall q, q ∈ p :: live ->
         exists i b, blocks bl' !! i = Some b /\ blockStart b <= q < tail b).
  { destruct (Block_allocate _ size) as [[q b']|] eqn:E; cbn [mbind option_bind];
      [|discriminate].
    apply Block_allocate_Some in E as (-> & Hs & Ht & Hle). cbn [blockStart tail] in *.
    intros [= <- <-]. cbn [blocks]. split; [lia|].
    assert (Hold : forall q, q ∈ live -> q < mmap_next bl).
    { intros q Hq. destruct (Hin q Hq) as (i & b & Hb & Hr).
      pose proof (inv_bounds _ _ Hinv i b Hb). lia. }
    split; [intros q Hq; specialize (Hold q Hq); lia|].
    intros q Hq. apply elem_of_cons in Hq as [->|Hq].
    - exists (length (blocks bl)), b'. split; [|lia].
      rewrite lookup_app_r by lia. rewrite Nat.sub_diag. reflexivity.
    - destruct (Hin q Hq) as (i & b & Hb & Hr). exists i, b. split; [|exact Hr].
      rewrite lookup_app_l by (eapply lookup_lt_Some; exact Hb). exact Hb. }
  assert (Hgoal :
    size <= blockLength
    /\ (forall q, q ∈ live -> q <> p)
    /\ forall q, q ∈ p :: live ->
         exists i b, blocks bl' !! i = Some b /\ blockStart b <= q < tail b).
  { unfold BlockList_allocate in Halloc.
    destruct (last_block (blocks bl)) as [lastb|] eqn:Hlast; [|exact (Hfresh Halloc)].
    destruct (remaining lastb <? size); [exact (Hfresh Halloc)|].
    destruct (Block_allocate lastb size) as [[q b']|] eqn:E;
      cbn [mbind option_bind] in Halloc; [|discriminate].
    apply Block_allocate_Some in E as (-> & Hs & Ht & Hle).
    injection Halloc as <- <-. cbn [blocks].
    unfold last_block in Hlast.
    set (k := (length (blocks bl) - 1)%nat) in *.
    pose proof (inv_bounds _ _ Hinv k lastb Hlast) as Hbk.
    pose proof (lookup_lt_Some _ _ _ Hlast) as Hk.
    split; [lia|]. split.
    - intros q Hq. destruct (Hin q Hq) as (i & b & Hb & Hr).
      destruct (decide (i = k)) as [->|Hne].
      + assert (b = lastb) as -> by congruence. lia.
      + pose proof (inv_bounds _ _ Hinv i b Hb).
        pose proof (inv_disjoint _ _ Hinv i k b lastb Hb Hlast Hne). lia.
    - intros q Hq. apply elem_of_cons in Hq as [->|Hq].
      + exists k, b'. split; [apply list_lookup_insert_eq; exact Hk|lia].
      + destruct (Hin q Hq) as (i & b & Hb & Hr).
        destruct (decide (i = k)) as [->|Hne].
        * assert (b = lastb) as -> by congruence.
          exists k, b'. split; [apply list_lookup_insert_eq; exact Hk|lia].
        * exists i, b. split; [|exact Hr].
          rewrite list_lookup_insert_ne by congruence. exact Hb. }
  destruct Hgoal as (Hle & Hnew & Hcover).
  destruct (allocate_inv bl live size Hinv ltac:(lia)) as (p' & bl'' & Ha & Hinv').
  assert (p' = p /\ bl'' = bl') as [-> ->] by (split; congruence).
  split; [exact Hinv'|]. split; [|exact Hcover].
  apply list.NoDup_cons. split; [|exact Hnd].
  intros Hp. exact (Hnew p Hp eq_refl).
Qed.

Lemma deallocate_ptrs bl live p bl' :
  ptrs_ok bl (p :: live) ->
  BlockList_deallocate bl p = Some bl' ->
  ptrs_ok bl' live.
Proof.
  intros (Hinv & Hnd & Hin) Hd.
  destruct (deallocate_inv bl live p Hinv) as (bl'' & Hd' & Hinv').
  assert (bl'' = bl') as -> by congruence.
  split; [exact Hinv'|]. apply list.NoDup_cons in Hnd as [_ Hnd]. split; [exact Hnd|].
  intros q Hq.
  destruct (Hin q ltac:(right; exact Hq)) as (i & b & Hb & Hr).
  unfold BlockList_deallocate in Hd.
  destruct (find_block p (blocks bl) 0) as [i0|] eqn:Hf; cbn [mbind option_bind] in Hd;
    [|discriminate].
  destruct (find_block_Some _ _ _ _ Hf) as (j & b0 & -> & Hb0 & Hc0).
  cbn [Nat.add] in Hd. rewrite Hb0 in Hd. cbn [mbind option_bind] in Hd.
  destruct (isInUse (Block_deallocate b0)) eqn:Euse; injection Hd as <-; cbn [blocks].
  - destruct (decide (i = j)) as [->|Hne].
    + assert (b = b0) as -> by congruence.
      exists j, (Block_deallocate b0). split; [|exact Hr].
      apply list_lookup_insert_eq. eapply lookup_lt_Some. exact Hb0.
    + exists i, b. split; [|exact Hr].
      rewrite list_lookup_insert_ne by congruence. exact Hb.
  - assert (Hne : i <> j).
    { intros ->. assert (b = b0) as -> by congruence.
      pose proof (inv_bounds _ _ Hinv j b0 Hb0) as Hbd.
      assert (Hcq : contains b0 q = true).
      { unfold contains. apply andb_true_iff. split; [apply Z.leb_le|apply Z.ltb_lt]; lia. }
      pose proof (inv_count _ _ Hinv j b0 Hb0) as Hcnt. cbn [count_in] in Hcnt.
      rewrite Hc0 in Hcnt.
      pose proof (count_in_pos b0 live q Hq Hcq).
      unfold isInUse, Block_deallocate in Euse. cbn [allocCount] in Euse.
      apply negb_false_iff, Z.eqb_eq in Euse. lia. }
    destruct (decide (i < j)%nat).
    + exists i, b. split; [|exact Hr]. rewrite list_lookup_delete_lt by lia. exact Hb.
    + exists (i - 1)%nat, b. split; [|exact Hr].
      rewrite list_lookup_delete_ge by lia.
      replace (S (i - 1)) with i by lia. exact Hb.
Qed.

Lemma line_new_ptrs line bl live l bl' :
  ptrs_ok bl live ->
  CompactHistoryLine_new line bl = Some (l, bl') ->
  ptrs_ok bl' (line_ptrs l ++ live).
Proof.
  intros Hok. unfold CompactHistoryLine_new.
  destruct (BlockList_allocate bl sizeof_CompactHistoryLine) as [[self bl0]|] eqn:E0;
    cbn [mbind option_bind]; [|discriminate].
  assert (Hs0 : 0 < sizeof_CompactHistoryLine) by lia.
  pose proof (allocate_ptrs _ _ _ _ _ Hok Hs0 E0) as H0.
  destruct line as [|c0 rest]; [intros [= <- <-]; exact H0|].
  destruct (BlockList_allocate bl0 _) as [[fa bl1]|] eqn:E1;
    cbn [mbind option_bind]; [|discriminate].
  pose proof (count_formats_pos c0 rest) as Hfl.
  assert (Hs1 : 0 < sizeof_CharacterFormat * count_formats c0 rest 1) by nia.
  pose proof (allocate_ptrs _ _ _ _ _ H0 Hs1 E1) as H1.
  destruct (BlockList_allocate bl1 _) as [[tx bl2]|] eqn:E2;
    cbn [mbind option_bind]; [|discriminate].
  assert (Hs2 : 0 < 2 * Z.of_nat (length (c0 :: rest))) by (simpl length; lia).
  pose proof (allocate_ptrs _ _ _ _ _ H1 Hs2 E2) as H2.
  intros [= <- <-]. exact H2.
Qed.

Lemma line_delete_ptrs l bl live bl' :
  line_wf l -> ptrs_ok bl (line_ptrs l ++ live) ->
  CompactHistoryLine_delete l bl = Some bl' ->
  ptrs_ok bl' live.
Proof.
  unfold line_wf, line_ptrs, CompactHistoryLine_delete. intros Hwf Hok.
  destruct (length_ l >? 0).
  - destruct Hwf as [[tx Htx] [fa Hfa]]. rewrite Htx, Hfa in *.
    cbn [mbind option_bind app] in *.
    destruct (BlockList_deallocate bl tx) as [bl1|] eqn:E1;
      cbn [mbind option_bind]; [|discriminate].
    pose proof (deallocate_ptrs _ _ _ _ Hok E1) as H1.
    destruct (BlockList_deallocate bl1 fa) as [bl2|] eqn:E2;
      cbn [mbind option_bind]; [|discriminate].
    pose proof (deallocate_ptrs _ _ _ _ H1 E2) as H2.
    intros E3. exact (deallocate_ptrs _ _ _ _ H2 E3).
  - destruct Hwf as [Ht Hf]. rewrite Ht in Hok. cbn [mbind option_bind app] in *.
    intros E. exact (deallocate_ptrs _ _ _ _ Hok E).
Qed.

Lemma evict_ptrs lineCount : forall ls bl ls' bl',
  Forall line_wf ls -> ptrs_ok bl (owned ls) ->
  evict lineCount ls bl = Some (ls', bl') ->
  ptrs_ok bl' (owned ls').
Proof.
  induction ls as [|l ls IH]; intros bl ls' bl' Hwf Hok; cbn [evict].
  - destruct (0 >? CInt.to_int lineCount); [discriminate|]. intros [= <- <-]. exact Hok.
  - destruct (_ >? CInt.to_int lineCount).
    + destruct (CompactHistoryLine_delete l bl) as [bl1|] eqn:E;
        cbn [mbind option_bind]; [|discriminate].
      apply IH; [exact (Forall_inv_tail Hwf)|].
      exact (line_delete_ptrs l bl (owned ls) bl1 (Forall_inv Hwf) Hok E).
    + intros [= <- <-]. exact Hok.
Qed.

Lemma step_ptrs s op s' :
  store_inv s -> ptrs_ok (blockList s) (owned (lines s)) ->
  step s op = Some s' ->
  ptrs_ok (blockList s') (owned (lines s')).
Proof.
  intros Hinv Hok. pose proof (sinv_lines _ Hinv) as Hwf.
  destruct op as [a count|w|n]; cbn [step].
  - intros H. apply addCells_Some in H as [_ H]. revert H. unfold addCellsVector.
    destruct (CompactHistoryLine_new _ _) as [[l bl]|] eqn:E;
      cbn [mbind option_bind]; [|discriminate].
    pose proof (line_new_ptrs _ _ _ _ _ Hok E) as H1.
    destruct (_ >? _).
    + destruct (lines s) as [|old ls] eqn:Els; [discriminate|].
      destruct (CompactHistoryLine_delete old bl) as [bl1|] eqn:E1;
        cbn [mbind option_bind]; [|discriminate].
      intros [= <-]. cbn [blockList lines].
      assert (Hperm : line_ptrs l ++ owned (old :: ls)
                      ≡ₚ line_ptrs old ++ owned (ls ++ [l])).
      { unfold owned. rewrite map_app, concat_app. simpl. rewrite app_nil_r.
        rewrite (Permutation_app_comm (line_ptrs l)). rewrite <- app_assoc. reflexivity. }
      exact (line_delete_ptrs old bl _ bl1 (Forall_inv Hwf)
               (ptrs_ok_perm _ _ _ Hperm H1) E1).
    + intros [= <-]. cbn [blockList lines].
      apply (ptrs_ok_perm _ (line_ptrs l ++ owned (lines s))); [|exact H1].
      unfold owned. rewrite map_app, concat_app. simpl. rewrite app_nil_r.
      apply Permutation_app_comm.
  - unfold addLine.
    destruct (lines s !! _) as [line|] eqn:El; cbn [mbind option_bind]; [|discriminate].
    intros [= <-]. cbn [blockList lines].
    replace (owned (<[(length (lines s) - 1)%nat := _]> (lines s))) with (owned (lines s));
      [exact Hok|].
    unfold owned. f_equal. change (map line_ptrs ?x) with (line_ptrs <$> x).
    rewrite list_fmap_insert. symmetry. apply list_insert_id.
    rewrite list_lookup_fmap, El. reflexivity.
  - unfold setMaxNbLines.
    destruct (evict n (lines s) (blockList s)) as [[ls bl]|] eqn:E;
      cbn [mbind option_bind]; [|discriminate].
    intros [= <-]. exact (evict_ptrs _ _ _ _ _ Hwf Hok E).
Qed.

Lemma run_ptrs ops : forall s s',
  store_inv s -> ptrs_ok (blockList s) (owned (lines s)) ->
  run s ops = Some s' ->
  ptrs_ok (blockList s') (owned (lines s')).
Proof.
  induction ops as [|op ops IH]; intros s s' Hinv Hok; cbn [run].
  - intros [= <-]. exact Hok.
  - destruct (step s op) as [s1|] eqn:E; cbn [mbind option_bind]; [|discriminate].
    apply IH; [exact (step_inv _ _ _ Hinv E)|exact (step_ptrs _ _ _ Hinv Hok E)].
Qed.

(** X8: live allocations never alias.  In every scroll reached from its
    constructor, the addresses of all lines' headers, format arrays and text
    arrays are pairwise different, and each lies in the used part of a slab
    the list still holds: no line points into memory that was given back. *)
Theorem live_allocations_are_distinct m ops s :
  run_new m ops = Some s ->
  NoDup (owned (lines s))
  /\ forall p, p ∈ owned (lines s) ->
       exists i b, blocks (blockList s) !! i = Some b
                   /\ blockStart b <= p < tail b
                   /\ tail b <= blockStart b + blockLength.
Proof.
  intros Hrun.
  assert (Hok : ptrs_ok (blockList s) (owned (lines s))).
  { unfold run_new in Hrun.
    destruct (CompactHistoryScroll_new m) as [s0|] eqn:E;
      cbn [mbind option_bind] in Hrun; [|discriminate].
    destruct (CompactHistoryScroll_new_Some _ _ E) as (Hinv0 & Hl0 & _).
    apply (run_ptrs ops s0 s Hinv0); [|exact Hrun].
    split; [exact (sinv_alloc _ Hinv0)|]. rewrite Hl0. split; [constructor|].
    intros p Hp. apply elem_of_nil in Hp. contradiction. }
  destruct Hok as (Hinv & Hnd & Hin). split; [exact Hnd|].
  intros p Hp. destruct (Hin p Hp) as (i & b & Hb & Hr).
  exists i, b. split; [exact Hb|].
  pose proof (inv_bounds _ _ Hinv i b Hb). split; [exact Hr|lia].
Qed.

End Allocator.

(** *** Concrete runs

    Values for the parameters of the allocator: slabs of 256 KiB, format runs
    of 12 bytes and line headers of 48 bytes. *)
Definition sample_blockLength : Z := 262144.
Definition sample_sizeof_CharacterFormat : Z := 12.
Definition sample_sizeof_CompactHistoryLine : Z := 48.

Definition sample_run_new : Z -> list Op -> option CompactHistoryScroll :=
  run_new sample_blockLength sample_sizeof_CharacterFormat
          sample_sizeof_CompactHistoryLine.

(** A cell showing the code point [ch] in the foreground colour [fg]. *)
Definition cell (ch fg : Z) : Character :=
  {| character := ch; rendition := 0; foregroundColor := fg; backgroundColor := 0 |}.

(** The lines "a", "b", "c", "d" of the eviction scenario. *)
Definition line_a : list Character := [cell 97 1].
Definition line_b : list Character := [cell 98 1].
Definition line_c : list Character := [cell 99 2].
Definition line_d : list Character := [cell 100 1].

Definition write (w : list Character) : list Op :=
  [AddCells w (Z.of_nat (length w)); AddLine false].

(** C1: capacity 3 and the four writes "a", "b", "c", "d".  The scroll ends
    up with four lines, "a" still among them, where the specification expects
    three lines "b", "c", "d": [addCellsVector] tests
    [lines.size() > _maxLineCount] before it appends the new line, so the
    first eviction happens at the fifth write. *)
Theorem compact_capacity_3_holds_4_lines :
  exists s,
    sample_run_new 3 (write line_a ++ write line_b ++ write line_c ++ write line_d)
    = Some s
    /\ getLines s = 4
    /\ getCells s 0 0 1 [] = Some line_a
    /\ getCells s 1 0 1 [] = Some line_b
    /\ getCells s 2 0 1 [] = Some line_c
    /\ getCells s 3 0 1 [] = Some line_d.
Proof.
  eexists. split; [vm_compute; reflexivity|].
  repeat split; vm_compute; reflexivity.
Qed.

(** The same at every later write: the scroll stays at capacity plus one. *)
Example compact_capacity_3_fifth_write :
  exists s,
    sample_run_new 3 (write line_a ++ write line_b ++ write line_c ++ write line_d
                      ++ write line_a)
    = Some s
    /\ getLines s = 4
    /\ getCells s 0 0 1 [] = Some line_b.
Proof.
  eexists. split; [vm_compute; reflexivity|].
  split; vm_compute; reflexivity.
Qed.

(** C9, as stated, fails for an empty line: the constructor allocates the
    arrays only under [if (line.size() > 0)], so a scroll holding one empty
    line has a single live allocation, not three. *)
Lemma compact_empty_line_one_allocation :
  exists s,
    sample_run_new 3 [AddCells [] 0] = Some s
    /\ getLines s = 1
    /\ getLineLen s 0 = Some 0
    /\ live_allocations (blockList s) = 1
    /\ live_allocations (blockList s) <> 3.
Proof.
  eexists. split; [vm_compute; reflexivity|].
  repeat split; vm_compute; congruence.
Qed.

Lemma compact_line_allocations_witness :
  exists s,
    sample_run_new 1 (write line_a ++ write [] ++ write [cell 1 1; cell 2 2]) = Some s
    /\ live_allocations (blockList s) = 4.
Proof.
  eexists. split; [vm_compute; reflexivity|].
  refine (eq_trans (proj1 (compact_line_allocations sample_blockLength
            sample_sizeof_CharacterFormat sample_sizeof_CompactHistoryLine
            _ _ _ 1 (write line_a ++ write [] ++ write [cell 1 1; cell 2 2]) _ _)) _).
  - unfold sample_blockLength. lia.
  - unfold sample_sizeof_CompactHistoryLine, sample_blockLength. lia.
  - unfold sample_sizeof_CharacterFormat. lia.
  - vm_compute. reflexivity.
  - vm_compute. reflexivity.
Defined.

Lemma compact_getCells_roundtrip_witness :
  exists s,
    sample_run_new 2 (write line_a ++ write line_b ++ write line_c) = Some s
    /\ exists s',
         addCells sample_blockLength sample_sizeof_CharacterFormat
           sample_sizeof_CompactHistoryLine s
           [cell 120 1; cell 121 1; cell 122 2; cell 32 1; cell 0 0] 4 = Some s'
         /\ getCells s' (getLines s' - 1) 0 4 [cell 0 0]
            = Some (take (Z.to_nat 4) [cell 120 1; cell 121 1; cell 122 2; cell 32 1; cell 0 0]
                    ++ drop (Z.to_nat 4) [cell 0 0]).
Proof.
  eexists. split; [vm_compute; reflexivity|].
  apply (compact_getCells_roundtrip sample_blockLength
           sample_sizeof_CharacterFormat sample_sizeof_CompactHistoryLine
           ltac:(unfold sample_blockLength; lia)
           ltac:(unfold sample_sizeof_CompactHistoryLine, sample_blockLength; lia)
           ltac:(unfold sample_sizeof_CharacterFormat; lia)
           2 (write line_a ++ write line_b ++ write line_c)).
  - vm_compute. reflexivity.
  - simpl. lia.
  - unfold CInt.int_max. lia.
  - vm_compute. reflexivity.
  - vm_compute. reflexivity.
Defined.

(** *** Concrete instances of the further properties *)

Lemma sample_blockLength_pos : 0 < sample_blockLength.
Proof. unfold sample_blockLength. lia. Qed.

Lemma sample_sizeof_line_fits :
  0 < sample_sizeof_CompactHistoryLine <= sample_blockLength.
Proof. unfold sample_sizeof_CompactHistoryLine, sample_blockLength. lia. Qed.

Lemma sample_sizeof_format_pos : 0 < sample_sizeof_CharacterFormat.
Proof. unfold sample_sizeof_CharacterFormat. lia. Qed.

(** A line of three runs: "ab" in colour 1, "c" in colour 2, "d" in colour 1. *)
Definition line_abcd : list Character := [cell 97 1; cell 98 1; cell 99 2; cell 100 1].

Lemma format_runs_strictly_sorted_and_distinct_witness :
  exists l bl',
    CompactHistoryLine_new sample_blockLength sample_sizeof_CharacterFormat
      sample_sizeof_CompactHistoryLine line_abcd (BlockList_empty 4096) = Some (l, bl')
    /\ exists R,
         formatArray_mem l = map Some R
         /\ formatLength l = Z.of_nat (length R)
         /\ (1 <= length R <= length line_abcd)%nat
         /\ (exists e0, R !! 0%nat = Some e0 /\ startPos e0 = 0)
         /\ forall j e e', R !! j = Some e -> R !! S j = Some e' ->
              startPos e < startPos e' < Z.of_nat (length line_abcd)
              /\ (fmt_rendition e, fgColor e, bgColor e)
                 <> (fmt_rendition e', fgColor e', bgColor e').
Proof.
  eexists. eexists. split; [vm_compute; reflexivity|].
  eapply (format_runs_strictly_sorted_and_distinct sample_blockLength
            sample_sizeof_CharacterFormat sample_sizeof_CompactHistoryLine
            line_abcd (BlockList_empty 4096)).
  - vm_compute. reflexivity.
  - discriminate.
Defined.

Lemma slabs_released_when_empty_witness :
  exists s,
    sample_run_new 2 (write line_a ++ write line_abcd ++ [SetMaxNbLines 0]) = Some s
    /\ Forall (fun b => 0 < allocCount b) (blocks (blockList s))
    /\ (lines s = [] -> blocks (blockList s) = []).
Proof.
  eexists. split; [vm_compute; reflexivity|].
  eapply (slabs_released_when_empty sample_blockLength
            sample_sizeof_CharacterFormat sample_sizeof_CompactHistoryLine
            sample_blockLength_pos sample_sizeof_line_fits sample_sizeof_format_pos
            2 (write line_a ++ write line_abcd ++ [SetMaxNbLines 0])).
  vm_compute. reflexivity.
Defined.

Lemma getLines_at_most_capacity_plus_one_witness :
  exists s,
    sample_run_new 1 (write line_a ++ write line_b ++ write line_c) = Some s
    /\ 0 <= getLines s <= CInt.to_int (_maxLineCount s) + 1
    /\ 0 <= CInt.to_int (_maxLineCount s).
Proof.
  eexists. split; [vm_compute; reflexivity|].
  eapply (getLines_at_most_capacity_plus_one sample_blockLength
            sample_sizeof_CharacterFormat sample_sizeof_CompactHistoryLine
            sample_blockLength_pos sample_sizeof_line_fits sample_sizeof_format_pos
            1 (write line_a ++ write line_b ++ write line_c)).
  vm_compute. reflexivity.
Defined.

Lemma setMaxNbLines_keeps_newest_witness :
  exists s,
    sample_run_new 5 (write line_a ++ write line_b ++ write line_c) = Some s
    /\ (exists s', setMaxNbLines sample_blockLength s 2 = Some s'
          /\ getLines s' = Z.min (getLines s) (CInt.to_int 2)
          /\ lines s' = drop (Z.to_nat (getLines s - getLines s')) (lines s)
          /\ _maxLineCount s' = 2)
    /\ setMaxNbLines sample_blockLength s 4294967295 = None.
Proof.
  eexists. split; [vm_compute; reflexivity|]. split.
  - eapply (proj1 (setMaxNbLines_keeps_newest sample_blockLength
              sample_sizeof_CharacterFormat sample_sizeof_CompactHistoryLine
              sample_blockLength_pos sample_sizeof_line_fits sample_sizeof_format_pos
              5 (write line_a ++ write line_b ++ write line_c) _ 2 _)).
    vm_compute. discriminate.
  - eapply (proj2 (setMaxNbLines_keeps_newest sample_blockLength
              sample_sizeof_CharacterFormat sample_sizeof_CompactHistoryLine
              sample_blockLength_pos sample_sizeof_line_fits sample_sizeof_format_pos
              5 (write line_a ++ write line_b ++ write line_c) _ 4294967295 _)).
    vm_compute. reflexivity.
  Unshelve. all: vm_compute; reflexivity.
Defined.

Lemma committed_lines_are_kept_witness :
  exists s s',
    sample_run_new 1 (write line_a ++ write line_b) = Some s
    /\ step sample_blockLength sample_sizeof_CharacterFormat
         sample_sizeof_CompactHistoryLine s (AddCells line_abcd 3) = Some s'
    /\ exists d new,
         map line_cells (lines s') = drop d (map line_cells (lines s)) ++ new
         /\ (d <= length (lines s))%nat /\ (length new <= 1)%nat.
Proof.
  eexists. eexists. split; [vm_compute; reflexivity|].
  split; [vm_compute; reflexivity|].
  eapply (committed_lines_are_kept sample_blockLength
            sample_sizeof_CharacterFormat sample_sizeof_CompactHistoryLine
            sample_blockLength_pos sample_sizeof_line_fits sample_sizeof_format_pos
            1 (write line_a ++ write line_b) _ (AddCells line_abcd 3)).
  - vm_compute. reflexivity.
  - vm_compute. reflexivity.
Defined.

Lemma history_holds_newest_writes_witness :
  exists s,
    sample_run_new 1 (commits [(line_a, false); (line_abcd, true); ([], false)]) = Some s
    /\ getLines s = 2
    /\ getLineLen s 0 = Some 4
    /\ isWrappedLine s 0 = Some true
    /\ getCells s 0 1 2 [cell 0 0; cell 0 0; cell 32 0]
       = Some [cell 98 1; cell 99 2; cell 32 0].
Proof.
  destruct (history_holds_newest_writes sample_blockLength
              sample_sizeof_CharacterFormat sample_sizeof_CompactHistoryLine
              sample_blockLength_pos sample_sizeof_line_fits sample_sizeof_format_pos
              1 [(line_a, false); (line_abcd, true); ([], false)]
              [cell 0 0; cell 0 0; cell 32 0])
    as (s & Hrun & Hn & Hread).
  - vm_compute. discriminate.
  - repeat constructor; vm_compute; discriminate.
  - exists s. split; [exact Hrun|]. split; [exact Hn|].
    destruct (Hread 0%nat (line_abcd, true) eq_refl) as (Hlen & Hwr & Hcells).
    split; [exact Hlen|]. split; [exact Hwr|].
    exact (Hcells 1%nat 2%nat ltac:(lia) ltac:(simpl; lia)).
Defined.

Lemma addLine_stamps_newest_line_witness :
  exists s,
    sample_run_new 3 (write line_a ++ [AddCells line_b 1]) = Some s
    /\ exists s', addLine s true = Some s'
         /\ getLines s' = getLines s
         /\ blockList s' = blockList s
         /\ _maxLineCount s' = _maxLineCount s
         /\ isWrappedLine s' (getLines s - 1) = Some true
         /\ forall i,
              getLineLen s' i = getLineLen s i
              /\ (i <> getLines s - 1 -> isWrappedLine s' i = isWrappedLine s i)
              /\ forall col n buf, getCells s' i col n buf = getCells s i col n buf.
Proof.
  eexists. split; [vm_compute; reflexivity|].
  eapply addLine_stamps_newest_line. vm_compute. discriminate.
Defined.

Lemma live_allocations_are_distinct_witness :
  exists s,
    sample_run_new 1 (write line_a ++ write line_abcd ++ write [] ++ write line_b) = Some s
    /\ NoDup (owned (lines s))
    /\ forall p, p ∈ owned (lines s) ->
         exists i b, blocks (blockList s) !! i = Some b
                     /\ blockStart b <= p < tail b
                     /\ tail b <= blockStart b + sample_blockLength.
Proof.
  eexists. split; [vm_compute; reflexivity|].
  eapply (live_allocations_are_distinct sample_blockLength
            sample_sizeof_CharacterFormat sample_sizeof_CompactHistoryLine
            sample_blockLength_pos sample_sizeof_line_fits sample_sizeof_format_pos
            1 (write line_a ++ write line_abcd ++ write [] ++ write line_b)).
  vm_compute. reflexivity.
Defined.

End Compact.

(** ** The file-backed history: [HistoryFile] and [HistoryScrollFile] *)

Module FileStore.

(** Bytes and the object representation of an [int]: four bytes, least
    significant first. *)
Definition byte_of_Z (z : Z) : Byte.byte :=
  match Byte.of_N (Z.to_N (z mod 256)) with
  | Some b => b
  | None => Byte.x00
  end.

Definition Z_of_byte (b : Byte.byte) : Z := Z.of_N (Byte.to_N b).

Definition encode_int (z : Z) : list Byte.byte :=
  [byte_of_Z z; byte_of_Z (z / 2 ^ 8); byte_of_Z (z / 2 ^ 16); byte_of_Z (z / 2 ^ 24)].

(** Reading an [int] out of a buffer that was not filled completely yields an
    indeterminate value: [None]. *)
Definition decode_int (bs : list Byte.byte) : option Z :=
  match bs with
  | [b0; b1; b2; b3] =>
      Some (CInt.to_int (Z_of_byte b0 + Z_of_byte b1 * 2 ^ 8
                         + Z_of_byte b2 * 2 ^ 16 + Z_of_byte b3 * 2 ^ 24))
  | _ => None
  end.

Section Platform.

(** Modelled from the spec: the constant [MAP_THRESHOLD] ([History.h]), the
    size and the object representation of a [Character] ([Character.h]) are
    parameters, and so is the environment's answer to an [mmap] request for a
    file of a given length. *)
Variable MAP_THRESHOLD : Z.
Variable mmap_ok : Z -> bool.
Variable sizeof_Character : Z.
Variable Character_bytes : Character -> list Byte.byte.

(** A [HistoryFile]: the members of the class and the bytes of its temporary
    file.  [_fileMap] records whether the file is mapped. *)
Record HistoryFile := mkFile {
  _length : Z;
  _fileMap : bool;
  _readWriteBalance : Z;
  contents : list Byte.byte
}.

(** [HistoryFile::HistoryFile], the temporary file opened. *)
Definition HistoryFile_new : HistoryFile :=
  {| _length := 0; _fileMap := false; _readWriteBalance := 0; contents := [] |}.

(** [HistoryFile::map]: on failure fall back to read and seek. *)
Definition map_ (f : HistoryFile) : HistoryFile :=
  if mmap_ok (_length f) then
    {| _length := _length f; _fileMap := true;
       _readWriteBalance := _readWriteBalance f; contents := contents f |}
  else
    {| _length := _length f; _fileMap := false;
       _readWriteBalance := 0; contents := contents f |}.

(** [HistoryFile::unmap] *)
Definition unmap (f : HistoryFile) : HistoryFile :=
  {| _length := _length f; _fileMap := false;
     _readWriteBalance := _readWriteBalance f; contents := contents f |}.

(** [HistoryFile::isMapped] *)
Definition isMapped (f : HistoryFile) : bool := _fileMap f.

(** [HistoryFile::len] *)
Definition len (f : HistoryFile) : Z := _length f.

(** [HistoryFile::add].  Seeking to a negative offset and writing a negative
    count fail, and the function returns after the bookkeeping; reading more
    than the caller's buffer holds is an error of the caller.  Otherwise
    [write] stores all [count] bytes at offset [_length]. *)
Definition add (f : HistoryFile) (buffer : list Byte.byte) (count : Z)
  : option HistoryFile :=
  let f1 := if _fileMap f then unmap f else f in
  let bal := CInt.to_int (_readWriteBalance f1 + 1) in
  if (_length f1 <? 0) || (count <? 0) then
    Some {| _length := _length f1; _fileMap := _fileMap f1;
            _readWriteBalance := bal; contents := contents f1 |}
  else if Z.of_nat (length buffer) <? count then None
  else
    Some {| _length := CInt.to_int (_length f1 + count);
            _fileMap := _fileMap f1;
            _readWriteBalance := bal;
            contents := take (Z.to_nat (_length f1)) (contents f1)
                        ++ take (Z.to_nat count) buffer |}.

(** [HistoryFile::get]: the file after the call and the contents of [buffer]
    after the call.  Through a mapping, indices outside the mapped file are
    an error; with [read], only the bytes the file holds behind [loc] are
    stored and the rest of the buffer keeps its contents. *)
Definition get (f : HistoryFile) (buffer : list Byte.byte) (size loc : Z)
  : option (HistoryFile * list Byte.byte) :=
  let f1 := {| _length := _length f; _fileMap := _fileMap f;
               _readWriteBalance := CInt.to_int (_readWriteBalance f - 1);
               contents := contents f |} in
  let f2 := if negb (_fileMap f1) && (_readWriteBalance f1 <? MAP_THRESHOLD)
            then map_ f1 else f1 in
  if _fileMap f2 then
    if size <=? 0 then Some (f2, buffer)
    else if (0 <=? loc) && (loc + size <=? _length f2) then
      Some (f2, take (Z.to_nat size) (drop (Z.to_nat loc) (contents f2))
                ++ drop (Z.to_nat size) buffer)
    else None
  else
    if loc <? 0 then Some (f2, buffer)
    else if size <? 0 then None
    else
      let data := take (Z.to_nat size) (drop (Z.to_nat loc) (contents f2)) in
      Some (f2, data ++ drop (length data) buffer).

(** [HistoryScrollFile]: the cells, the index of line starts and the line
    flags, each in a file of its own. *)
Record HistoryScrollFile := mkScrollFile {
  index : HistoryFile;
  cells : HistoryFile;
  lineflags : HistoryFile
}.

Definition HistoryScrollFile_new : HistoryScrollFile :=
  {| index := HistoryFile_new; cells := HistoryFile_new; lineflags := HistoryFile_new |}.

(** [HistoryScrollFile::getLines]: [index.len() / sizeof(int)] *)
Definition getLines (s : HistoryScrollFile) : Z :=
  CInt.to_int (CInt.to_size_t (len (index s)) / 4).

(** [HistoryScrollFile::startOfLine] *)
Definition startOfLine (s : HistoryScrollFile) (lineno : Z)
  : option (Z * HistoryScrollFile) :=
  if lineno <=? 0 then Some (0, s)
  else if lineno <=? getLines s then
    let idx := if isMapped (index s) then index s else map_ (index s) in
    '(idx', bytes) ← get idx [] 4 (CInt.to_int (CInt.to_size_t ((lineno - 1) * 4)));
    res ← decode_int bytes;
    Some (res, {| index := idx'; cells := cells s; lineflags := lineflags s |})
  else Some (len (cells s), s).

(** [HistoryScrollFile::getLineLen] *)
Definition getLineLen (s : HistoryScrollFile) (lineno : Z)
  : option (Z * HistoryScrollFile) :=
  '(next, s1) ← startOfLine s (CInt.to_int (lineno + 1));
  '(start, s2) ← startOfLine s1 lineno;
  Some (CInt.to_int (CInt.to_size_t (CInt.to_int (next - start)) / sizeof_Character), s2).

(** [HistoryScrollFile::isWrappedLine] *)
Definition isWrappedLine (s : HistoryScrollFile) (lineno : Z)
  : option (bool * HistoryScrollFile) :=
  if (0 <=? lineno) && (lineno <=? getLines s) then
    '(lf', bytes) ← get (lineflags s) [] 1 (CInt.to_int (CInt.to_size_t lineno));
    match bytes with
    | [flag] =>
        Some (negb (Z_of_byte flag =? 0),
              {| index := index s; cells := cells s; lineflags := lf' |})
    | _ => None
    end
  else Some (false, s).

(** [HistoryScrollFile::getCells]: [res] is the memory of the caller's
    [Character] array; the result is that memory after the call. *)
Definition getCells (s : HistoryScrollFile) (lineno colno count : Z)
    (res : list Byte.byte) : option (list Byte.byte * HistoryScrollFile) :=
  '(start, s1) ← startOfLine s lineno;
  '(c', bytes) ← get (cells s1) res
                   (CInt.to_int (CInt.to_size_t (count * sizeof_Character)))
                   (CInt.to_int (CInt.to_size_t (start + colno * sizeof_Character)));
  Some (bytes, {| index := index s1; cells := c'; lineflags := lineflags s1 |}).

(** The memory of a [Character] array. *)
Definition array_bytes (text : list Character) : list Byte.byte :=
  concat (map Character_bytes text).

(** [HistoryScrollFile::addCells] *)
Definition addCells (s : HistoryScrollFile) (text : list Character) (count : Z)
  : option HistoryScrollFile :=
  c' ← add (cells s) (array_bytes text)
           (CInt.to_int (CInt.to_size_t (count * sizeof_Character)));
  Some {| index := index s; cells := c'; lineflags := lineflags s |}.

(** [HistoryScrollFile::addLine] *)
Definition addLine (s : HistoryScrollFile) (previousWrapped : bool)
  : option HistoryScrollFile :=
  let idx := if isMapped (index s) then unmap (index s) else index s in
  let locn := len (cells s) in
  idx' ← add idx (encode_int locn) 4;
  let flags := if previousWrapped then 1 else 0 in
  lf' ← add (lineflags s) [byte_of_Z flags] 1;
  Some {| index := idx'; cells := cells s; lineflags := lf' |}.

(** *** Append and read back *)

Hypothesis sizeof_Character_pos : 0 < sizeof_Character.
Hypothesis Character_bytes_length :
  forall c, Z.of_nat (length (Character_bytes c)) = sizeof_Character.

(** One logical line as the screen writes it: [addCells(cells, |cells|)]
    followed by [addLine(wrapped)]. *)
Definition write (s : HistoryScrollFile) (w : list Character * bool)
  : option HistoryScrollFile :=
  s1 ← addCells s (fst w) (Z.of_nat (length (fst w)));
  addLine s1 (snd w).

Fixpoint write_all (s : HistoryScrollFile) (ws : list (list Character * bool))
  : option HistoryScrollFile :=
  match ws with
  | [] => Some s
  | w :: ws' => s' ← write s w; write_all s' ws'
  end.

(** The number of cells of all lines. *)
Definition total_cells (ws : list (list Character * bool)) : Z :=
  foldr (fun w acc => Z.of_nat (length (fst w)) + acc) 0 ws.

(** Two scrolls that hold the same files; the mapping state and the
    read/write balance, which every read changes, may differ. *)
Definition same_file (f g : HistoryFile) : Prop :=
  contents f = contents g /\ _length f = _length g.
Definition same_files (s s' : HistoryScrollFile) : Prop :=
  same_file (index s) (index s') /\ same_file (cells s) (cells s')
  /\ same_file (lineflags s) (lineflags s').

(** What the three files hold after the writes [ws]. *)
Definition chunks (ws : list (list Character * bool)) : list (list Byte.byte) :=
  map (fun w => array_bytes (fst w)) ws.
Definition cell_bytes (ws : list (list Character * bool)) : list Byte.byte :=
  concat (chunks ws).
Definition offset (ws : list (list Character * bool)) (k : nat) : Z :=
  Z.of_nat (length (concat (take k (chunks ws)))).
Definition index_bytes (ws : list (list Character * bool)) : list Byte.byte :=
  concat (map (fun k => encode_int (offset ws (S k))) (seq 0 (length ws))).
Definition flag_bytes (ws : list (list Character * bool)) : list Byte.byte :=
  map (fun w : list Character * bool => byte_of_Z (if snd w then 1 else 0)) ws.

Definition file_holds (f : HistoryFile) (bs : list Byte.byte) : Prop :=
  contents f = bs /\ _length f = Z.of_nat (length bs).

Definition holds (s : HistoryScrollFile) (ws : list (list Character * bool)) : Prop :=
  file_holds (cells s) (cell_bytes ws)
  /\ file_holds (index s) (index_bytes ws)
  /\ file_holds (lineflags s) (flag_bytes ws).

Lemma Z_of_byte_of_Z z : Z_of_byte (byte_of_Z z) = z mod 256.
Proof.
  unfold Z_of_byte, byte_of_Z.
  pose proof (Z.mod_pos_bound z 256 ltac:(lia)) as Hb.
  destruct (Byte.of_N (Z.to_N (z mod 256))) as [b|] eqn:E.
  - apply Byte.to_of_N in E. rewrite E. lia.
  - apply Byte.of_N_None_iff in E. lia.
Qed.

Lemma decode_encode_int z :
  0 <= z <= CInt.int_max -> decode_int (encode_int z) = Some z.
Proof.
  unfold CInt.int_max. intros Hz. unfold decode_int, encode_int.
  rewrite !Z_of_byte_of_Z. f_equal.
  assert (H16 : z / 2 ^ 16 = z / 2 ^ 8 / 2 ^ 8) by (rewrite Z.div_div by lia; reflexivity).
  assert (H24 : z / 2 ^ 24 = z / 2 ^ 8 / 2 ^ 8 / 2 ^ 8) by (rewrite !Z.div_div by lia; reflexivity).
  rewrite H16, H24.
  set (q1 := z / 2 ^ 8). set (q2 := q1 / 2 ^ 8). set (q3 := q2 / 2 ^ 8).
  pose proof (Z.div_mod z (2 ^ 8) ltac:(lia)) as E1. fold q1 in E1.
  pose proof (Z.div_mod q1 (2 ^ 8) ltac:(lia)) as E2. fold q2 in E2.
  pose proof (Z.div_mod q2 (2 ^ 8) ltac:(lia)) as E3. fold q3 in E3.
  pose proof (Z.mod_pos_bound z (2 ^ 8) ltac:(lia)).
  pose proof (Z.mod_pos_bound q1 (2 ^ 8) ltac:(lia)).
  pose proof (Z.mod_pos_bound q2 (2 ^ 8) ltac:(lia)).
  change 256 with (2 ^ 8).
  assert (0 <= q3 < 2 ^ 8) as Hq3 by lia.
  rewrite (Z.mod_small q3) by lia.
  rewrite CInt.to_int_id; [lia|].
  unfold CInt.in_int, CInt.int_min, CInt.int_max. lia.
Qed.

Lemma array_bytes_length cs :
  Z.of_nat (length (array_bytes cs)) = Z.of_nat (length cs) * sizeof_Character.
Proof.
  unfold array_bytes. induction cs as [|c cs IH]; simpl; [reflexivity|].
  rewrite length_app, Nat2Z.inj_add, IH, Character_bytes_length. lia.
Qed.

Lemma cell_bytes_length ws :
  Z.of_nat (length (cell_bytes ws)) = sizeof_Character * total_cells ws.
Proof.
  unfold cell_bytes, chunks. induction ws as [|w ws IH]; simpl; [lia|].
  rewrite length_app, Nat2Z.inj_add, IH, array_bytes_length. lia.
Qed.

Lemma total_cells_nonneg ws : 0 <= total_cells ws.
Proof. induction ws as [|w ws IH]; simpl; lia. Qed.

Lemma total_cells_app ws ws' : total_cells (ws ++ ws') = total_cells ws + total_cells ws'.
Proof. induction ws as [|w ws IH]; simpl; lia. Qed.

Lemma offset_le ws k : 0 <= offset ws k <= Z.of_nat (length (cell_bytes ws)).
Proof.
  unfold offset, cell_bytes. split; [lia|].
  rewrite <- (take_drop k (chunks ws)) at 2. rewrite concat_app, length_app. lia.
Qed.

Lemma offset_all ws k :
  (length ws <= k)%nat -> offset ws k = Z.of_nat (length (cell_bytes ws)).
Proof.
  intros H. unfold offset, cell_bytes. rewrite take_ge; [reflexivity|].
  unfold chunks. rewrite length_map. exact H.
Qed.

Lemma offset_app ws ws' k :
  (k <= length ws)%nat -> offset (ws ++ ws') k = offset ws k.
Proof.
  intros H. unfold offset, chunks. rewrite map_app, take_app_le; [reflexivity|].
  rewrite length_map. exact H.
Qed.

Lemma offset_S ws k cs w :
  ws !! k = Some (cs, w) ->
  offset ws (S k) = offset ws k + Z.of_nat (length (array_bytes cs)).
Proof.
  intros Hk. unfold offset.
  assert (chunks ws !! k = Some (array_bytes cs)) as Hc.
  { unfold chunks. rewrite list_lookup_fmap, Hk. reflexivity. }
  rewrite (take_S_r _ _ _ Hc), concat_app, length_app. simpl.
  rewrite app_nil_r. lia.
Qed.

Lemma index_bytes_length ws : Z.of_nat (length (index_bytes ws)) = 4 * Z.of_nat (length ws).
Proof.
  unfold index_bytes.
  assert (H : forall (f : nat -> Z) (l : list nat),
            Z.of_nat (length (concat (map (fun k => encode_int (f k)) l)))
            = 4 * Z.of_nat (length l)).
  { intros f l. induction l as [|k l IH]; simpl; [reflexivity|]. lia. }
  rewrite H, length_seq. reflexivity.
Qed.

(** A chunk of a concatenation, cut out by its offset and length. *)
Lemma chunk_at {A} (ls : list (list A)) k x :
  ls !! k = Some x ->
  take (length x) (drop (length (concat (take k ls))) (concat ls)) = x.
Proof.
  intros Hk. rewrite <- (take_drop_middle ls k x Hk) at 2.
  rewrite concat_app. simpl. rewrite drop_app_length, take_app_length. reflexivity.
Qed.

Ltac int_range := unfold CInt.in_int, CInt.int_min, CInt.int_max in *; lia.

Lemma to_int_size_t z : 0 <= z <= CInt.int_max -> CInt.to_int (CInt.to_size_t z) = z.
Proof.
  intros H. rewrite CInt.to_size_t_id by int_range. apply CInt.to_int_id. int_range.
Qed.

Lemma add_holds f bs data :
  file_holds f bs ->
  Z.of_nat (length bs) + Z.of_nat (length data) <= CInt.int_max ->
  exists f', add f data (Z.of_nat (length data)) = Some f' /\ file_holds f' (bs ++ data).
Proof.
  intros [Hc Hl] Hsz. unfold add.
  set (f1 := if _fileMap f then unmap f else f).
  assert (contents f1 = bs /\ _length f1 = Z.of_nat (length bs)) as [Hc1 Hl1].
  { unfold f1. destruct (_fileMap f); simpl; auto. }
  rewrite Hl1, Hc1.
  destruct (Z.ltb_spec (Z.of_nat (length bs)) 0); [lia|].
  destruct (Z.ltb_spec (Z.of_nat (length data)) 0); [lia|]. simpl.
  destruct (Z.ltb_spec (Z.of_nat (length data)) (Z.of_nat (length data))); [lia|].
  eexists. split; [reflexivity|]. split; simpl.
  - rewrite !Nat2Z.id, !firstn_all. reflexivity.
  - rewrite length_app, CInt.to_int_id by int_range. lia.
Qed.

Lemma file_holds_map f bs : file_holds f bs -> file_holds (map_ f) bs.
Proof. intros H. unfold map_. destruct (mmap_ok (_length f)); exact H. Qed.

Lemma file_holds_unmap f bs : file_holds f bs -> file_holds (unmap f) bs.
Proof. intros H. exact H. Qed.

(** A read inside the file returns the bytes stored there, whether it goes
    through the mapping or through [read]. *)
Lemma get_holds f bs buf size loc :
  file_holds f bs ->
  0 <= loc -> 0 <= size -> loc + size <= Z.of_nat (length bs) ->
  exists f', get f buf size loc
             = Some (f', take (Z.to_nat size) (drop (Z.to_nat loc) bs)
                         ++ drop (Z.to_nat size) buf)
             /\ file_holds f' bs.
Proof.
  intros [Hc Hl] Hloc Hsize Hin. unfold get.
  set (f1 := {| _length := _length f; _fileMap := _fileMap f;
                _readWriteBalance := CInt.to_int (_readWriteBalance f - 1);
                contents := contents f |}).
  set (f2 := if negb (_fileMap f1) && (_readWriteBalance f1 <? MAP_THRESHOLD)
             then map_ f1 else f1).
  assert (Hf2 : file_holds f2 bs).
  { unfold f2. destruct (negb (_fileMap f1) && (_readWriteBalance f1 <? MAP_THRESHOLD)).
    - apply file_holds_map. split; assumption.
    - split; assumption. }
  destruct Hf2 as [Hc2 Hl2]. rewrite Hc2, Hl2.
  assert (Hlen : length (take (Z.to_nat size) (drop (Z.to_nat loc) bs)) = Z.to_nat size).
  { rewrite length_take, length_drop. lia. }
  destruct (_fileMap f2).
  - destruct (Z.leb_spec size 0).
    + assert (size = 0) as -> by lia. simpl. eexists. split; [reflexivity|].
      split; assumption.
    + destruct (Z.leb_spec 0 loc); [|lia].
      destruct (Z.leb_spec (loc + size) (Z.of_nat (length bs))); [|lia]. simpl.
      eexists. split; [reflexivity|]. split; assumption.
  - destruct (Z.ltb_spec loc 0); [lia|].
    destruct (Z.ltb_spec size 0); [lia|].
    rewrite Hlen. eexists. split; [reflexivity|]. split; assumption.
Qed.

Lemma holds_new : holds HistoryScrollFile_new [].
Proof. repeat split. Qed.

Lemma index_bytes_snoc ws w :
  index_bytes (ws ++ [w])
  = index_bytes ws ++ encode_int (Z.of_nat (length (cell_bytes (ws ++ [w])))).
Proof.
  unfold index_bytes. rewrite length_app. simpl length.
  rewrite Nat.add_1_r, seq_S, map_app, concat_app.
  cbn [map concat Nat.add]. rewrite app_nil_r.
  f_equal.
  - f_equal. apply map_ext_in. intros k Hk. apply in_seq in Hk.
    rewrite offset_app by lia. reflexivity.
  - rewrite offset_all; [reflexivity|]. rewrite length_app. simpl. lia.
Qed.

(** One write -- [addCells] then [addLine] -- succeeds and extends the three
    files, as long as the file offsets stay within an [int]. *)
Lemma write_holds s ws w :
  holds s ws ->
  4 * Z.of_nat (length (ws ++ [w])) <= CInt.int_max ->
  sizeof_Character * total_cells (ws ++ [w]) <= CInt.int_max ->
  exists s', write s w = Some s' /\ holds s' (ws ++ [w]).
Proof.
  intros (Hcells & Hidx & Hfl) Hn Hsz. destruct w as [cs wr].
  rewrite length_app in Hn. simpl in Hn.
  pose proof (cell_bytes_length (ws ++ [(cs, wr)])) as Hcb.
  assert (Happ : cell_bytes (ws ++ [(cs, wr)]) = cell_bytes ws ++ array_bytes cs).
  { unfold cell_bytes, chunks. rewrite map_app, concat_app. simpl.
    rewrite app_nil_r. reflexivity. }
  pose proof (array_bytes_length cs) as Hab.
  pose proof (total_cells_nonneg ws) as Hnn.
  rewrite Happ, length_app in Hcb.
  unfold write, addCells. simpl fst. simpl snd.
  rewrite <- Hab, to_int_size_t by lia.
  destruct (add_holds (cells s) _ (array_bytes cs) Hcells ltac:(lia)) as (c' & -> & Hc').
  simpl. unfold addLine. simpl.
  set (idx := if isMapped (index s) then unmap (index s) else index s).
  assert (Hidx' : file_holds idx (index_bytes ws)).
  { unfold idx. destruct (isMapped (index s)); assumption. }
  pose proof (index_bytes_length ws) as Hil.
  assert (Hel : forall z, length (encode_int z) = 4%nat) by reflexivity.
  destruct (add_holds idx _ (encode_int (len c')) Hidx'
              ltac:(rewrite Hel; lia)) as (i' & Hi' & Hih).
  rewrite Hel in Hi'. change (Z.of_nat 4) with 4 in Hi'. rewrite Hi'. simpl.
  assert (Hfll : length (flag_bytes ws) = length ws) by (unfold flag_bytes; apply length_map).
  destruct (add_holds (lineflags s) _ [byte_of_Z (if wr then 1 else 0)] Hfl
              ltac:(simpl; lia)) as (l' & Hl' & Hlh).
  change (Z.of_nat (length [byte_of_Z (if wr then 1 else 0)])) with 1 in Hl'.
  rewrite Hl'. simpl.
  eexists. split; [reflexivity|]. split; [|split]; simpl.
  - rewrite Happ. exact Hc'.
  - rewrite index_bytes_snoc, Happ.
    destruct Hc' as [_ Hlen']. unfold len in Hih. rewrite Hlen' in Hih. exact Hih.
  - unfold flag_bytes in *. rewrite map_app. exact Hlh.
Qed.

Lemma write_all_holds ws' : forall s ws,
  holds s ws ->
  4 * Z.of_nat (length (ws ++ ws')) <= CInt.int_max ->
  sizeof_Character * total_cells (ws ++ ws') <= CInt.int_max ->
  exists s', write_all s ws' = Some s' /\ holds s' (ws ++ ws').
Proof.
  induction ws' as [|w ws' IH]; intros s ws Hh Hn Hsz; simpl.
  - rewrite app_nil_r. eauto.
  - rewrite (cons_middle w ws ws'), app_assoc in Hn, Hsz |- *.
    destruct (write_holds s ws w Hh) as (s1 & -> & Hh1).
    + rewrite length_app in Hn. lia.
    + rewrite total_cells_app in Hsz. pose proof (total_cells_nonneg ws'). nia.
    + simpl. apply IH; assumption.
Qed.

Lemma getLines_holds s ws :
  holds s ws -> 4 * Z.of_nat (length ws) <= CInt.int_max ->
  getLines s = Z.of_nat (length ws).
Proof.
  intros (_ & [_ Hl] & _) Hn. unfold getLines, len. rewrite Hl, index_bytes_length.
  rewrite CInt.to_size_t_id by int_range.
  rewrite Z.mul_comm, Z.div_mul by lia. apply CInt.to_int_id. int_range.
Qed.

Lemma index_chunk ws k :
  (k < length ws)%nat ->
  take 4 (drop (4 * k) (index_bytes ws)) = encode_int (offset ws (S k)).
Proof.
  intros Hk. unfold index_bytes.
  set (ls := map (fun k => encode_int (offset ws (S k))) (seq 0 (length ws))).
  assert (Hls : ls !! k = Some (encode_int (offset ws (S k)))).
  { unfold ls. change (map ?f ?l) with (f <$> l). rewrite list_lookup_fmap.
    assert (seq 0 (length ws) !! k = Some k) as -> by (apply lookup_seq; lia).
    reflexivity. }
  assert (Hoff : length (concat (take k ls)) = (4 * k)%nat).
  { assert (H : forall l : list (list Byte.byte),
              Forall (fun x => length x = 4%nat) l -> length (concat l) = (4 * length l)%nat).
    { induction 1 as [|x l Hx _ IH]; simpl; [reflexivity|].
      rewrite length_app, Hx, IH. lia. }
    rewrite H.
    - rewrite length_take. unfold ls. rewrite length_map, length_seq. lia.
    - apply Forall_take. unfold ls. apply Forall_forall. intros x Hx.
      apply in_map_iff in Hx as (j & <- & _). reflexivity. }
  rewrite <- Hoff. exact (chunk_at ls k _ Hls).
Qed.

Lemma cells_chunk ws k cs w :
  ws !! k = Some (cs, w) ->
  take (length (array_bytes cs)) (drop (Z.to_nat (offset ws k)) (cell_bytes ws))
  = array_bytes cs.
Proof.
  intros Hk. unfold offset, cell_bytes. rewrite Nat2Z.id.
  apply chunk_at. unfold chunks. change (map ?f ?l) with (f <$> l).
  rewrite list_lookup_fmap, Hk. reflexivity.
Qed.

Lemma take_1_drop {A} (l : list A) k x : l !! k = Some x -> take 1 (drop k l) = [x].
Proof. intros H. rewrite (drop_S l x k H). reflexivity. Qed.

(** [startOfLine] reads back the offset that [addLine] stored. *)
Lemma startOfLine_holds s ws lineno :
  holds s ws ->
  4 * Z.of_nat (length ws) <= CInt.int_max ->
  sizeof_Character * total_cells ws <= CInt.int_max ->
  0 <= lineno <= Z.of_nat (length ws) ->
  exists s', startOfLine s lineno = Some (offset ws (Z.to_nat lineno), s')
             /\ holds s' ws.
Proof.
  intros Hh Hn Hsz Hl. unfold startOfLine.
  destruct (Z.leb_spec lineno 0) as [H0|Hpos].
  - assert (lineno = 0) as -> by lia. exists s. split; [|exact Hh]. reflexivity.
  - rewrite (getLines_holds s ws Hh Hn).
    destruct (Z.leb_spec lineno (Z.of_nat (length ws))); [|lia].
    destruct Hh as (Hcells & Hidx & Hfl).
    set (idx := if isMapped (index s) then index s else map_ (index s)).
    assert (Hidx' : file_holds idx (index_bytes ws)).
    { unfold idx. destruct (isMapped (index s)); [assumption|].
      apply file_holds_map. assumption. }
    rewrite to_int_size_t by lia.
    pose proof (index_bytes_length ws) as Hil.
    destruct (get_holds idx _ [] 4 ((lineno - 1) * 4) Hidx')
      as (i' & -> & Hi'); try lia.
    simpl. replace (Z.to_nat ((lineno - 1) * 4)) with (4 * (Z.to_nat lineno - 1))%nat by lia.
    change (Z.to_nat 4) with 4%nat. change (Pos.to_nat 4) with 4%nat.
    rewrite (index_chunk ws (Z.to_nat lineno - 1)) by lia.
    replace (S (Z.to_nat lineno - 1)) with (Z.to_nat lineno) by lia.
    rewrite app_nil_r, decode_encode_int.
    + simpl. eexists. split; [reflexivity|]. repeat split; simpl; try apply Hcells;
        try apply Hi'; try apply Hfl.
    + pose proof (offset_le ws (Z.to_nat lineno)) as Ho.
      rewrite cell_bytes_length in Ho. lia.
Qed.

Section Reads.

Variable s : HistoryScrollFile.
Variable ws : list (list Character * bool).
Hypothesis Hholds : holds s ws.
Hypothesis Hlines : 4 * Z.of_nat (length ws) <= CInt.int_max.
Hypothesis Hbytes : sizeof_Character * total_cells ws <= CInt.int_max.

Variable L : nat.
Variable cs : list Character.
Variable wr : bool.
Hypothesis HL : ws !! L = Some (cs, wr).

Lemma getLineLen_holds :
  exists s', getLineLen s (Z.of_nat L) = Some (Z.of_nat (length cs), s') /\ holds s' ws.
Proof.
  pose proof (lookup_lt_Some _ _ _ HL) as Hlt.
  unfold getLineLen. rewrite CInt.to_int_id by int_range.
  destruct (startOfLine_holds s ws (Z.of_nat L + 1) Hholds Hlines Hbytes ltac:(lia))
    as (s1 & -> & Hh1). simpl.
  destruct (startOfLine_holds s1 ws (Z.of_nat L) Hh1 Hlines Hbytes ltac:(lia))
    as (s2 & -> & Hh2). simpl.
  exists s2. split; [|exact Hh2]. do 2 f_equal.
  replace (Z.to_nat (Z.of_nat L + 1)) with (S L) by lia. rewrite Nat2Z.id.
  rewrite (offset_S ws L cs wr HL), array_bytes_length.
  replace (offset ws L + Z.of_nat (length cs) * sizeof_Character - offset ws L)
    with (Z.of_nat (length cs) * sizeof_Character) by lia.
  pose proof (offset_le ws (S L)) as Ho.
  rewrite (offset_S ws L cs wr HL), array_bytes_length, cell_bytes_length in Ho.
  pose proof (offset_le ws L) as Ho'.
  rewrite (CInt.to_int_id (Z.of_nat (length cs) * sizeof_Character)) by int_range.
  rewrite CInt.to_size_t_id by int_range.
  rewrite Z.div_mul by lia. apply CInt.to_int_id.
  assert (Z.of_nat (length cs) <= Z.of_nat (length cs) * sizeof_Character) by nia.
  int_range.
Qed.

Lemma isWrappedLine_holds :
  exists s', isWrappedLine s (Z.of_nat L) = Some (wr, s') /\ holds s' ws.
Proof.
  pose proof (lookup_lt_Some _ _ _ HL) as Hlt.
  unfold isWrappedLine. rewrite (getLines_holds s ws Hholds Hlines).
  destruct (Z.leb_spec 0 (Z.of_nat L)); [|lia].
  destruct (Z.leb_spec (Z.of_nat L) (Z.of_nat (length ws))); [|lia]. simpl.
  destruct Hholds as (Hcells & Hidx & Hfl).
  rewrite to_int_size_t by lia.
  assert (Hfll : length (flag_bytes ws) = length ws) by (unfold flag_bytes; apply length_map).
  destruct (get_holds (lineflags s) _ [] 1 (Z.of_nat L) Hfl) as (l' & -> & Hl'); try lia.
  simpl. rewrite Nat2Z.id. change (Z.to_nat 1) with 1%nat.
  rewrite (take_1_drop (flag_bytes ws) L (byte_of_Z (if wr then 1 else 0))).
  - simpl. rewrite Z_of_byte_of_Z. eexists. split.
    + destruct wr; reflexivity.
    + repeat split; simpl; try apply Hcells; try apply Hidx; try apply Hl'.
  - unfold flag_bytes. change (map ?f ?l) with (f <$> l).
    rewrite list_lookup_fmap, HL. reflexivity.
Qed.

Lemma getCells_holds res :
  exists s', getCells s (Z.of_nat L) 0 (Z.of_nat (length cs)) res
             = Some (array_bytes cs ++ drop (length (array_bytes cs)) res, s')
             /\ holds s' ws.
Proof.
  pose proof (lookup_lt_Some _ _ _ HL) as Hlt.
  unfold getCells.
  destruct (startOfLine_holds s ws (Z.of_nat L) Hholds Hlines Hbytes ltac:(lia))
    as (s1 & -> & Hh1). simpl. rewrite Nat2Z.id.
  pose proof (offset_le ws (S L)) as Ho.
  rewrite (offset_S ws L cs wr HL), cell_bytes_length in Ho.
  pose proof (offset_le ws L) as Ho'.
  pose proof (array_bytes_length cs) as Hab.
  rewrite Z.mul_0_l, Z.add_0_r.
  rewrite !to_int_size_t by lia.
  destruct Hh1 as (Hcells & Hidx & Hfl).
  destruct (get_holds (cells s1) _ res (Z.of_nat (length cs) * sizeof_Character)
              (offset ws L) Hcells) as (c' & -> & Hc'); try lia.
  { rewrite cell_bytes_length. lia. }
  simpl. rewrite <- Hab, Nat2Z.id, (cells_chunk ws L cs wr HL).
  eexists. split; [reflexivity|].
  repeat split; simpl; try apply Hc'; try apply Hidx; try apply Hfl.
Qed.

End Reads.

Lemma holds_same_files s s' ws : holds s ws -> holds s' ws -> same_files s s'.
Proof.
  intros ([? ?] & [? ?] & [? ?]) ([? ?] & [? ?] & [? ?]).
  repeat split; congruence.
Qed.

Lemma same_files_holds s s' ws : holds s ws -> same_files s s' -> holds s' ws.
Proof.
  intros ([? ?] & [? ?] & [? ?]) ([? ?] & [? ?] & [? ?]).
  repeat split; congruence.
Qed.

(** C5: for the file-backed scroll, absent I/O failures and with file offsets
    that fit an [int]: the paired writes succeed, and afterwards -- in the
    state the writes leave and in any state that reads lead to, whatever the
    files' mapping state -- [getLines] is the number of lines written and, for
    every line [L], [getLineLen] is the number of its cells, [isWrappedLine]
    is its flag, and [getCells] over the whole line stores exactly the bytes
    of the cells that were written.  Each read leaves the files unchanged. *)
Theorem file_append_read_roundtrip (ws : list (list Character * bool)) :
  4 * Z.of_nat (length ws) <= CInt.int_max ->
  sizeof_Character * total_cells ws <= CInt.int_max ->
  exists s,
    write_all HistoryScrollFile_new ws = Some s
    /\ forall s', same_files s s' ->
         getLines s' = Z.of_nat (length ws)
         /\ forall L cs wr res, ws !! L = Some (cs, wr) ->
              (exists s1, getLineLen s' (Z.of_nat L) = Some (Z.of_nat (length cs), s1)
                          /\ same_files s s1)
              /\ (exists s1, isWrappedLine s' (Z.of_nat L) = Some (wr, s1)
                             /\ same_files s s1)
              /\ (exists s1, getCells s' (Z.of_nat L) 0 (Z.of_nat (length cs)) res
                             = Some (array_bytes cs ++ drop (length (array_bytes cs)) res, s1)
                             /\ same_files s s1).
Proof.
  intros Hn Hsz.
  destruct (write_all_holds ws HistoryScrollFile_new [] holds_new Hn Hsz) as (s & Hw & Hh).
  simpl in Hh. exists s. split; [exact Hw|].
  intros s' Hsame. pose proof (same_files_holds _ _ _ Hh Hsame) as Hh'.
  split; [exact (getLines_holds s' ws Hh' Hn)|].
  intros L cs wr res HL. split; [|split].
  - destruct (getLineLen_holds s' ws Hh' Hn Hsz L cs wr HL) as (s1 & H1 & Hh1).
    exists s1. split; [exact H1|]. exact (holds_same_files _ _ _ Hh Hh1).
  - destruct (isWrappedLine_holds s' ws Hh' Hn L cs wr HL) as (s1 & H1 & Hh1).
    exists s1. split; [exact H1|]. exact (holds_same_files _ _ _ Hh Hh1).
  - destruct (getCells_holds s' ws Hh' Hn Hsz L cs wr HL res) as (s1 & H1 & Hh1).
    exists s1. split; [exact H1|]. exact (holds_same_files _ _ _ Hh Hh1).
Qed.

(** *** Reads leave the files alone *)

Lemma same_file_refl f : same_file f f.
Proof. split; reflexivity. Qed.

Lemma same_file_trans f g h : same_file f g -> same_file g h -> same_file f h.
Proof. intros [? ?] [? ?]. split; congruence. Qed.

Lemma same_file_map f : same_file f (map_ f).
Proof. unfold map_. destruct (mmap_ok (_length f)); split; reflexivity. Qed.

Lemma get_same_file f buffer size loc f' bytes :
  get f buffer size loc = Some (f', bytes) -> same_file f f'.
Proof.
  unfold get.
  set (f1 := {| _length := _length f; _fileMap := _fileMap f;
                _readWriteBalance := CInt.to_int (_readWriteBalance f - 1);
                contents := contents f |}).
  set (f2 := if negb (_fileMap f1) && (_readWriteBalance f1 <? MAP_THRESHOLD)
             then map_ f1 else f1).
  assert (H2 : same_file f f2).
  { apply (same_file_trans f f1); [split; reflexivity|]. unfold f2.
    destruct (negb (_fileMap f1) && (_readWriteBalance f1 <? MAP_THRESHOLD));
      [apply same_file_map|apply same_file_refl]. }
  intros H.
  repeat match type of H with
         | (if ?c then _ else _) = Some _ => destruct c
         end; try discriminate; injection H as <- _; exact H2.
Qed.

Lemma startOfLine_same_files s lineno n s' :
  startOfLine s lineno = Some (n, s') -> same_files s s'.
Proof.
  unfold startOfLine. intros H.
  destruct (lineno <=? 0).
  { injection H as _ <-. repeat split. }
  destruct (lineno <=? getLines s).
  2:{ injection H as _ <-. repeat split. }
  destruct (get _ _ _ _) as [[idx' bytes]|] eqn:E; [|discriminate].
  cbn [mbind option_bind] in H.
  destruct (decode_int bytes); [|discriminate].
  injection H as _ <-.
  apply get_same_file in E.
  split; [|split; apply same_file_refl]. cbn [index].
  destruct (isMapped (index s)); [exact E|].
  exact (same_file_trans _ _ _ (same_file_map _) E).
Qed.

Lemma same_files_trans s1 s2 s3 : same_files s1 s2 -> same_files s2 s3 -> same_files s1 s3.
Proof.
  intros (? & ? & ?) (? & ? & ?).
  repeat split; eauto using same_file_trans;
    eapply same_file_trans; eauto.
Qed.

(** X9: reading never changes what the history holds.  Whatever the
    arguments, a read of the file-backed scroll that returns leaves the bytes
    and the length of all three files as they were; it can change only the
    mapping state and the read/write balance. *)
Theorem reads_leave_files_unchanged s s' :
  (exists lineno n, getLineLen s lineno = Some (n, s'))
  \/ (exists lineno b, isWrappedLine s lineno = Some (b, s'))
  \/ (exists lineno colno count res bytes,
        getCells s lineno colno count res = Some (bytes, s')) ->
  same_files s s'.
Proof.
  intros [(lineno & n & H)|[(lineno & b & H)|(lineno & colno & count & res & bytes & H)]].
  - unfold getLineLen in H.
    destruct (startOfLine s _) as [[next s1]|] eqn:E1; [|discriminate].
    cbn [mbind option_bind] in H.
    destruct (startOfLine s1 _) as [[start s2]|] eqn:E2; [|discriminate].
    injection H as _ <-.
    exact (same_files_trans _ _ _ (startOfLine_same_files _ _ _ _ E1)
             (startOfLine_same_files _ _ _ _ E2)).
  - unfold isWrappedLine in H.
    destruct ((0 <=? lineno) && (lineno <=? getLines s)).
    2:{ injection H as _ <-. repeat split. }
    destruct (get _ _ _ _) as [[lf' bytes]|] eqn:E; [|discriminate].
    cbn [mbind option_bind] in H.
    destruct bytes as [|flag [|? ?]]; try discriminate.
    injection H as _ <-. apply get_same_file in E.
    split; [|split]; [apply same_file_refl|apply same_file_refl|exact E].
  - unfold getCells in H.
    destruct (startOfLine s _) as [[start s1]|] eqn:E1; [|discriminate].
    cbn [mbind option_bind] in H.
    destruct (get _ _ _ _) as [[c' bs]|] eqn:E; [|discriminate].
    injection H as _ <-. apply get_same_file in E.
    apply startOfLine_same_files in E1.
    apply (same_files_trans _ _ _ E1).
    split; [|split]; [apply same_file_refl|exact E|apply same_file_refl].
Qed.

(** *** The line in progress *)

(** What the files hold when the cells [pend] were added after the last
    [addLine]: the cell file runs ahead of the index and of the flags. *)
Definition holds_open (s : HistoryScrollFile) (ws : list (list Character * bool))
    (pend : list Character) : Prop :=
  file_holds (cells s) (cell_bytes (ws ++ [(pend, false)]))
  /\ file_holds (index s) (index_bytes ws)
  /\ file_holds (lineflags s) (flag_bytes ws).

Lemma cell_bytes_snoc ws cs wr :
  cell_bytes (ws ++ [(cs, wr)]) = cell_bytes ws ++ array_bytes cs.
Proof.
  unfold cell_bytes, chunks. rewrite map_app, concat_app. simpl.
  rewrite app_nil_r. reflexivity.
Qed.

Lemma array_bytes_app a b : array_bytes (a ++ b) = array_bytes a ++ array_bytes b.
Proof. unfold array_bytes. rewrite map_app, concat_app. reflexivity. Qed.

Lemma holds_open_nil s ws : holds s ws -> holds_open s ws [].
Proof.
  intros (Hc & Hi & Hf). split; [|split; assumption].
  rewrite cell_bytes_snoc. change (array_bytes []) with (@nil Byte.byte).
  rewrite app_nil_r. exact Hc.
Qed.

Lemma add_take f buffer count :
  0 <= count <= Z.of_nat (length buffer) ->
  add f buffer count = add f (take (Z.to_nat count) buffer) count.
Proof.
  intros Hc. unfold add.
  rewrite length_take, take_take, Nat.min_id.
  destruct (Z.ltb_spec (Z.of_nat (length buffer)) count); [lia|].
  destruct (Z.ltb_spec (Z.of_nat (Z.to_nat count `min` length buffer)) count); [lia|].
  reflexivity.
Qed.

Lemma array_bytes_take text (k : nat) :
  take (k * Z.to_nat sizeof_Character) (array_bytes text) = array_bytes (take k text).
Proof.
  revert k. induction text as [|c text IH]; intros [|k]; try reflexivity.
  - change (array_bytes []) with (@nil Byte.byte). rewrite take_nil. reflexivity.
  - change (array_bytes (c :: text)) with (Character_bytes c ++ array_bytes text).
    cbn [take Nat.mul].
    change (array_bytes (c :: take k text))
      with (Character_bytes c ++ array_bytes (take k text)).
    rewrite take_app_add'; [rewrite IH; reflexivity|].
    pose proof (Character_bytes_length c). lia.
Qed.

Lemma array_bytes_drop text (k : nat) :
  drop (k * Z.to_nat sizeof_Character) (array_bytes text) = array_bytes (drop k text).
Proof.
  revert k. induction text as [|c text IH]; intros [|k]; try reflexivity.
  - change (array_bytes []) with (@nil Byte.byte). rewrite drop_nil. reflexivity.
  - change (array_bytes (c :: text)) with (Character_bytes c ++ array_bytes text).
    cbn [drop Nat.mul].
    rewrite drop_app_add'; [apply IH|].
    pose proof (Character_bytes_length c). lia.
Qed.

Lemma addCells_open s ws pend text count :
  holds_open s ws pend ->
  0 <= count <= Z.of_nat (length text) ->
  sizeof_Character * (total_cells ws + Z.of_nat (length pend) + count) <= CInt.int_max ->
  exists s', addCells s text count = Some s'
    /\ holds_open s' ws (pend ++ take (Z.to_nat count) text).
Proof.
  intros (Hc & Hi & Hf) Hcount Hsz. unfold addCells.
  pose proof (total_cells_nonneg ws) as Hnn.
  assert (0 <= count * sizeof_Character <= CInt.int_max) as Hr by nia.
  rewrite to_int_size_t by exact Hr.
  pose proof (array_bytes_length text) as Hab.
  rewrite add_take by nia.
  replace (Z.to_nat (count * sizeof_Character))
    with (Z.to_nat count * Z.to_nat sizeof_Character)%nat by nia.
  rewrite array_bytes_take.
  pose proof (array_bytes_length (take (Z.to_nat count) text)) as Hat.
  rewrite length_take in Hat.
  replace (Z.of_nat (Z.to_nat count `min` length text)) with count in Hat by lia.
  rewrite <- Hat.
  pose proof (cell_bytes_length (ws ++ [(pend, false)])) as Hcb.
  rewrite total_cells_app in Hcb. cbn [total_cells foldr fst] in Hcb.
  destruct (add_holds (cells s) _ (array_bytes (take (Z.to_nat count) text)) Hc
              ltac:(nia)) as (c' & -> & Hc').
  cbn [mbind option_bind]. eexists. split; [reflexivity|].
  split; [|split; assumption]. cbn [cells].
  rewrite cell_bytes_snoc, array_bytes_app, app_assoc, <- (cell_bytes_snoc ws pend false).
  exact Hc'.
Qed.

Lemma addLine_open s ws pend wr :
  holds_open s ws pend ->
  4 * Z.of_nat (length (ws ++ [(pend, wr)])) <= CInt.int_max ->
  sizeof_Character * total_cells (ws ++ [(pend, wr)]) <= CInt.int_max ->
  exists s', addLine s wr = Some s' /\ holds s' (ws ++ [(pend, wr)]).
Proof.
  intros (Hc & Hi & Hf) Hn Hsz.
  rewrite length_app in Hn. simpl in Hn.
  assert (Hsame : cell_bytes (ws ++ [(pend, false)]) = cell_bytes (ws ++ [(pend, wr)])).
  { rewrite !cell_bytes_snoc. reflexivity. }
  rewrite Hsame in Hc.
  pose proof (cell_bytes_length (ws ++ [(pend, wr)])) as Hcb.
  unfold addLine.
  set (idx := if isMapped (index s) then unmap (index s) else index s).
  assert (Hidx' : file_holds idx (index_bytes ws)).
  { unfold idx. destruct (isMapped (index s)); assumption. }
  pose proof (index_bytes_length ws) as Hil.
  assert (Hel : forall z, length (encode_int z) = 4%nat) by reflexivity.
  destruct (add_holds idx _ (encode_int (len (cells s))) Hidx'
              ltac:(rewrite Hel; lia)) as (i' & Hi' & Hih).
  rewrite Hel in Hi'. change (Z.of_nat 4) with 4 in Hi'. rewrite Hi'.
  cbn [mbind option_bind].
  assert (Hfll : length (flag_bytes ws) = length ws) by (unfold flag_bytes; apply length_map).
  destruct (add_holds (lineflags s) _ [byte_of_Z (if wr then 1 else 0)] Hf
              ltac:(simpl; lia)) as (l' & Hl' & Hlh).
  change (Z.of_nat (length [byte_of_Z (if wr then 1 else 0)])) with 1 in Hl'.
  rewrite Hl'. cbn [mbind option_bind].
  eexists. split; [reflexivity|]. split; [|split]; cbn [cells index lineflags].
  - exact Hc.
  - rewrite index_bytes_snoc.
    destruct Hc as [_ Hlen']. unfold len in Hih. rewrite Hlen' in Hih. exact Hih.
  - unfold flag_bytes in *. rewrite map_app. exact Hlh.
Qed.

Lemma getLines_open s ws pend :
  holds_open s ws pend -> 4 * Z.of_nat (length ws) <= CInt.int_max ->
  getLines s = Z.of_nat (length ws).
Proof.
  intros (_ & [_ Hl] & _) Hn. unfold getLines, len. rewrite Hl, index_bytes_length.
  rewrite CInt.to_size_t_id by int_range.
  rewrite Z.mul_comm, Z.div_mul by lia. apply CInt.to_int_id. int_range.
Qed.

(** [startOfLine] on a scroll with a line in progress: the stored offsets,
    and past the last of them the end of the cell file. *)
Lemma startOfLine_open s ws pend lineno :
  holds_open s ws pend ->
  4 * Z.of_nat (length ws) <= CInt.int_max ->
  sizeof_Character * total_cells (ws ++ [(pend, false)]) <= CInt.int_max ->
  0 <= lineno ->
  exists s', startOfLine s lineno
             = Some (offset (ws ++ [(pend, false)]) (Z.to_nat lineno), s')
             /\ holds_open s' ws pend.
Proof.
  intros Hh Hn Hsz Hl. unfold startOfLine.
  destruct (Z.leb_spec lineno 0) as [H0|Hpos].
  - assert (lineno = 0) as -> by lia. exists s. split; [|exact Hh]. reflexivity.
  - rewrite (getLines_open s ws pend Hh Hn).
    destruct Hh as (Hcells & Hidx & Hfl).
    destruct (Z.leb_spec lineno (Z.of_nat (length ws))).
    + set (idx := if isMapped (index s) then index s else map_ (index s)).
      assert (Hidx' : file_holds idx (index_bytes ws)).
      { unfold idx. destruct (isMapped (index s)); [assumption|].
        apply file_holds_map. assumption. }
      rewrite to_int_size_t by lia.
      pose proof (index_bytes_length ws) as Hil.
      destruct (get_holds idx _ [] 4 ((lineno - 1) * 4) Hidx')
        as (i' & -> & Hi'); try lia.
      simpl. replace (Z.to_nat ((lineno - 1) * 4)) with (4 * (Z.to_nat lineno - 1))%nat by lia.
      change (Z.to_nat 4) with 4%nat. change (Pos.to_nat 4) with 4%nat.
      rewrite (index_chunk ws (Z.to_nat lineno - 1)) by lia.
      replace (S (Z.to_nat lineno - 1)) with (Z.to_nat lineno) by lia.
      rewrite app_nil_r, decode_encode_int.
      * simpl. rewrite offset_app by lia.
        eexists. split; [reflexivity|]. repeat split; simpl; try apply Hcells;
          try apply Hi'; try apply Hfl.
      * pose proof (offset_le (ws ++ [(pend, false)]) (Z.to_nat lineno)) as Ho.
        rewrite offset_app in Ho by lia.
        rewrite cell_bytes_length in Ho. lia.
    + exists s. split; [|repeat split; try apply Hcells; try apply Hidx; try apply Hfl].
      rewrite offset_all by (rewrite length_app; simpl; lia).
      unfold len. destruct Hcells as [_ ->]. reflexivity.
Qed.

Lemma holds_open_same_files s s' ws pend :
  holds_open s ws pend -> holds_open s' ws pend -> same_files s s'.
Proof.
  intros ([? ?] & [? ?] & [? ?]) ([? ?] & [? ?] & [? ?]).
  repeat split; congruence.
Qed.

(** Reads of any line, the one in progress included. *)
Lemma getLineLen_open s ws pend L cs wr :
  holds_open s ws pend ->
  4 * Z.of_nat (length ws) + 4 <= CInt.int_max ->
  sizeof_Character * total_cells (ws ++ [(pend, false)]) <= CInt.int_max ->
  (ws ++ [(pend, false)]) !! L = Some (cs, wr) ->
  exists s', getLineLen s (Z.of_nat L) = Some (Z.of_nat (length cs), s')
             /\ holds_open s' ws pend.
Proof.
  intros Hh Hn Hsz HL.
  pose proof (lookup_lt_Some _ _ _ HL) as Hlt. rewrite length_app in Hlt. simpl in Hlt.
  unfold getLineLen. rewrite CInt.to_int_id by int_range.
  destruct (startOfLine_open s ws pend (Z.of_nat L + 1) Hh ltac:(lia) Hsz ltac:(lia))
    as (s1 & -> & Hh1). simpl.
  destruct (startOfLine_open s1 ws pend (Z.of_nat L) Hh1 ltac:(lia) Hsz ltac:(lia))
    as (s2 & -> & Hh2). simpl.
  exists s2. split; [|exact Hh2]. do 2 f_equal.
  replace (Z.to_nat (Z.of_nat L + 1)) with (S L) by lia. rewrite Nat2Z.id.
  rewrite (offset_S _ L cs wr HL), array_bytes_length.
  set (ws' := ws ++ [(pend, false)]) in *.
  replace (offset ws' L + Z.of_nat (length cs) * sizeof_Character - offset ws' L)
    with (Z.of_nat (length cs) * sizeof_Character) by lia.
  pose proof (offset_le ws' (S L)) as Ho.
  rewrite (offset_S ws' L cs wr HL), array_bytes_length, cell_bytes_length in Ho.
  pose proof (offset_le ws' L) as Ho'.
  rewrite (CInt.to_int_id (Z.of_nat (length cs) * sizeof_Character)) by int_range.
  rewrite CInt.to_size_t_id by int_range.
  rewrite Z.div_mul by lia. apply CInt.to_int_id.
  assert (Z.of_nat (length cs) <= Z.of_nat (length cs) * sizeof_Character) by nia.
  int_range.
Qed.

(** The cells from the start of line [L] to the end of the cell file. *)
Definition cells_from (ws : list (list Character * bool)) (L : nat) : list Character :=
  concat (map fst (drop L ws)).

Lemma cell_bytes_cells ws : cell_bytes ws = array_bytes (concat (map fst ws)).
Proof.
  induction ws as [|w ws IH]; [reflexivity|].
  cbn [map concat]. rewrite array_bytes_app, <- IH. reflexivity.
Qed.

Lemma drop_offset ws L :
  drop (Z.to_nat (offset ws L)) (cell_bytes ws) = array_bytes (cells_from ws L).
Proof.
  unfold offset, cells_from. rewrite Nat2Z.id, <- cell_bytes_cells.
  unfold cell_bytes at 1. rewrite <- (take_drop L (chunks ws)) at 2.
  rewrite concat_app, drop_app_length.
  unfold cell_bytes, chunks. rewrite skipn_map. reflexivity.
Qed.

Lemma total_cells_cells ws : total_cells ws = Z.of_nat (length (concat (map fst ws))).
Proof.
  induction ws as [|w ws IH]; [reflexivity|].
  cbn [total_cells foldr map concat]. rewrite length_app. fold (total_cells ws). lia.
Qed.

Lemma getCells_open s ws pend L col n res :
  holds_open s ws pend ->
  4 * Z.of_nat (length ws) <= CInt.int_max ->
  sizeof_Character * total_cells (ws ++ [(pend, false)]) <= CInt.int_max ->
  (col + n <= length (cells_from (ws ++ [(pend, false)]) L))%nat ->
  exists s', getCells s (Z.of_nat L) (Z.of_nat col) (Z.of_nat n) res
             = Some (array_bytes (take n (drop col (cells_from (ws ++ [(pend, false)]) L)))
                     ++ drop (n * Z.to_nat sizeof_Character) res, s')
             /\ holds_open s' ws pend.
Proof.
  intros Hh Hn Hsz Hrange. set (ws' := ws ++ [(pend, false)]) in *.
  unfold getCells.
  destruct (startOfLine_open s ws pend (Z.of_nat L) Hh Hn Hsz ltac:(lia))
    as (s1 & -> & Hh1). fold ws'. cbn [mbind option_bind]. rewrite Nat2Z.id.
  pose proof (offset_le ws' L) as Ho. rewrite cell_bytes_length in Ho.
  pose proof (drop_offset ws' L) as Hd.
  assert (HlenL : Z.of_nat (length (cell_bytes ws'))
                  = offset ws' L + Z.of_nat (length (cells_from ws' L)) * sizeof_Character).
  { rewrite <- array_bytes_length, <- Hd, length_drop.
    pose proof (offset_le ws' L). lia. }
  rewrite cell_bytes_length in HlenL.
  assert (0 <= Z.of_nat n * sizeof_Character <= CInt.int_max) by nia.
  assert (0 <= offset ws' L + Z.of_nat col * sizeof_Character <= CInt.int_max) by nia.
  rewrite !to_int_size_t by assumption.
  destruct Hh1 as (Hcells & Hidx & Hfl). fold ws' in Hcells.
  destruct (get_holds (cells s1) _ res (Z.of_nat n * sizeof_Character)
              (offset ws' L + Z.of_nat col * sizeof_Character) Hcells)
    as (c' & -> & Hc'); try lia.
  { rewrite cell_bytes_length. nia. }
  cbn [mbind option_bind].
  replace (Z.to_nat (offset ws' L + Z.of_nat col * sizeof_Character))
    with (Z.to_nat (offset ws' L) + col * Z.to_nat sizeof_Character)%nat by nia.
  replace (Z.to_nat (Z.of_nat n * sizeof_Character))
    with (n * Z.to_nat sizeof_Character)%nat by nia.
  rewrite <- drop_drop, Hd, array_bytes_drop, array_bytes_take.
  eexists. split; [reflexivity|].
  split; [|split]; cbn [cells index lineflags]; [exact Hc'|exact Hidx|exact Hfl].
Qed.

Lemma write_all_holds_open ws :
  4 * Z.of_nat (length ws) <= CInt.int_max ->
  sizeof_Character * total_cells ws <= CInt.int_max ->
  exists s, write_all HistoryScrollFile_new ws = Some s /\ holds_open s ws [].
Proof.
  intros Hn Hsz.
  destruct (write_all_holds ws HistoryScrollFile_new [] holds_new Hn Hsz) as (s & Hw & Hh).
  exists s. split; [exact Hw|]. apply holds_open_nil. exact Hh.
Qed.

Lemma cells_from_snoc_nil ws wr L : cells_from (ws ++ [([], wr)]) L = cells_from ws L.
Proof.
  unfold cells_from. rewrite drop_app, !map_app, !concat_app.
  destruct (drop (L - length ws) [([], wr)]) as [|w [|w' l]] eqn:E.
  - simpl. apply app_nil_r.
  - assert (w = ([], wr)) as ->.
    { destruct (L - length ws)%nat; simpl in E; [congruence|].
      rewrite drop_nil in E. discriminate. }
    simpl. apply app_nil_r.
  - apply (f_equal length) in E. rewrite length_drop in E. simpl in E. lia.
Qed.

Lemma cells_from_lookup ws L cs wr :
  ws !! L = Some (cs, wr) -> cells_from ws L = cs ++ cells_from ws (S L).
Proof. intros H. unfold cells_from. rewrite (drop_S ws _ L H). reflexivity. Qed.

(** X10: the cells of a line that [addLine] has not ended yet are already
    part of the history: after [addCells] the line count is unchanged, and
    line number [getLines()] has the length of the cells added and reads back
    exactly those cells. *)
Theorem line_in_progress_is_readable ws text count res :
  4 * Z.of_nat (length ws) + 4 <= CInt.int_max ->
  sizeof_Character * (total_cells ws + count) <= CInt.int_max ->
  0 <= count <= Z.of_nat (length text) ->
  exists s s1,
    write_all HistoryScrollFile_new ws = Some s
    /\ addCells s text count = Some s1
    /\ getLines s1 = Z.of_nat (length ws)
    /\ (exists s2, getLineLen s1 (getLines s1) = Some (count, s2) /\ same_files s1 s2)
    /\ (exists s2, getCells s1 (getLines s1) 0 count res
                   = Some (array_bytes (take (Z.to_nat count) text)
                           ++ drop (Z.to_nat (count * sizeof_Character)) res, s2)
                   /\ same_files s1 s2).
Proof.
  intros Hn Hsz Hcount. pose proof (total_cells_nonneg ws) as Hnn.
  destruct (write_all_holds_open ws ltac:(lia) ltac:(nia)) as (s & Hw & Hh).
  destruct (addCells_open s ws [] text count Hh Hcount ltac:(simpl; nia))
    as (s1 & Ha & Hh1).
  cbn [app] in Hh1. set (pend := take (Z.to_nat count) text) in *.
  assert (Hlen : Z.of_nat (length pend) = count).
  { unfold pend. rewrite length_take. lia. }
  assert (Hsz1 : sizeof_Character * total_cells (ws ++ [(pend, false)]) <= CInt.int_max).
  { rewrite total_cells_app. cbn [total_cells foldr fst]. rewrite Hlen.
    replace (count + 0) with count by lia. exact Hsz. }
  pose proof (getLines_open s1 ws pend Hh1 ltac:(lia)) as Hgl.
  exists s, s1. split; [exact Hw|]. split; [exact Ha|]. split; [exact Hgl|].
  rewrite Hgl. split.
  - destruct (getLineLen_open s1 ws pend (length ws) pend false Hh1 Hn Hsz1
                ltac:(apply list_lookup_middle; reflexivity)) as (s2 & H2 & Hh2).
    rewrite Hlen in H2. exists s2. split; [exact H2|].
    exact (holds_open_same_files _ _ _ _ Hh1 Hh2).
  - assert (Hcf : cells_from (ws ++ [(pend, false)]) (length ws) = pend).
    { unfold cells_from. rewrite drop_app_length. simpl. apply app_nil_r. }
    destruct (getCells_open s1 ws pend (length ws) 0 (length pend) res Hh1
                ltac:(lia) Hsz1 ltac:(rewrite Hcf; simpl; lia)) as (s2 & H2 & Hh2).
    rewrite Hcf, drop_0, firstn_all, Hlen in H2. change (Z.of_nat 0) with 0 in H2.
    replace (length pend * Z.to_nat sizeof_Character)%nat
      with (Z.to_nat (count * sizeof_Character)) in H2 by nia.
    exists s2. split; [exact H2|].
    exact (holds_open_same_files _ _ _ _ Hh1 Hh2).
Qed.

(** X11: a line may be written in pieces.  Two [addCells] calls followed
    by [addLine] leave the three files with the same bytes as one
    [addCells] of the joined cells followed by [addLine]. *)
Theorem cells_added_in_pieces ws a b wr :
  4 * Z.of_nat (length ws) + 4 <= CInt.int_max ->
  sizeof_Character * (total_cells ws + Z.of_nat (length a) + Z.of_nat (length b))
    <= CInt.int_max ->
  exists s s1 s2,
    write_all HistoryScrollFile_new ws = Some s
    /\ (t1 ← addCells s a (Z.of_nat (length a));
        t2 ← addCells t1 b (Z.of_nat (length b));
        addLine t2 wr) = Some s1
    /\ write s (a ++ b, wr) = Some s2
    /\ same_files s1 s2.
Proof.
  intros Hn Hsz. pose proof (total_cells_nonneg ws) as Hnn.
  assert (Hn' : 4 * Z.of_nat (length (ws ++ [(a ++ b, wr)])) <= CInt.int_max).
  { rewrite length_app. simpl. lia. }
  assert (Hsz' : sizeof_Character * total_cells (ws ++ [(a ++ b, wr)]) <= CInt.int_max).
  { rewrite total_cells_app. cbn [total_cells foldr fst]. rewrite length_app.
    replace (total_cells ws + (Z.of_nat (length a + length b) + 0))
      with (total_cells ws + Z.of_nat (length a) + Z.of_nat (length b)) by lia.
    exact Hsz. }
  destruct (write_all_holds ws HistoryScrollFile_new [] holds_new ltac:(simpl; lia)
              ltac:(simpl; nia)) as (s & Hw & Hh).
  cbn [app] in Hh.
  destruct (addCells_open s ws [] a (Z.of_nat (length a)) (holds_open_nil _ _ Hh)
              ltac:(lia) ltac:(simpl; nia)) as (t1 & H1 & Hh1).
  rewrite Nat2Z.id, firstn_all in Hh1. cbn [app] in Hh1.
  destruct (addCells_open t1 ws a b (Z.of_nat (length b)) Hh1
              ltac:(lia) ltac:(nia)) as (t2 & H2 & Hh2).
  rewrite Nat2Z.id, firstn_all in Hh2.
  destruct (addLine_open t2 ws (a ++ b) wr Hh2 Hn' Hsz') as (s1 & H3 & Hh3).
  destruct (write_holds s ws (a ++ b, wr) Hh Hn' Hsz') as (s2 & H4 & Hh4).
  exists s, s1, s2. split; [exact Hw|]. split.
  { rewrite H1. cbn [mbind option_bind]. rewrite H2. exact H3. }
  split; [exact H4|]. exact (holds_same_files _ _ _ Hh3 Hh4).
Qed.

(** X12: [getCells] addresses the cell file from the start of the line and
    does not clip the column range to the line.  Reading [n] cells at column
    [col] of line [L] yields the cells [col .. col + n) counted from the
    start of line [L] through the rest of the history: the part of line [L]
    asked for when the range lies inside the line, and cells of the
    following lines when it runs past the line's end. *)
Theorem getCells_reads_from_line_start ws L col n res :
  4 * Z.of_nat (length ws) <= CInt.int_max ->
  sizeof_Character * total_cells ws <= CInt.int_max ->
  (col + n <= length (cells_from ws L))%nat ->
  exists s,
    write_all HistoryScrollFile_new ws = Some s
    /\ (exists s1, getCells s (Z.of_nat L) (Z.of_nat col) (Z.of_nat n) res
                   = Some (array_bytes (take n (drop col (cells_from ws L)))
                           ++ drop (n * Z.to_nat sizeof_Character) res, s1)
                   /\ same_files s s1)
    /\ forall cs wr, ws !! L = Some (cs, wr) -> (col + n <= length cs)%nat ->
         take n (drop col (cells_from ws L)) = take n (drop col cs).
Proof.
  intros Hn Hsz Hrange.
  destruct (write_all_holds_open ws Hn Hsz) as (s & Hw & Hh).
  exists s. split; [exact Hw|]. split.
  - assert (Hsz1 : sizeof_Character * total_cells (ws ++ [([], false)]) <= CInt.int_max).
    { rewrite total_cells_app. cbn [total_cells foldr fst length].
      replace (total_cells ws + (Z.of_nat 0 + 0)) with (total_cells ws) by lia.
      exact Hsz. }
    destruct (getCells_open s ws [] L col n res Hh Hn Hsz1
                ltac:(rewrite cells_from_snoc_nil; exact Hrange)) as (s1 & H1 & Hh1).
    rewrite cells_from_snoc_nil in H1.
    exists s1. split; [exact H1|]. exact (holds_open_same_files _ _ _ _ Hh Hh1).
  - intros cs wr HL Hin. rewrite (cells_from_lookup ws L cs wr HL).
    rewrite drop_app_le by lia. apply take_app_le. rewrite length_drop. lia.
Qed.

(** X13: the range test of [isWrappedLine] admits [lineno == getLines()],
    one line more than has a flag.  For that line no flag byte exists: the
    read stores nothing (or leaves the mapping), and the function returns an
    indeterminate value.  Any line number outside [0 .. getLines()] answers
    [false] without touching the files. *)
Theorem isWrappedLine_past_last_line ws :
  4 * Z.of_nat (length ws) <= CInt.int_max ->
  sizeof_Character * total_cells ws <= CInt.int_max ->
  exists s,
    write_all HistoryScrollFile_new ws = Some s
    /\ isWrappedLine s (getLines s) = None
    /\ forall lineno, lineno < 0 \/ getLines s < lineno ->
         isWrappedLine s lineno = Some (false, s).
Proof.
  intros Hn Hsz.
  destruct (write_all_holds ws HistoryScrollFile_new [] holds_new Hn Hsz) as (s & Hw & Hh).
  cbn [app] in Hh. exists s. split; [exact Hw|].
  pose proof (getLines_holds s ws Hh Hn) as Hgl. split.
  - unfold isWrappedLine. rewrite Hgl.
    destruct (Z.leb_spec 0 (Z.of_nat (length ws))); [|lia].
    destruct (Z.leb_spec (Z.of_nat (length ws)) (Z.of_nat (length ws))); [|lia].
    cbn [andb]. rewrite to_int_size_t by lia.
    destruct Hh as (_ & _ & [Hc Hl]).
    assert (Hfll : length (flag_bytes ws) = length ws)
      by (unfold flag_bytes; apply length_map).
    unfold get.
    set (f1 := {| _length := _length (lineflags s); _fileMap := _fileMap (lineflags s);
                  _readWriteBalance := CInt.to_int (_readWriteBalance (lineflags s) - 1);
                  contents := contents (lineflags s) |}).
    set (f2 := if negb (_fileMap f1) && (_readWriteBalance f1 <? MAP_THRESHOLD)
               then map_ f1 else f1).
    assert (H2 : contents f2 = flag_bytes ws /\ _length f2 = Z.of_nat (length ws)).
    { assert (H1 : file_holds f1 (flag_bytes ws)) by (split; assumption).
      unfold f2.
      destruct (negb (_fileMap f1) && (_readWriteBalance f1 <? MAP_THRESHOLD));
        [apply file_holds_map in H1|]; destruct H1 as [? H1]; rewrite Hfll in H1;
        split; assumption. }
    destruct H2 as [Hc2 Hl2]. rewrite Hc2, Hl2.
    destruct (_fileMap f2).
    + change (1 <=? 0) with false. cbn iota.
      destruct (Z.leb_spec 0 (Z.of_nat (length ws))); [|lia].
      destruct (Z.leb_spec (Z.of_nat (length ws) + 1) (Z.of_nat (length ws))); [lia|].
      reflexivity.
    + destruct (Z.ltb_spec (Z.of_nat (length ws)) 0); [lia|].
      change (1 <? 0) with false. cbn iota.
      rewrite Nat2Z.id, drop_ge by lia. reflexivity.
  - intros lineno Hout. unfold isWrappedLine.
    destruct (Z.leb_spec 0 lineno); [|reflexivity].
    destruct (Z.leb_spec lineno (getLines s)); [lia|]. reflexivity.
Qed.

(** *** When a file gets mapped *)

(** A run of reads of one file, each with a buffer of its size. *)
Fixpoint read_all (f : HistoryFile) (rs : list (Z * Z)) : option HistoryFile :=
  match rs with
  | [] => Some f
  | (size, loc) :: rs' =>
      '(f', _) ← get f (replicate (Z.to_nat size) Byte.x00) size loc;
      read_all f' rs'
  end.

Lemma read_all_mapped : forall rs f,
  Forall (fun r : Z * Z => 0 <= snd r /\ 0 <= fst r /\ snd r + fst r <= _length f) rs ->
  mmap_ok (_length f) = true ->
  CInt.in_int (_readWriteBalance f) ->
  CInt.int_min <= _readWriteBalance f - Z.of_nat (length rs) ->
  exists f',
    read_all f rs = Some f'
    /\ same_file f f'
    /\ _readWriteBalance f' = _readWriteBalance f - Z.of_nat (length rs)
    /\ isMapped f'
       = isMapped f
         || ((_readWriteBalance f - Z.of_nat (length rs) <? MAP_THRESHOLD)
             && (0 <? Z.of_nat (length rs))).
Proof.
  induction rs as [|[size loc] rs IH]; intros f Hrs Hok Hb Hlow.
  - exists f. split; [reflexivity|]. split; [apply same_file_refl|].
    cbn [length]. split; [lia|]. rewrite andb_false_r, orb_false_r. reflexivity.
  - inversion Hrs as [|? ? (Hloc & Hsize & Hin) Hrest]; subst. cbn [fst snd] in *.
    cbn [length] in Hlow. cbn [read_all]. unfold get.
    set (f1 := {| _length := _length f; _fileMap := _fileMap f;
                  _readWriteBalance := CInt.to_int (_readWriteBalance f - 1);
                  contents := contents f |}).
    assert (Hb1 : _readWriteBalance f1 = _readWriteBalance f - 1).
    { unfold f1. cbn [_readWriteBalance]. apply CInt.to_int_id. int_range. }
    set (f2 := if negb (_fileMap f1) && (_readWriteBalance f1 <? MAP_THRESHOLD)
               then map_ f1 else f1).
    assert (H2 : _length f2 = _length f /\ contents f2 = contents f
                 /\ _readWriteBalance f2 = _readWriteBalance f - 1
                 /\ _fileMap f2
                    = _fileMap f || (_readWriteBalance f - 1 <? MAP_THRESHOLD)).
    { unfold f2. rewrite Hb1. unfold map_. cbn [f1 _length _fileMap].
      destruct (_fileMap f); cbn [negb andb orb].
      - repeat split. exact Hb1.
      - destruct (_readWriteBalance f - 1 <? MAP_THRESHOLD); cbn [orb].
        + rewrite Hok. repeat split. exact Hb1.
        + repeat split. exact Hb1. }
    destruct H2 as (Hl2 & Hc2 & Hbal2 & Hmap2).
    assert (Hget : exists bytes,
      (if _fileMap f2
       then if size <=? 0 then Some (f2, replicate (Z.to_nat size) Byte.x00)
            else if (0 <=? loc) && (loc + size <=? _length f2)
                 then Some (f2, take (Z.to_nat size) (drop (Z.to_nat loc) (contents f2))
                                ++ drop (Z.to_nat size) (replicate (Z.to_nat size) Byte.x00))
                 else None
       else if loc <? 0 then Some (f2, replicate (Z.to_nat size) Byte.x00)
            else if size <? 0 then None
                 else Some (f2, take (Z.to_nat size) (drop (Z.to_nat loc) (contents f2))
                                ++ drop (length (take (Z.to_nat size)
                                                   (drop (Z.to_nat loc) (contents f2))))
                                     (replicate (Z.to_nat size) Byte.x00)))
      = Some (f2, bytes)).
    { rewrite Hl2.
      destruct (_fileMap f2).
      - destruct (size <=? 0); [eauto|].
        destruct (Z.leb_spec 0 loc); [|lia].
        destruct (Z.leb_spec (loc + size) (_length f)); [|lia]. eauto.
      - destruct (Z.ltb_spec loc 0); [lia|].
        destruct (Z.ltb_spec size 0); [lia|]. eauto. }
    destruct Hget as (bytes & ->). cbn [mbind option_bind].
    destruct (IH f2) as (f' & Hread & Hsame & Hbal & Hmap).
    { rewrite Hl2. exact Hrest. }
    { rewrite Hl2. exact Hok. }
    { rewrite Hbal2. int_range. }
    { rewrite Hbal2. lia. }
    exists f'. split; [exact Hread|]. split.
    { apply (same_file_trans f f2 f'); [|exact Hsame]. split; congruence. }
    cbn [length].
    split; [rewrite Hbal, Hbal2; lia|].
    rewrite Hmap. unfold isMapped. rewrite Hmap2, Hbal2.
    destruct (_fileMap f); cbn [orb]; [reflexivity|].
    destruct (Z.ltb_spec (_readWriteBalance f - 1) MAP_THRESHOLD);
      destruct (Z.ltb_spec (_readWriteBalance f - 1 - Z.of_nat (length rs)) MAP_THRESHOLD);
      destruct (Z.ltb_spec (_readWriteBalance f - Z.of_nat (S (length rs))) MAP_THRESHOLD);
      destruct (Z.ltb_spec 0 (Z.of_nat (length rs)));
      destruct (Z.ltb_spec 0 (Z.of_nat (S (length rs))));
      cbn [orb andb]; try reflexivity; lia.
Qed.

(** X14: a history file is mapped when reads outnumber writes.  A write
    drops the mapping and counts up; a read counts down and maps the file as
    soon as the balance is below [MAP_THRESHOLD].  So after a write and then
    [k > 0] reads inside the file the file is mapped exactly when the balance
    after the write, minus [k], is below the threshold (given that [mmap]
    succeeds and the balance stays an [int]); the reads leave bytes and length
    alone. *)
Theorem mapped_when_reads_outnumber_writes f data rs :
  0 <= _length f -> _length f + Z.of_nat (length data) <= CInt.int_max ->
  CInt.in_int (_readWriteBalance f + 1) ->
  CInt.int_min <= _readWriteBalance f + 1 - Z.of_nat (length rs) ->
  rs <> [] ->
  Forall (fun r : Z * Z => 0 <= snd r /\ 0 <= fst r
                           /\ snd r + fst r <= _length f + Z.of_nat (length data)) rs ->
  mmap_ok (_length f + Z.of_nat (length data)) = true ->
  exists f1 f2,
    add f data (Z.of_nat (length data)) = Some f1
    /\ isMapped f1 = false
    /\ _readWriteBalance f1 = _readWriteBalance f + 1
    /\ _length f1 = _length f + Z.of_nat (length data)
    /\ read_all f1 rs = Some f2
    /\ same_file f1 f2
    /\ isMapped f2
       = (_readWriteBalance f + 1 - Z.of_nat (length rs) <? MAP_THRESHOLD).
Proof.
  intros Hlen Hfit Hbal Hlow Hne Hrs Hok.
  assert (Hadd : exists f1,
    add f data (Z.of_nat (length data)) = Some f1
    /\ _fileMap f1 = false
    /\ _readWriteBalance f1 = _readWriteBalance f + 1
    /\ _length f1 = _length f + Z.of_nat (length data)).
  { unfold add.
    set (f0 := if _fileMap f then unmap f else f).
    assert (H0 : _length f0 = _length f /\ _fileMap f0 = false
                 /\ _readWriteBalance f0 = _readWriteBalance f).
    { unfold f0, unmap. destruct (_fileMap f) eqn:E; cbn [_length _fileMap _readWriteBalance];
        auto. }
    destruct H0 as (Hl0 & Hm0 & Hb0). rewrite Hl0, Hm0, Hb0.
    destruct (Z.ltb_spec (_length f) 0); [lia|].
    destruct (Z.ltb_spec (Z.of_nat (length data)) 0); [lia|]. cbn [orb].
    destruct (Z.ltb_spec (Z.of_nat (length data)) (Z.of_nat (length data))); [lia|].
    eexists. split; [reflexivity|]. cbn [_fileMap _readWriteBalance _length].
    split; [reflexivity|]. split; apply CInt.to_int_id; [exact Hbal|int_range]. }
  destruct Hadd as (f1 & Hadd & Hm1 & Hb1 & Hl1).
  destruct (read_all_mapped rs f1) as (f2 & Hread & Hsame & _ & Hmap).
  { rewrite Hl1. exact Hrs. }
  { rewrite Hl1. exact Hok. }
  { rewrite Hb1. exact Hbal. }
  { rewrite Hb1. exact Hlow. }
  exists f1, f2. split; [exact Hadd|]. split; [exact Hm1|]. split; [exact Hb1|].
  split; [exact Hl1|]. split; [exact Hread|]. split; [exact Hsame|].
  rewrite Hmap. unfold isMapped. rewrite Hm1, Hb1. cbn [orb].
  destruct rs as [|r rs']; [congruence|].
  destruct (Z.ltb_spec 0 (Z.of_nat (length (r :: rs')))); [|simpl length in *; lia].
  apply andb_true_r.
Qed.

End Platform.

(** *** A concrete layout

    Values for the parameters: a [Character] of twelve bytes -- code point
    (two bytes), rendition, one byte of padding, and four bytes for each
    colour -- a mapping threshold of -1000 and an [mmap] that succeeds on
    every non-empty file. *)
Definition sample_sizeof_Character : Z := 12.

Definition sample_Character_bytes (c : Character) : list Byte.byte :=
  [byte_of_Z (character c); byte_of_Z (character c / 2 ^ 8);
   byte_of_Z (rendition c); Byte.x00]
  ++ encode_int (foregroundColor c) ++ encode_int (backgroundColor c).

(** The inverse of [sample_Character_bytes]. *)
Definition sample_bytes_Character (bs : list Byte.byte) : Character :=
  match bs with
  | b0 :: b1 :: b2 :: _ :: rest =>
      {| character := Z_of_byte b0 + Z_of_byte b1 * 2 ^ 8;
         rendition := Z_of_byte b2;
         foregroundColor := default 0 (decode_int (take 4 rest));
         backgroundColor := default 0 (decode_int (take 4 (drop 4 rest))) |}
  | _ => {| character := 0; rendition := 0; foregroundColor := 0; backgroundColor := 0 |}
  end.

Definition sample_MAP_THRESHOLD : Z := -1000.
Definition sample_mmap_ok (length : Z) : bool := 0 <? length.

Lemma sample_Character_bytes_length c :
  Z.of_nat (length (sample_Character_bytes c)) = sample_sizeof_Character.
Proof. reflexivity. Qed.

(** The lines "foo" (wrapped) and "bar" (not wrapped) of the round-trip
    scenario. *)
Definition cell (ch : Z) : Character :=
  {| character := ch; rendition := 0; foregroundColor := 1; backgroundColor := 0 |}.
Definition line_foo : list Character := [cell 102; cell 111; cell 111].
Definition line_bar : list Character := [cell 98; cell 97; cell 114].

Lemma file_append_read_roundtrip_witness :
  exists s,
    write_all sample_sizeof_Character sample_Character_bytes HistoryScrollFile_new
      [(line_foo, true); (line_bar, false)] = Some s
    /\ getLines s = 2
    /\ (exists s1, getLineLen sample_MAP_THRESHOLD sample_mmap_ok
                     sample_sizeof_Character s 0 = Some (3, s1))
    /\ (exists s1, isWrappedLine sample_MAP_THRESHOLD sample_mmap_ok s 0
                   = Some (true, s1))
    /\ (exists s1, getCells sample_MAP_THRESHOLD sample_mmap_ok
                     sample_sizeof_Character s 1 0 3 []
                   = Some (array_bytes sample_Character_bytes line_bar, s1)).
Proof.
  destruct (file_append_read_roundtrip sample_MAP_THRESHOLD sample_mmap_ok
              sample_sizeof_Character sample_Character_bytes
              ltac:(unfold sample_sizeof_Character; lia)
              sample_Character_bytes_length
              [(line_foo, true); (line_bar, false)]
              ltac:(unfold CInt.int_max; simpl; lia)
              ltac:(unfold CInt.int_max, sample_sizeof_Character; simpl; lia))
    as (s & Hw & Hr).
  exists s. split; [exact Hw|].
  destruct (Hr s ltac:(repeat split)) as (Hn & Hl).
  split; [exact Hn|].
  destruct (Hl 0%nat line_foo true [] eq_refl) as ((s1 & H1 & _) & (s2 & H2 & _) & _).
  destruct (Hl 1%nat line_bar false [] eq_refl) as (_ & _ & (s3 & H3 & _)).
  split; [exists s1; exact H1|]. split; [exists s2; exact H2|].
  exists s3. rewrite app_nil_r in H3. exact H3.
Defined.

(** *** Concrete instances of the further properties *)

Lemma sample_sizeof_Character_pos : 0 < sample_sizeof_Character.
Proof. unfold sample_sizeof_Character. lia. Qed.

Definition sample_write_all : list (list Character * bool) -> option HistoryScrollFile :=
  write_all sample_sizeof_Character sample_Character_bytes HistoryScrollFile_new.
Definition sample_addCells : HistoryScrollFile -> list Character -> Z
    -> option HistoryScrollFile :=
  addCells sample_sizeof_Character sample_Character_bytes.
Definition sample_getLineLen : HistoryScrollFile -> Z -> option (Z * HistoryScrollFile) :=
  getLineLen sample_MAP_THRESHOLD sample_mmap_ok sample_sizeof_Character.
Definition sample_isWrappedLine : HistoryScrollFile -> Z
    -> option (bool * HistoryScrollFile) :=
  isWrappedLine sample_MAP_THRESHOLD sample_mmap_ok.
Definition sample_getCells : HistoryScrollFile -> Z -> Z -> Z -> list Byte.byte
    -> option (list Byte.byte * HistoryScrollFile) :=
  getCells sample_MAP_THRESHOLD sample_mmap_ok sample_sizeof_Character.
Definition sample_array_bytes : list Character -> list Byte.byte :=
  array_bytes sample_Character_bytes.

Lemma reads_leave_files_unchanged_witness :
  exists s s1 bytes,
    sample_write_all [(line_foo, true); (line_bar, false)] = Some s
    /\ sample_getCells s 1 1 2 [] = Some (bytes, s1)
    /\ same_files s s1.
Proof.
  do 3 eexists. split; [vm_compute; reflexivity|].
  split; [vm_compute; reflexivity|].
  apply (reads_leave_files_unchanged sample_MAP_THRESHOLD sample_mmap_ok
           sample_sizeof_Character).
  right. right. exists 1, 1, 2, []. eexists. vm_compute. reflexivity.
Defined.

Lemma line_in_progress_is_readable_witness :
  exists s s1,
    sample_write_all [(line_foo, true)] = Some s
    /\ sample_addCells s line_bar 2 = Some s1
    /\ getLines s1 = 1
    /\ (exists s2, sample_getLineLen s1 1 = Some (2, s2))
    /\ (exists s2, sample_getCells s1 1 0 2 []
                   = Some (sample_array_bytes [cell 98; cell 97], s2)).
Proof.
  destruct (line_in_progress_is_readable sample_MAP_THRESHOLD sample_mmap_ok
              sample_sizeof_Character sample_Character_bytes
              sample_sizeof_Character_pos sample_Character_bytes_length
              [(line_foo, true)] line_bar 2 [])
    as (s & s1 & Hw & Ha & Hgl & (s2 & Hlen & _) & (s3 & Hcells & _)).
  - unfold CInt.int_max. simpl. lia.
  - unfold CInt.int_max, sample_sizeof_Character. simpl. lia.
  - simpl. lia.
  - exists s, s1. split; [exact Hw|]. split; [exact Ha|]. split; [exact Hgl|].
    rewrite Hgl in Hlen, Hcells.
    split; [exists s2; exact Hlen|]. exists s3.
    rewrite drop_nil, app_nil_r in Hcells. exact Hcells.
Defined.

Lemma cells_added_in_pieces_witness :
  exists s s1 s2,
    sample_write_all [(line_foo, true)] = Some s
    /\ (t1 ← sample_addCells s [cell 98] 1;
        t2 ← sample_addCells t1 [cell 97; cell 114] 2;
        addLine t2 false) = Some s1
    /\ write sample_sizeof_Character sample_Character_bytes s (line_bar, false) = Some s2
    /\ same_files s1 s2.
Proof.
  apply (cells_added_in_pieces sample_sizeof_Character sample_Character_bytes
           sample_sizeof_Character_pos sample_Character_bytes_length
           [(line_foo, true)] [cell 98] [cell 97; cell 114] false).
  - unfold CInt.int_max. simpl. lia.
  - unfold CInt.int_max, sample_sizeof_Character. simpl. lia.
Defined.

Lemma getCells_reads_from_line_start_witness :
  exists s,
    sample_write_all [(line_foo, true); (line_bar, false)] = Some s
    /\ (exists s1, sample_getCells s 0 2 3 []
                   = Some (sample_array_bytes [cell 111; cell 98; cell 97], s1))
    /\ (exists s1, sample_getCells s 1 1 2 []
                   = Some (sample_array_bytes [cell 97; cell 114], s1)).
Proof.
  destruct (getCells_reads_from_line_start sample_MAP_THRESHOLD sample_mmap_ok
              sample_sizeof_Character sample_Character_bytes
              sample_sizeof_Character_pos sample_Character_bytes_length
              [(line_foo, true); (line_bar, false)] 0 2 3 [])
    as (s & Hw & (s1 & H1 & _) & _).
  - unfold CInt.int_max. simpl. lia.
  - unfold CInt.int_max, sample_sizeof_Character. simpl. lia.
  - simpl. lia.
  - destruct (getCells_reads_from_line_start sample_MAP_THRESHOLD sample_mmap_ok
                sample_sizeof_Character sample_Character_bytes
                sample_sizeof_Character_pos sample_Character_bytes_length
                [(line_foo, true); (line_bar, false)] 1 1 2 [])
      as (s' & Hw' & (s2 & H2 & _) & _).
    + unfold CInt.int_max. simpl. lia.
    + unfold CInt.int_max, sample_sizeof_Character. simpl. lia.
    + simpl. lia.
    + assert (s' = s) as -> by congruence.
      exists s. split; [exact Hw|].
      rewrite drop_nil, app_nil_r in H1, H2.
      split; [exists s1; exact H1|exists s2; exact H2].
Defined.

Lemma isWrappedLine_past_last_line_witness :
  exists s,
    sample_write_all [(line_foo, true); (line_bar, false)] = Some s
    /\ sample_isWrappedLine s 2 = None
    /\ sample_isWrappedLine s 3 = Some (false, s)
    /\ sample_isWrappedLine s (-1) = Some (false, s).
Proof.
  destruct (isWrappedLine_past_last_line sample_MAP_THRESHOLD sample_mmap_ok
              sample_sizeof_Character sample_Character_bytes
              sample_sizeof_Character_pos sample_Character_bytes_length
              [(line_foo, true); (line_bar, false)])
    as (s & Hw & Hat & Hout).
  - unfold CInt.int_max. simpl. lia.
  - unfold CInt.int_max, sample_sizeof_Character. simpl. lia.
  - exists s. split; [exact Hw|].
    assert (Hgl : (s' ← sample_write_all [(line_foo, true); (line_bar, false)];
                   Some (getLines s')) = Some 2) by (vm_compute; reflexivity).
    unfold sample_write_all in Hgl. rewrite Hw in Hgl.
    cbn [mbind option_bind] in Hgl. injection Hgl as Hgl.
    rewrite Hgl in Hat, Hout.
    split; [exact Hat|]. split; apply Hout; lia.
Defined.

(** With a threshold of -2: one write, then four reads. *)
Lemma mapped_when_reads_outnumber_writes_witness :
  exists f1 f2,
    add HistoryFile_new [Byte.x01; Byte.x02; Byte.x03] 3 = Some f1
    /\ isMapped f1 = false
    /\ read_all (-2) sample_mmap_ok f1 [(1, 0); (2, 1); (3, 0); (1, 2)] = Some f2
    /\ same_file f1 f2
    /\ isMapped f2 = true.
Proof.
  destruct (mapped_when_reads_outnumber_writes (-2) sample_mmap_ok HistoryFile_new
              [Byte.x01; Byte.x02; Byte.x03] [(1, 0); (2, 1); (3, 0); (1, 2)])
    as (f1 & f2 & Hadd & Hm1 & _ & _ & Hread & Hsame & Hm2).
  - simpl. lia.
  - unfold CInt.int_max. simpl. lia.
  - unfold CInt.in_int, CInt.int_min, CInt.int_max. simpl. lia.
  - unfold CInt.int_min. simpl. lia.
  - discriminate.
  - repeat constructor; simpl; lia.
  - reflexivity.
  - exists f1, f2. split; [exact Hadd|]. split; [exact Hm1|].
    split; [exact Hread|]. split; [exact Hsame|exact Hm2].
Defined.

End FileStore.

(** ** History types: the stores as heap objects and their reconfiguration *)

Module HistoryTypes.

Section Types.

(** The parameters of the two stores (see [Compact] and [FileStore]) and the
    value of a default-constructed [Character] ([Character.h]). *)
Variable blockLength : Z.
Variable sizeof_CharacterFormat : Z.
Variable sizeof_CompactHistoryLine : Z.
Variable MAP_THRESHOLD : Z.
Variable mmap_ok : Z -> bool.
Variable sizeof_Character : Z.
Variable Character_bytes : Character -> list Byte.byte.
Variable bytes_Character : list Byte.byte -> Character.
Variable Character_default : Character.

(** Reasonable line size *)
Definition LINE_SIZE : Z := 1024.

(** An object of one of the three classes derived from [HistoryScroll]. *)
Inductive HistoryScroll :=
| HistoryScrollNone
| HistoryScrollFile (f : FileStore.HistoryScrollFile)
| CompactHistoryScroll (c : Compact.CompactHistoryScroll).

(** The classes [dynamic_cast] is asked about. *)
Inductive Class :=
| Class_HistoryScroll
| Class_HistoryScrollNone
| Class_HistoryScrollFile
| Class_CompactHistoryScroll
| Class_HistoryFile.

Definition dynamic_type (o : HistoryScroll) : Class :=
  match o with
  | HistoryScrollNone => Class_HistoryScrollNone
  | HistoryScrollFile _ => Class_HistoryScrollFile
  | CompactHistoryScroll _ => Class_CompactHistoryScroll
  end.

(** Modelled from the spec: the class declarations of [History.h].  The three
    scrolls derive from [HistoryScroll]; [HistoryFile] is the byte log that a
    file-backed scroll owns three of as members, and no scroll derives from
    it. *)
Definition derives (c base : Class) : bool :=
  match base, c with
  | Class_HistoryScroll, (Class_HistoryScroll | Class_HistoryScrollNone
                          | Class_HistoryScrollFile | Class_CompactHistoryScroll) => true
  | Class_HistoryScrollNone, Class_HistoryScrollNone => true
  | Class_HistoryScrollFile, Class_HistoryScrollFile => true
  | Class_CompactHistoryScroll, Class_CompactHistoryScroll => true
  | Class_HistoryFile, Class_HistoryFile => true
  | _, _ => false
  end.

(** The heap of scroll objects.  An object is identified by its position;
    a destroyed object leaves [None] behind and identifiers are not reused,
    so equal identifiers mean the very same object. *)
Abbreviation Heap := (list (option HistoryScroll)).

Definition heap_get (h : Heap) (p : nat) : option HistoryScroll :=
  match h !! p with
  | Some (Some o) => Some o
  | _ => None
  end.

(** [new T(...)] *)
Definition heap_new (h : Heap) (o : HistoryScroll) : Heap * nat :=
  (h ++ [Some o], length h).

(** [delete p] for a pointer to a live object. *)
Definition heap_delete (h : Heap) (p : nat) : option Heap :=
  match heap_get h p with
  | Some _ => Some (<[p := None]> h)
  | None => None
  end.

(** [dynamic_cast<target*>(o)] on a live object: does the cast succeed? *)
Definition dynamic_cast (target : Class) (o : HistoryScroll) : bool :=
  derives (dynamic_type o) target.

(** *** The virtual interface of [HistoryScroll] *)

Definition getLines (o : HistoryScroll) : Z :=
  match o with
  | HistoryScrollNone => 0
  | HistoryScrollFile f => FileStore.getLines f
  | CompactHistoryScroll c => Compact.getLines c
  end.

Definition getLineLen (o : HistoryScroll) (lineno : Z) : option (Z * HistoryScroll) :=
  match o with
  | HistoryScrollNone => Some (0, o)
  | HistoryScrollFile f =>
      '(n, f') ← FileStore.getLineLen MAP_THRESHOLD mmap_ok sizeof_Character f lineno;
      Some (n, HistoryScrollFile f')
  | CompactHistoryScroll c =>
      n ← Compact.getLineLen c lineno; Some (n, o)
  end.

Definition isWrappedLine (o : HistoryScroll) (lineno : Z) : option (bool * HistoryScroll) :=
  match o with
  | HistoryScrollNone => Some (false, o)
  | HistoryScrollFile f =>
      '(w, f') ← FileStore.isWrappedLine MAP_THRESHOLD mmap_ok f lineno;
      Some (w, HistoryScrollFile f')
  | CompactHistoryScroll c =>
      w ← Compact.isWrappedLine c lineno; Some (w, o)
  end.

(** The [Character] array that a memory of bytes holds. *)
Fixpoint array_of_bytes (n : nat) (bs : list Byte.byte) : list Character :=
  match n with
  | O => []
  | S n' =>
      bytes_Character (take (Z.to_nat sizeof_Character) bs)
      :: array_of_bytes n' (drop (Z.to_nat sizeof_Character) bs)
  end.

Definition getCells (o : HistoryScroll) (lineno colno count : Z) (res : list Character)
  : option (list Character * HistoryScroll) :=
  match o with
  | HistoryScrollNone => Some (res, o)
  | HistoryScrollFile f =>
      '(bs, f') ← FileStore.getCells MAP_THRESHOLD mmap_ok sizeof_Character f
                    lineno colno count (FileStore.array_bytes Character_bytes res);
      Some (array_of_bytes (length res) bs, HistoryScrollFile f')
  | CompactHistoryScroll c =>
      cs ← Compact.getCells c lineno colno count res; Some (cs, o)
  end.

Definition addCells (o : HistoryScroll) (text : list Character) (count : Z)
  : option HistoryScroll :=
  match o with
  | HistoryScrollNone => Some o
  | HistoryScrollFile f =>
      f' ← FileStore.addCells sizeof_Character Character_bytes f text count;
      Some (HistoryScrollFile f')
  | CompactHistoryScroll c =>
      c' ← Compact.addCells blockLength sizeof_CharacterFormat
              sizeof_CompactHistoryLine c text count;
      Some (CompactHistoryScroll c')
  end.

Definition addLine (o : HistoryScroll) (previousWrapped : bool) : option HistoryScroll :=
  match o with
  | HistoryScrollNone => Some o
  | HistoryScrollFile f =>
      f' ← FileStore.addLine f previousWrapped; Some (HistoryScrollFile f')
  | CompactHistoryScroll c =>
      c' ← Compact.addLine c previousWrapped; Some (CompactHistoryScroll c')
  end.

(** *** [scroll] of the three history types *)

(** [HistoryTypeNone::scroll]: [delete old; return new HistoryScrollNone();] *)
Definition HistoryTypeNone_scroll (h : Heap) (old : option nat) : option (Heap * nat) :=
  h1 ← match old with
       | Some p => heap_delete h p
       | None => Some h
       end;
  Some (heap_new h1 HistoryScrollNone).

(** The copy loop of [HistoryTypeFile::scroll], from line [i] on.  [line] is
    the buffer of [LINE_SIZE] characters declared before the loop; a longer
    line goes through a scratch buffer allocated for it. *)
Fixpoint copy_lines (n : nat) (i : Z) (line : list Character)
    (old newScroll : HistoryScroll) : option (HistoryScroll * HistoryScroll) :=
  match n with
  | O => Some (old, newScroll)
  | S n' =>
      '(size, old1) ← getLineLen old i;
      if size >? LINE_SIZE then
        let tmp_line := replicate (Z.to_nat size) Character_default in
        '(tmp_line', old2) ← getCells old1 i 0 size tmp_line;
        new1 ← addCells newScroll tmp_line' size;
        '(w, old3) ← isWrappedLine old2 i;
        new2 ← addLine new1 w;
        copy_lines n' (i + 1) line old3 new2
      else
        '(line', old2) ← getCells old1 i 0 size line;
        new1 ← addCells newScroll line' size;
        '(w, old3) ← isWrappedLine old2 i;
        new2 ← addLine new1 w;
        copy_lines n' (i + 1) line' old3 new2
  end.

(** [HistoryTypeFile::scroll].  The test that is meant to recognise a store
    that is file-backed already casts to [HistoryFile]. *)
Definition HistoryTypeFile_scroll (h : Heap) (old : option nat) : option (Heap * nat) :=
  match old with
  | Some p =>
      o ← heap_get h p;
      if dynamic_cast Class_HistoryFile o then Some (h, p)
      else
        let '(h1, q) := heap_new h (HistoryScrollFile FileStore.HistoryScrollFile_new) in
        '(_, newScroll) ← copy_lines (Z.to_nat (getLines o)) 0
                            (replicate (Z.to_nat LINE_SIZE) Character_default) o
                            (HistoryScrollFile FileStore.HistoryScrollFile_new);
        h2 ← heap_delete (<[q := Some newScroll]> h1) p;
        Some (h2, q)
  | None =>
      Some (heap_new h (HistoryScrollFile FileStore.HistoryScrollFile_new))
  end.

(** [CompactHistoryType::scroll] of a type with [m_nbLines] lines. *)
Definition CompactHistoryType_scroll (m_nbLines : Z) (h : Heap) (old : option nat)
  : option (Heap * nat) :=
  match old with
  | Some p =>
      o ← heap_get h p;
      match o with
      | CompactHistoryScroll oldBuffer =>
          c ← Compact.setMaxNbLines blockLength oldBuffer m_nbLines;
          Some (<[p := Some (CompactHistoryScroll c)]> h, p)
      | _ =>
          h1 ← heap_delete h p;
          c ← Compact.CompactHistoryScroll_new blockLength m_nbLines;
          Some (heap_new h1 (CompactHistoryScroll c))
      end
  | None =>
      c ← Compact.CompactHistoryScroll_new blockLength m_nbLines;
      Some (heap_new h (CompactHistoryScroll c))
  end.

(** *** Properties of [scroll] *)

Hypothesis blockLength_pos : 0 < blockLength.
Hypothesis sizeof_line_fits : 0 < sizeof_CompactHistoryLine <= blockLength.
Hypothesis sizeof_format_pos : 0 < sizeof_CharacterFormat.

Lemma heap_get_lt h p o : heap_get h p = Some o -> (p < length h)%nat.
Proof.
  unfold heap_get. destruct (h !! p) as [[o'|]|] eqn:E; try discriminate.
  intros _. eapply lookup_lt_Some. exact E.
Qed.

Lemma heap_get_new h o : heap_get (fst (heap_new h o)) (snd (heap_new h o)) = Some o.
Proof.
  unfold heap_new, heap_get. cbn [fst snd].
  rewrite lookup_app_r by lia. rewrite Nat.sub_diag. reflexivity.
Qed.

(** A compact scroll asked to become compact is kept: same object, new
    capacity, the last lines that fit. *)
Lemma CompactHistoryType_scroll_compact m_nbLines h p c :
  heap_get h p = Some (CompactHistoryScroll c) ->
  Compact.store_inv blockLength c ->
  0 <= CInt.to_int m_nbLines ->
  exists c',
    CompactHistoryType_scroll m_nbLines h (Some p)
    = Some (<[p := Some (CompactHistoryScroll c')]> h, p)
    /\ Compact._maxLineCount c' = m_nbLines
    /\ Compact.lines c'
       = drop (length (Compact.lines c) - Z.to_nat (CInt.to_int m_nbLines))
              (Compact.lines c).
Proof.
  intros Hget Hinv Hn. unfold CompactHistoryType_scroll. rewrite Hget. simpl.
  destruct (Compact.setMaxNbLines_inv blockLength c m_nbLines Hinv Hn)
    as (c' & -> & _ & Hl & Hm).
  simpl. exists c'. auto.
Qed.

(** [HistoryTypeNone::scroll] destroys the old object and returns a new
    one. *)
Lemma HistoryTypeNone_scroll_fresh h old h' q :
  HistoryTypeNone_scroll h old = Some (h', q) ->
  old <> Some q
  /\ heap_get h' q = Some HistoryScrollNone
  /\ forall p, old = Some p -> heap_get h' p = None.
Proof.
  unfold HistoryTypeNone_scroll. destruct old as [p|]; simpl.
  - unfold heap_delete. destruct (heap_get h p) as [o|] eqn:E; simpl; [|discriminate].
    pose proof (heap_get_lt _ _ _ E) as Hlt.
    intros [= <- <-]. rewrite length_insert. split; [|split].
    + intros [= ->]. lia.
    + unfold heap_get. rewrite lookup_app_r by (rewrite length_insert; lia).
      rewrite length_insert, Nat.sub_diag. reflexivity.
    + intros p' [= <-]. unfold heap_get.
      rewrite lookup_app_l by (rewrite length_insert; lia).
      rewrite list_lookup_insert_eq by lia. reflexivity.
  - intros [= <- <-]. split; [discriminate|]. split; [|discriminate].
    exact (heap_get_new h HistoryScrollNone).
Qed.

(** C4 (as amended): a compact store asked to become compact is kept -- the
    call returns the very same object with its capacity set to the requested
    one and its lines cut down to the last ones that fit, so untouched when
    they all fit.  A request for the kind None never returns the old object:
    by design it destroys whatever store it is given and returns a new empty
    one. *)
Theorem scroll_same_kind :
  (forall m_nbLines h p m ops c,
     heap_get h p = Some (CompactHistoryScroll c) ->
     Compact.run_new blockLength sizeof_CharacterFormat sizeof_CompactHistoryLine m ops
     = Some c ->
     0 <= CInt.to_int m_nbLines ->
     exists c',
       CompactHistoryType_scroll m_nbLines h (Some p)
       = Some (<[p := Some (CompactHistoryScroll c')]> h, p)
       /\ Compact._maxLineCount c' = m_nbLines
       /\ Compact.lines c'
          = drop (length (Compact.lines c) - Z.to_nat (CInt.to_int m_nbLines))
                 (Compact.lines c))
  /\ (forall h old h' q,
        HistoryTypeNone_scroll h old = Some (h', q) ->
        old <> Some q
        /\ heap_get h' q = Some HistoryScrollNone
        /\ forall p, old = Some p -> heap_get h' p = None).
Proof.
  split.
  - intros m_nbLines h p m ops c Hget Hrun Hn.
    apply CompactHistoryType_scroll_compact; [exact Hget| |exact Hn].
    exact (Compact.run_new_inv blockLength sizeof_CharacterFormat
             sizeof_CompactHistoryLine blockLength_pos sizeof_line_fits
             sizeof_format_pos m ops c Hrun).
  - exact HistoryTypeNone_scroll_fresh.
Qed.

(** A store of another kind asked to become compact is destroyed and
    replaced by an empty compact scroll: nothing is copied. *)
Lemma CompactHistoryType_scroll_other m_nbLines h p o h' q :
  heap_get h p = Some o ->
  dynamic_cast Class_CompactHistoryScroll o = false ->
  CompactHistoryType_scroll m_nbLines h (Some p) = Some (h', q) ->
  exists c, heap_get h' q = Some (CompactHistoryScroll c) /\ Compact.getLines c = 0.
Proof.
  intros Hget Hcast. unfold CompactHistoryType_scroll. rewrite Hget. simpl.
  assert (Hcase :
    (h1 ← heap_delete h p;
     c ← Compact.CompactHistoryScroll_new blockLength m_nbLines;
     Some (heap_new h1 (CompactHistoryScroll c))) = Some (h', q) ->
    exists c, heap_get h' q = Some (CompactHistoryScroll c) /\ Compact.getLines c = 0).
  { destruct (heap_delete h p) as [h1|]; simpl; [|discriminate].
    destruct (Compact.CompactHistoryScroll_new blockLength m_nbLines) as [c|] eqn:E;
      simpl; [|discriminate].
    intros [= <- <-]. exists c. split.
    - exact (heap_get_new h1 (CompactHistoryScroll c)).
    - destruct (Compact.CompactHistoryScroll_new_Some blockLength _ _ E)
        as (_ & Hl & _).
      unfold Compact.getLines. rewrite Hl. reflexivity. }
  destruct o; [exact Hcase|exact Hcase|discriminate].
Qed.

(** No scroll object passes the test at the head of
    [HistoryTypeFile::scroll], so the function never returns [old]. *)
Lemma HistoryTypeFile_scroll_fresh h old h' q :
  HistoryTypeFile_scroll h old = Some (h', q) -> old <> Some q.
Proof.
  unfold HistoryTypeFile_scroll. destruct old as [p|]; [|discriminate].
  destruct (heap_get h p) as [o|] eqn:E; cbn [mbind option_bind]; [|discriminate].
  pose proof (heap_get_lt _ _ _ E) as Hlt.
  assert (dynamic_cast Class_HistoryFile o = false) as -> by (destruct o; reflexivity).
  cbn [heap_new].
  destruct (copy_lines _ _ _ _ _) as [[? newScroll]|]; cbn [mbind option_bind];
    [|discriminate].
  destruct (heap_delete _ _); simpl; [|discriminate].
  intros [= _ <-] [= ->]. lia.
Qed.

(** *** Migration to a file-backed store *)

Hypothesis sizeof_Character_pos : 0 < sizeof_Character.
Hypothesis Character_bytes_length :
  forall c, Z.of_nat (length (Character_bytes c)) = sizeof_Character.

(** The scrolls in [P] answer reads like a history made of the lines
    [kept], and reading leaves a scroll in [P].  [ok] is what the scrolls ask
    of the cells a caller's buffer holds before the read. *)
Definition serves (ok : Character -> Prop) (P : HistoryScroll -> Prop)
    (kept : list (list Character * bool)) : Prop :=
  (forall o, P o -> getLines o = Z.of_nat (length kept))
  /\ forall o i cs wr, P o -> kept !! i = Some (cs, wr) ->
       (exists o', getLineLen o (Z.of_nat i) = Some (Z.of_nat (length cs), o') /\ P o')
       /\ (exists o', isWrappedLine o (Z.of_nat i) = Some (wr, o') /\ P o')
       /\ (forall res, (length cs <= length res)%nat -> Forall ok res ->
             exists o', getCells o (Z.of_nat i) 0 (Z.of_nat (length cs)) res
                        = Some (cs ++ drop (length cs) res, o') /\ P o').

Lemma total_cells_take_le kept k :
  FileStore.total_cells (take k kept) <= FileStore.total_cells kept.
Proof.
  rewrite <- (take_drop k kept) at 2. rewrite FileStore.total_cells_app.
  pose proof (FileStore.total_cells_nonneg (drop k kept)). lia.
Qed.

(** One round of the copy loop, with a buffer that holds the line. *)
Lemma copy_line_serves ok P kept i cs wr old f buf :
  serves ok P kept ->
  Forall ok buf -> Forall ok cs ->
  4 * Z.of_nat (length kept) <= CInt.int_max ->
  sizeof_Character * FileStore.total_cells kept <= CInt.int_max ->
  P old -> kept !! i = Some (cs, wr) ->
  FileStore.holds Character_bytes f (take i kept) ->
  (length cs <= length buf)%nat ->
  exists line' old2 old3 f1 f2,
    getCells old (Z.of_nat i) 0 (Z.of_nat (length cs)) buf = Some (line', old2)
    /\ addCells (HistoryScrollFile f) line' (Z.of_nat (length cs))
       = Some (HistoryScrollFile f1)
    /\ isWrappedLine old2 (Z.of_nat i) = Some (wr, old3)
    /\ addLine (HistoryScrollFile f1) wr = Some (HistoryScrollFile f2)
    /\ P old3
    /\ FileStore.holds Character_bytes f2 (take (S i) kept)
    /\ length line' = length buf
    /\ Forall ok line'.
Proof.
  intros [_ Hs] Hokb Hokc Hn Hsz HP Hi Hh Hbuf.
  pose proof (lookup_lt_Some _ _ _ Hi) as Hlt.
  destruct (Hs old i cs wr HP Hi) as (_ & _ & Hcells).
  destruct (Hcells buf Hbuf Hokb) as (old2 & Hg & HP2).
  destruct (Hs old2 i cs wr HP2 Hi) as (_ & (old3 & Hw & HP3) & _).
  pose proof (total_cells_take_le kept (S i)) as Hle.
  rewrite (take_S_r kept i (cs, wr) Hi) in Hle |- *.
  rewrite FileStore.total_cells_app in Hle. cbn [FileStore.total_cells foldr fst] in Hle.
  pose proof (FileStore.total_cells_nonneg (take i kept)) as Hnn.
  destruct (FileStore.addCells_open sizeof_Character Character_bytes
              sizeof_Character_pos Character_bytes_length f (take i kept) []
              (cs ++ drop (length cs) buf) (Z.of_nat (length cs))
              (FileStore.holds_open_nil _ _ _ Hh)
              ltac:(rewrite length_app; lia) ltac:(simpl; nia))
    as (f1 & Ha & Hh1).
  rewrite Nat2Z.id, take_app_length in Hh1. cbn [app] in Hh1.
  destruct (FileStore.addLine_open sizeof_Character Character_bytes
              Character_bytes_length f1 (take i kept) cs wr Hh1)
    as (f2 & Hl & Hh2).
  { rewrite length_app, length_take. simpl. lia. }
  { rewrite FileStore.total_cells_app. cbn [FileStore.total_cells foldr fst]. nia. }
  exists (cs ++ drop (length cs) buf), old2, old3, f1, f2.
  split; [exact Hg|]. split; [cbn [addCells]; rewrite Ha; reflexivity|].
  split; [exact Hw|]. split; [cbn [addLine]; rewrite Hl; reflexivity|].
  split; [exact HP3|]. split; [exact Hh2|].
  split; [rewrite length_app, length_drop; lia|].
  apply Forall_app. split; [exact Hokc|]. apply Forall_drop. exact Hokb.
Qed.

(** The copy loop of [HistoryTypeFile::scroll] writes every line of the old
    store, with its wrap flag, to the new one. *)
Lemma copy_lines_serves ok P kept :
  serves ok P kept ->
  ok Character_default ->
  Forall (fun w : list Character * bool => Forall ok (fst w)) kept ->
  4 * Z.of_nat (length kept) <= CInt.int_max ->
  sizeof_Character * FileStore.total_cells kept <= CInt.int_max ->
  forall n i line old f,
    P old -> (i + n = length kept)%nat ->
    Z.of_nat (length line) = LINE_SIZE -> Forall ok line ->
    FileStore.holds Character_bytes f (take i kept) ->
    exists old' f',
      copy_lines n (Z.of_nat i) line old (HistoryScrollFile f)
      = Some (old', HistoryScrollFile f')
      /\ P old' /\ FileStore.holds Character_bytes f' kept.
Proof.
  intros Hserves Hokd Hokk Hn Hsz.
  induction n as [|n IH]; intros i line old f HP Hin Hline Hokl Hh.
  - exists old, f. split; [reflexivity|]. split; [exact HP|].
    rewrite take_ge in Hh by lia. exact Hh.
  - destruct (lookup_lt_is_Some_2 kept i ltac:(lia)) as [[cs wr] Hi].
    pose proof Hserves as [_ Hs].
    pose proof (Forall_lookup_1 _ _ _ _ Hokk Hi) as Hokc. cbn [fst] in Hokc.
    destruct (Hs old i cs wr HP Hi) as ((old1 & Hlen & HP1) & _ & _).
    cbn [copy_lines]. rewrite Hlen. cbn [mbind option_bind].
    replace (Z.of_nat i + 1) with (Z.of_nat (S i)) by lia.
    destruct (Z.gtb_spec (Z.of_nat (length cs)) LINE_SIZE) as [Hbig|Hsmall].
    + destruct (copy_line_serves ok P kept i cs wr old1 f
                  (replicate (Z.to_nat (Z.of_nat (length cs))) Character_default)
                  Hserves ltac:(apply Forall_replicate; exact Hokd) Hokc
                  Hn Hsz HP1 Hi Hh ltac:(rewrite length_replicate; lia))
        as (line' & old2 & old3 & f1 & f2 & -> & Ha & Hw & Hl & HP3 & Hh2 & _).
      cbn [mbind option_bind]. rewrite Ha. cbn [mbind option_bind].
      rewrite Hw. cbn [mbind option_bind]. rewrite Hl. cbn [mbind option_bind].
      exact (IH (S i) line old3 f2 HP3 ltac:(lia) Hline Hokl Hh2).
    + destruct (copy_line_serves ok P kept i cs wr old1 f line
                  Hserves Hokl Hokc Hn Hsz HP1 Hi Hh ltac:(lia))
        as (line' & old2 & old3 & f1 & f2 & -> & Ha & Hw & Hl & HP3 & Hh2 & Hlen' & Hokl').
      cbn [mbind option_bind]. rewrite Ha. cbn [mbind option_bind].
      rewrite Hw. cbn [mbind option_bind]. rewrite Hl. cbn [mbind option_bind].
      exact (IH (S i) line' old3 f2 HP3 ltac:(lia) ltac:(lia) Hokl' Hh2).
Qed.

(** [HistoryTypeFile::scroll] on a live store that serves the lines [kept]. *)
Lemma HistoryTypeFile_scroll_serves ok P kept h p o :
  serves ok P kept ->
  ok Character_default ->
  Forall (fun w : list Character * bool => Forall ok (fst w)) kept ->
  4 * Z.of_nat (length kept) <= CInt.int_max ->
  sizeof_Character * FileStore.total_cells kept <= CInt.int_max ->
  heap_get h p = Some o -> P o ->
  exists f f0,
    HistoryTypeFile_scroll h (Some p)
    = Some (<[p := None]> (h ++ [Some (HistoryScrollFile f)]), length h)
    /\ FileStore.write_all sizeof_Character Character_bytes
         FileStore.HistoryScrollFile_new kept = Some f0
    /\ FileStore.same_files f f0.
Proof.
  intros Hserves Hokd Hokk Hn Hsz Hget HP.
  pose proof (heap_get_lt _ _ _ Hget) as Hlt.
  unfold HistoryTypeFile_scroll. rewrite Hget. cbn [mbind option_bind].
  assert (dynamic_cast Class_HistoryFile o = false) as -> by (destruct o; reflexivity).
  cbn [heap_new].
  rewrite (proj1 Hserves o HP), Nat2Z.id.
  destruct (copy_lines_serves ok P kept Hserves Hokd Hokk Hn Hsz (length kept) 0%nat
              (replicate (Z.to_nat LINE_SIZE) Character_default) o
              FileStore.HistoryScrollFile_new HP ltac:(lia)
              ltac:(rewrite length_replicate; reflexivity)
              ltac:(apply Forall_replicate; exact Hokd)
              (FileStore.holds_new Character_bytes))
    as (old' & f & Hcopy & _ & Hh).
  change (Z.of_nat 0) with 0 in Hcopy. rewrite Hcopy. cbn [mbind option_bind].
  destruct (FileStore.write_all_holds sizeof_Character Character_bytes
              sizeof_Character_pos Character_bytes_length kept
              FileStore.HistoryScrollFile_new [] (FileStore.holds_new _) Hn Hsz)
    as (f0 & Hw & Hh0).
  exists f, f0. split; [|split; [exact Hw|]].
  - assert (Hins : <[length h := Some (HistoryScrollFile f)]>
                     (h ++ [Some (HistoryScrollFile FileStore.HistoryScrollFile_new)])
                   = h ++ [Some (HistoryScrollFile f)]).
    { replace (length h) with (length h + 0)%nat at 1 by lia.
      rewrite insert_app_r. reflexivity. }
    rewrite Hins. unfold heap_delete, heap_get.
    rewrite lookup_app_l by lia.
    unfold heap_get in Hget. destruct (h !! p) as [[o'|]|]; try discriminate.
    reflexivity.
  - exact (FileStore.holds_same_files _ _ _ _ Hh Hh0).
Qed.

(** A compact scroll whose lines hold [kept] serves [kept]. *)
Lemma compact_serves c kept :
  Forall2 Compact.stores (Compact.lines c) kept ->
  Forall (fun w : list Character * bool =>
            forallb wf_Character (fst w) = true
            /\ Z.of_nat (length (fst w)) <= CInt.int_max) kept ->
  serves (fun _ => True) (fun o => o = CompactHistoryScroll c) kept.
Proof.
  intros Hst Hok. split.
  - intros o ->. cbn [getLines]. unfold Compact.getLines.
    rewrite (Forall2_length Hst). reflexivity.
  - intros o i cs wr -> Hi.
    destruct (Forall_lookup_1 _ _ _ _ Hok Hi) as [Hwf Hint]. cbn [fst] in *.
    split; [|split].
    + destruct (Compact.stores_reads c kept i (cs, wr) [] Hst Hi Hwf Hint) as (H & _).
      cbn [getLineLen]. rewrite H. eexists. split; reflexivity.
    + destruct (Compact.stores_reads c kept i (cs, wr) [] Hst Hi Hwf Hint) as (_ & H & _).
      cbn [isWrappedLine]. rewrite H. eexists. split; reflexivity.
    + intros res Hres _. cbn [getCells].
      destruct cs as [|c0 cs].
      * eexists. split; reflexivity.
      * destruct (Compact.stores_reads c kept i (c0 :: cs, wr) res Hst Hi Hwf Hint)
          as (_ & _ & H).
        specialize (H 0%nat (length (c0 :: cs)) ltac:(simpl; lia) ltac:(simpl; lia)).
        cbn [fst] in H. rewrite drop_0, firstn_all in H.
        change (Z.of_nat 0) with 0 in H. rewrite H.
        eexists. split; reflexivity.
Qed.

(** X15: a compact history survives the change to a file-backed store.
    [HistoryTypeFile::scroll], given a compact scroll that holds the newest
    of the committed lines [ws], allocates a new file-backed scroll, destroys
    the old one, leaves every other object alone, and the three files of the
    new scroll hold the same bytes as if the lines the compact scroll held had
    been written to a fresh file-backed scroll directly, in order and with
    their wrap flags. *)
Theorem file_scroll_keeps_compact_history h p m ws c :
  heap_get h p = Some (CompactHistoryScroll c) ->
  Compact.run_new blockLength sizeof_CharacterFormat sizeof_CompactHistoryLine m
    (Compact.commits ws) = Some c ->
  Forall (fun w => Compact.fits blockLength sizeof_CharacterFormat (fst w) = true
                   /\ forallb wf_Character (fst w) = true
                   /\ Z.of_nat (length (fst w)) <= CInt.int_max) ws ->
  4 * Z.of_nat (length ws) <= CInt.int_max ->
  sizeof_Character * FileStore.total_cells ws <= CInt.int_max ->
  exists f f0,
    HistoryTypeFile_scroll h (Some p)
    = Some (<[p := None]> (h ++ [Some (HistoryScrollFile f)]), length h)
    /\ FileStore.write_all sizeof_Character Character_bytes
         FileStore.HistoryScrollFile_new
         (drop (length ws - S (Z.to_nat (CInt.to_int m))) ws) = Some f0
    /\ FileStore.same_files f f0.
Proof.
  intros Hget Hrun Hws Hn Hsz.
  assert (Hm : 0 <= CInt.to_int m).
  { unfold Compact.run_new in Hrun.
    destruct (Compact.CompactHistoryScroll_new blockLength m) as [s0|] eqn:E;
      [|discriminate].
    destruct (Compact.CompactHistoryScroll_new_Some _ _ _ E) as (Hinv & _ & Hmax).
    pose proof (Compact.sinv_max _ _ Hinv) as H. rewrite Hmax in H. exact H. }
  assert (Hfit : Forall (fun w : list Character * bool =>
                           Compact.fits blockLength sizeof_CharacterFormat (fst w) = true) ws).
  { eapply Forall_impl; [|exact Hws]. intros w (H & _). exact H. }
  destruct (Compact.run_new_commits_stores blockLength sizeof_CharacterFormat
              sizeof_CompactHistoryLine blockLength_pos sizeof_line_fits
              sizeof_format_pos m ws Hm Hfit) as (c' & Hrun' & _ & Hst).
  assert (c' = c) as -> by congruence.
  set (kept := drop (length ws - S (Z.to_nat (CInt.to_int m))) ws) in *.
  assert (Hok : Forall (fun w : list Character * bool =>
                          forallb wf_Character (fst w) = true
                          /\ Z.of_nat (length (fst w)) <= CInt.int_max) kept).
  { unfold kept. apply Forall_drop. eapply Forall_impl; [|exact Hws].
    intros w (_ & H). exact H. }
  assert (Hn' : 4 * Z.of_nat (length kept) <= CInt.int_max).
  { unfold kept. rewrite length_drop. lia. }
  assert (Hsz' : sizeof_Character * FileStore.total_cells kept <= CInt.int_max).
  { rewrite <- (take_drop (length ws - S (Z.to_nat (CInt.to_int m))) ws) in Hsz.
    rewrite FileStore.total_cells_app in Hsz. fold kept in Hsz.
    pose proof (FileStore.total_cells_nonneg
                  (take (length ws - S (Z.to_nat (CInt.to_int m))) ws)).
    nia. }
  refine (HistoryTypeFile_scroll_serves _ _ kept h p _ (compact_serves c kept Hst Hok)
            I _ Hn' Hsz' Hget eq_refl).
  apply Forall_forall. intros w _. apply Forall_forall. intros x _. exact I.
Qed.

(** A [Character] array read back from its memory, when every element
    survives the trip through its object representation. *)
Lemma array_of_bytes_array_bytes (ok : Character -> Prop) l :
  (forall c, ok c -> bytes_Character (Character_bytes c) = c) ->
  Forall ok l ->
  array_of_bytes (length l) (FileStore.array_bytes Character_bytes l) = l.
Proof.
  intros Hrt. induction 1 as [|c l Hc _ IH]; [reflexivity|].
  change (FileStore.array_bytes Character_bytes (c :: l))
    with (Character_bytes c ++ FileStore.array_bytes Character_bytes l).
  cbn [length array_of_bytes].
  pose proof (Character_bytes_length c) as Hlen.
  rewrite take_app_length', drop_app_length' by lia.
  rewrite Hrt, IH by exact Hc. reflexivity.
Qed.

(** A file-backed scroll whose files hold [kept] serves [kept]. *)
Lemma file_serves (ok : Character -> Prop) kept :
  (forall c, ok c -> bytes_Character (Character_bytes c) = c) ->
  Forall (fun w : list Character * bool => Forall ok (fst w)) kept ->
  4 * Z.of_nat (length kept) <= CInt.int_max ->
  sizeof_Character * FileStore.total_cells kept <= CInt.int_max ->
  serves ok (fun o => exists f, o = HistoryScrollFile f
                                /\ FileStore.holds Character_bytes f kept) kept.
Proof.
  intros Hrt Hokk Hn Hsz. split.
  - intros o (f & -> & Hh). exact (FileStore.getLines_holds _ f kept Hh Hn).
  - intros o i cs wr (f & -> & Hh) Hi. split; [|split].
    + destruct (FileStore.getLineLen_holds MAP_THRESHOLD mmap_ok sizeof_Character
                  Character_bytes sizeof_Character_pos Character_bytes_length
                  f kept Hh Hn Hsz i cs wr Hi) as (f' & H & Hh').
      cbn [getLineLen]. rewrite H. eexists. split; [reflexivity|]. eauto.
    + destruct (FileStore.isWrappedLine_holds MAP_THRESHOLD mmap_ok Character_bytes
                  f kept Hh Hn i cs wr Hi) as (f' & H & Hh').
      cbn [isWrappedLine]. rewrite H. eexists. split; [reflexivity|]. eauto.
    + intros res Hres Hokr.
      destruct (FileStore.getCells_holds MAP_THRESHOLD mmap_ok sizeof_Character
                  Character_bytes sizeof_Character_pos Character_bytes_length
                  f kept Hh Hn Hsz i cs wr Hi
                  (FileStore.array_bytes Character_bytes res)) as (f' & H & Hh').
      cbn [getCells]. rewrite H. cbn [mbind option_bind].
      eexists. split; [|eauto]. do 2 f_equal.
      pose proof (FileStore.array_bytes_length sizeof_Character Character_bytes
                    Character_bytes_length cs) as Hlen.
      replace (length (FileStore.array_bytes Character_bytes cs))
        with (length cs * Z.to_nat sizeof_Character)%nat by nia.
      rewrite (FileStore.array_bytes_drop sizeof_Character Character_bytes
                 sizeof_Character_pos Character_bytes_length).
      rewrite <- FileStore.array_bytes_app.
      replace (length res) with (length (cs ++ drop (length cs) res))
        by (rewrite length_app, length_drop; lia).
      apply (array_of_bytes_array_bytes ok); [exact Hrt|].
      apply Forall_app. split; [|apply Forall_drop; exact Hokr].
      exact (Forall_lookup_1 _ _ _ _ Hokk Hi).
Qed.

(** X16: a file-backed store asked to stay file-backed is copied.  No
    scroll passes the cast to [HistoryFile] at the head of
    [HistoryTypeFile::scroll], so the function allocates a new scroll,
    replays every line of the old one into it and destroys the old one; the
    three files of the new scroll end up with the same bytes as those of the
    old.  The copy goes through [Character] buffers, so it is shown for cells
    that survive the trip through their object representation. *)
Theorem file_scroll_copies_file_history (ok : Character -> Prop) h p ws f0 f :
  (forall c, ok c -> bytes_Character (Character_bytes c) = c) ->
  ok Character_default ->
  Forall (fun w : list Character * bool => Forall ok (fst w)) ws ->
  4 * Z.of_nat (length ws) <= CInt.int_max ->
  sizeof_Character * FileStore.total_cells ws <= CInt.int_max ->
  FileStore.write_all sizeof_Character Character_bytes
    FileStore.HistoryScrollFile_new ws = Some f0 ->
  FileStore.same_files f0 f ->
  heap_get h p = Some (HistoryScrollFile f) ->
  exists f',
    HistoryTypeFile_scroll h (Some p)
    = Some (<[p := None]> (h ++ [Some (HistoryScrollFile f')]), length h)
    /\ FileStore.same_files f' f.
Proof.
  intros Hrt Hokd Hokk Hn Hsz Hw Hsame Hget.
  destruct (FileStore.write_all_holds sizeof_Character Character_bytes
              sizeof_Character_pos Character_bytes_length ws
              FileStore.HistoryScrollFile_new [] (FileStore.holds_new _) Hn Hsz)
    as (fx & Hw' & Hh0).
  cbn [app] in Hh0. assert (fx = f0) as -> by congruence.
  pose proof (FileStore.same_files_holds _ _ _ _ Hh0 Hsame) as Hh.
  destruct (HistoryTypeFile_scroll_serves ok _ ws h p _
              (file_serves ok ws Hrt Hokk Hn Hsz) Hokd Hokk Hn Hsz Hget
              (ex_intro _ f (conj eq_refl Hh)))
    as (f' & f0' & Hscroll & Hw0 & Hsame').
  assert (f0' = f0) as -> by congruence.
  exists f'. split; [exact Hscroll|].
  exact (FileStore.same_files_trans _ _ _ Hsame' Hsame).
Qed.

(** X17: [CompactHistoryType::scroll] never copies.  Given no store, or a
    live store that is not compact, it destroys the store it was given and
    returns a newly allocated compact scroll of the requested capacity that
    holds no line and no slab, whatever the old store held; every other
    object is left alone. *)
Theorem compact_scroll_starts_empty m_nbLines h old :
  0 <= CInt.to_int m_nbLines ->
  match old with
  | None => True
  | Some p => exists o, heap_get h p = Some o
                        /\ dynamic_cast Class_CompactHistoryScroll o = false
  end ->
  exists c,
    CompactHistoryType_scroll m_nbLines h old
    = Some (match old with Some p => <[p := None]> h | None => h end
            ++ [Some (CompactHistoryScroll c)],
            length h)
    /\ Compact.lines c = []
    /\ Compact.blocks (Compact.blockList c) = []
    /\ Compact._maxLineCount c = m_nbLines.
Proof.
  intros Hm Hold.
  destruct (Compact.CompactHistoryScroll_new_inv blockLength m_nbLines Hm)
    as (c & Hnew & Hinv & Hl & Hmax).
  assert (Hb : Compact.blocks (Compact.blockList c) = []).
  { unfold Compact.CompactHistoryScroll_new, Compact.setMaxNbLines in Hnew.
    cbn [Compact.lines Compact.evict Compact.blockList] in Hnew.
    destruct (0 >? CInt.to_int m_nbLines); [discriminate|].
    cbn [mbind option_bind] in Hnew. injection Hnew as <-. reflexivity. }
  exists c. split; [|auto].
  unfold CompactHistoryType_scroll. destruct old as [p|].
  - destruct Hold as (o & Hget & Hcast). rewrite Hget. cbn [mbind option_bind].
    assert (Hdel : heap_delete h p = Some (<[p := None]> h))
      by (unfold heap_delete; rewrite Hget; reflexivity).
    destruct o; [| |discriminate]; rewrite Hdel; cbn [mbind option_bind];
      rewrite Hnew; cbn [mbind option_bind]; unfold heap_new;
      rewrite length_insert; reflexivity.
  - rewrite Hnew. reflexivity.
Qed.

End Types.

(** *** Concrete reconfigurations *)

(** The file-backed store that holds the single line "a" (not wrapped), in
    the sample layout of [FileStore]. *)
Definition file_store_a : option HistoryScroll :=
  f ← FileStore.write_all FileStore.sample_sizeof_Character
         FileStore.sample_Character_bytes FileStore.HistoryScrollFile_new
         [(Compact.line_a, false)];
  Some (HistoryScrollFile f).

(** C2: a file-backed store with one line, reconfigured to Compact with
    capacity 3.  The specification expects the new store to hold the last
    [min 3 1 = 1] lines of the old one; [CompactHistoryType::scroll] deletes
    the old store and returns an empty compact scroll. *)
Theorem compact_scroll_drops_file_history :
  exists old h' q c,
    file_store_a = Some old
    /\ getLines old = 1
    /\ CompactHistoryType_scroll Compact.sample_blockLength 3 [Some old] (Some 0%nat)
       = Some (h', q)
    /\ heap_get h' q = Some (CompactHistoryScroll c)
    /\ Compact.getLines c = 0
    /\ heap_get h' 0%nat = None.
Proof.
  eexists _, _, _, _. split; [vm_compute; reflexivity|].
  split; [vm_compute; reflexivity|].
  split; [vm_compute; reflexivity|].
  repeat split; vm_compute; reflexivity.
Qed.

(** C4, as stated, fails in two places.  For the kind None the old store is
    of the requested kind already, and [HistoryTypeNone::scroll] destroys it
    and returns another object.  For the kind Compact the old object is
    returned, but with a smaller capacity its content is not untouched: a
    scroll of three lines asked for capacity 2 comes back with two. *)
Lemma scroll_same_kind_counterexample :
  (exists h' q,
     HistoryTypeNone_scroll [Some HistoryScrollNone] (Some 0%nat) = Some (h', q)
     /\ q <> 0%nat
     /\ heap_get h' 0%nat = None
     /\ heap_get h' q = Some HistoryScrollNone)
  /\ (exists c h' q c',
        Compact.sample_run_new 3
          (Compact.write Compact.line_a ++ Compact.write Compact.line_b
           ++ Compact.write Compact.line_c) = Some c
        /\ CompactHistoryType_scroll Compact.sample_blockLength 2
             [Some (CompactHistoryScroll c)] (Some 0%nat) = Some (h', q)
        /\ q = 0%nat
        /\ heap_get h' q = Some (CompactHistoryScroll c')
        /\ Compact.getLines c = 3
        /\ Compact.getLines c' = 2).
Proof.
  split.
  - eexists _, _. split; [vm_compute; reflexivity|].
    repeat split; vm_compute; congruence.
  - eexists _, _, _, _. split; [vm_compute; reflexivity|].
    split; [vm_compute; reflexivity|].
    repeat split; vm_compute; reflexivity.
Qed.

(** The same happens to a file-backed store asked to stay file-backed: the
    cast to [HistoryFile] fails, the lines are copied into a new store and the
    old one is destroyed. *)
Example file_scroll_returns_new_object :
  exists old h' q f,
    file_store_a = Some old
    /\ HistoryTypeFile_scroll Compact.sample_blockLength
         Compact.sample_sizeof_CharacterFormat Compact.sample_sizeof_CompactHistoryLine
         FileStore.sample_MAP_THRESHOLD FileStore.sample_mmap_ok
         FileStore.sample_sizeof_Character FileStore.sample_Character_bytes
         FileStore.sample_bytes_Character (Compact.cell 32 0)
         [Some old] (Some 0%nat) = Some (h', q)
    /\ q <> 0%nat
    /\ heap_get h' 0%nat = None
    /\ heap_get h' q = Some (HistoryScrollFile f)
    /\ FileStore.getLines f = 1.
Proof.
  eexists _, _, _, _. split; [vm_compute; reflexivity|].
  split; [vm_compute; reflexivity|].
  repeat split; vm_compute; congruence.
Qed.

Lemma scroll_same_kind_witness :
  exists c,
    Compact.sample_run_new 3
      (Compact.write Compact.line_a ++ Compact.write Compact.line_b
       ++ Compact.write Compact.line_c) = Some c
    /\ (exists c',
          CompactHistoryType_scroll Compact.sample_blockLength 2
            [Some (CompactHistoryScroll c)] (Some 0%nat)
          = Some (<[0%nat := Some (CompactHistoryScroll c')]>
                    [Some (CompactHistoryScroll c)], 0%nat)
          /\ Compact._maxLineCount c' = 2
          /\ Compact.lines c'
             = drop (length (Compact.lines c) - Z.to_nat (CInt.to_int 2))
                    (Compact.lines c))
    /\ (Some 0%nat <> Some 1%nat
        /\ heap_get [None; Some HistoryScrollNone] 1%nat = Some HistoryScrollNone
        /\ forall p, Some 0%nat = Some p ->
                     heap_get [None; Some HistoryScrollNone] p = None).
Proof.
  eexists. split; [vm_compute; reflexivity|].
  pose proof (scroll_same_kind Compact.sample_blockLength
                Compact.sample_sizeof_CharacterFormat
                Compact.sample_sizeof_CompactHistoryLine
                ltac:(unfold Compact.sample_blockLength; lia)
                ltac:(unfold Compact.sample_sizeof_CompactHistoryLine,
                        Compact.sample_blockLength; lia)
                ltac:(unfold Compact.sample_sizeof_CharacterFormat; lia))
    as [Hcompact Hnone].
  split.
  - apply (Hcompact 2 _ 0%nat 3
             (Compact.write Compact.line_a ++ Compact.write Compact.line_b
              ++ Compact.write Compact.line_c)).
    + reflexivity.
    + vm_compute. reflexivity.
    + vm_compute. discriminate.
  - apply (Hnone [Some HistoryScrollNone] (Some 0%nat)). reflexivity.
Defined.

(** *** Concrete migrations *)

(** The cells that the sample layout of [FileStore] represents exactly. *)
Definition sample_ok (c : Character) : Prop :=
  0 <= character c < 2 ^ 16 /\ 0 <= rendition c < 2 ^ 8
  /\ 0 <= foregroundColor c <= CInt.int_max
  /\ 0 <= backgroundColor c <= CInt.int_max.

Lemma sample_bytes_Character_bytes c :
  sample_ok c ->
  FileStore.sample_bytes_Character (FileStore.sample_Character_bytes c) = c.
Proof.
  destruct c as [ch r fg bg]. unfold sample_ok. cbn [character rendition
    foregroundColor backgroundColor]. intros (Hch & Hr & Hfg & Hbg).
  unfold FileStore.sample_Character_bytes, FileStore.sample_bytes_Character.
  cbn [character rendition foregroundColor backgroundColor].
  unfold FileStore.encode_int at 1 2. cbn [app firstn skipn].
  change [FileStore.byte_of_Z fg; FileStore.byte_of_Z (fg / 2 ^ 8);
          FileStore.byte_of_Z (fg / 2 ^ 16); FileStore.byte_of_Z (fg / 2 ^ 24)]
    with (FileStore.encode_int fg).
  change [FileStore.byte_of_Z bg; FileStore.byte_of_Z (bg / 2 ^ 8);
          FileStore.byte_of_Z (bg / 2 ^ 16); FileStore.byte_of_Z (bg / 2 ^ 24)]
    with (FileStore.encode_int bg).
  rewrite !FileStore.decode_encode_int by assumption.
  rewrite !FileStore.Z_of_byte_of_Z. cbn [default from_option].
  change (2 ^ 8) with 256 in *. change (2 ^ 16) with 65536 in *.
  rewrite (Z.mod_small r 256) by lia.
  assert (0 <= ch / 256 < 256).
  { split; [apply Z.div_pos; lia|apply Z.div_lt_upper_bound; lia]. }
  rewrite (Z.mod_small (ch / 256) 256) by assumption.
  pose proof (Z.div_mod ch 256 ltac:(lia)).
  f_equal. lia.
Qed.

Definition sample_HistoryTypeFile_scroll
  : list (option HistoryScroll) -> option nat
    -> option (list (option HistoryScroll) * nat) :=
  HistoryTypeFile_scroll Compact.sample_blockLength
    Compact.sample_sizeof_CharacterFormat Compact.sample_sizeof_CompactHistoryLine
    FileStore.sample_MAP_THRESHOLD FileStore.sample_mmap_ok
    FileStore.sample_sizeof_Character FileStore.sample_Character_bytes
    FileStore.sample_bytes_Character (Compact.cell 32 0).

Lemma file_scroll_keeps_compact_history_witness :
  exists c f f0,
    Compact.sample_run_new 1
      (Compact.commits [(Compact.line_a, false); (Compact.line_abcd, true); ([], false)])
    = Some c
    /\ sample_HistoryTypeFile_scroll [Some (CompactHistoryScroll c)] (Some 0%nat)
       = Some ([None; Some (HistoryScrollFile f)], 1%nat)
    /\ FileStore.sample_write_all [(Compact.line_abcd, true); ([], false)] = Some f0
    /\ FileStore.same_files f f0.
Proof.
  eexists. 
  assert (Hrun : Compact.sample_run_new 1
            (Compact.commits [(Compact.line_a, false); (Compact.line_abcd, true); ([], false)])
          = Some ?[c]) by (vm_compute; reflexivity).
  destruct (file_scroll_keeps_compact_history Compact.sample_blockLength
              Compact.sample_sizeof_CharacterFormat
              Compact.sample_sizeof_CompactHistoryLine
              FileStore.sample_MAP_THRESHOLD FileStore.sample_mmap_ok
              FileStore.sample_sizeof_Character FileStore.sample_Character_bytes
              FileStore.sample_bytes_Character (Compact.cell 32 0)
              Compact.sample_blockLength_pos Compact.sample_sizeof_line_fits
              Compact.sample_sizeof_format_pos
              FileStore.sample_sizeof_Character_pos
              FileStore.sample_Character_bytes_length
              [Some (CompactHistoryScroll _)] 0%nat 1
              [(Compact.line_a, false); (Compact.line_abcd, true); ([], false)]
              _ eq_refl Hrun)
    as (f & f0 & Hscroll & Hw & Hsame).
  - repeat constructor; vm_compute; discriminate.
  - unfold CInt.int_max. simpl. lia.
  - unfold CInt.int_max, FileStore.sample_sizeof_Character. simpl. lia.
  - exists f, f0. split; [exact Hrun|]. split; [exact Hscroll|].
    split; [exact Hw|exact Hsame].
Defined.

Lemma file_scroll_copies_file_history_witness :
  exists f f',
    FileStore.sample_write_all [(Compact.line_abcd, true); ([], false)] = Some f
    /\ sample_HistoryTypeFile_scroll [Some (HistoryScrollFile f)] (Some 0%nat)
       = Some ([None; Some (HistoryScrollFile f')], 1%nat)
    /\ FileStore.same_files f' f.
Proof.
  eexists.
  assert (Hw : FileStore.sample_write_all [(Compact.line_abcd, true); ([], false)]
               = Some ?[f]) by (vm_compute; reflexivity).
  lazymatch type of Hw with
  | _ = Some ?f =>
      pose proof (file_scroll_copies_file_history Compact.sample_blockLength
                    Compact.sample_sizeof_CharacterFormat
                    Compact.sample_sizeof_CompactHistoryLine
                    FileStore.sample_MAP_THRESHOLD FileStore.sample_mmap_ok
                    FileStore.sample_sizeof_Character FileStore.sample_Character_bytes
                    FileStore.sample_bytes_Character (Compact.cell 32 0)
                    FileStore.sample_sizeof_Character_pos
                    FileStore.sample_Character_bytes_length
                    sample_ok [Some (HistoryScrollFile f)] 0%nat
                    [(Compact.line_abcd, true); ([], false)] f f
                    sample_bytes_Character_bytes) as H
  end.
  destruct H as (f' & Hscroll & Hsame).
  - unfold sample_ok, CInt.int_max. simpl. lia.
  - repeat constructor; unfold CInt.int_max; simpl; lia.
  - unfold CInt.int_max. simpl. lia.
  - unfold CInt.int_max, FileStore.sample_sizeof_Character. simpl. lia.
  - exact Hw.
  - repeat split.
  - reflexivity.
  - exists f'. split; [exact Hw|]. split; [exact Hscroll|exact Hsame].
Defined.

Lemma compact_scroll_starts_empty_witness :
  exists old c,
    file_store_a = Some old
    /\ CompactHistoryType_scroll Compact.sample_blockLength 3 [Some old] (Some 0%nat)
       = Some ([None; Some (CompactHistoryScroll c)], 1%nat)
    /\ Compact.lines c = []
    /\ Compact.blocks (Compact.blockList c) = []
    /\ Compact._maxLineCount c = 3.
Proof.
  eexists.
  assert (Hold : file_store_a = Some ?[old]) by (vm_compute; reflexivity).
  lazymatch type of Hold with
  | _ = Some ?old =>
      pose proof (compact_scroll_starts_empty Compact.sample_blockLength 3
                    [Some old] (Some 0%nat)) as H
  end.
  destruct H as (c & Hscroll & Hc).
  - vm_compute. discriminate.
  - eexists. split; reflexivity.
  - exists c. split; [exact Hold|]. split; [exact Hscroll|exact Hc].
Defined.

End HistoryTypes.

(** ** The screen window *)

Module Window.

Import CInt.

(** [int] arithmetic. *)
Definition iadd (a b : Z) : Z := to_int (a + b).
Definition isub (a b : Z) : Z := to_int (a - b).
Definition imul (a b : Z) : Z := to_int (a * b).

(** Modelled from the spec: [LineProperty] ([Character.h]) is a per-line
    bitfield with at least the flags [wrapped] and [prompt_start]; a
    default-constructed value has no flag set. *)
Record LineProperty := mkLineProperty {
  wrapped : Z;
  prompt_start : Z;
  other_flags : Z
}.

Definition LineProperty_default : LineProperty :=
  {| wrapped := 0; prompt_start := 0; other_flags := 0 |}.

(** The [Screen] the window looks at is a collaborator outside this
    subsystem.  A value of this record is what its queries answer at the time
    of a call; the calls that change it are recorded as events. *)
Record Screen := mkScreen {
  getColumns : Z;
  getLines : Z;
  getHistLines : Z;
  getOldTotalLines : Z;
  isResize : bool;
  scrolledLines : Z;
  droppedLines : Z;
  hasRepl : bool;
  getLineProperties : Z -> Z -> list LineProperty;
  isSelected : Z -> Z -> bool
}.

(** What a window operation does to the outside: the signals it emits and the
    calls it makes on the screen, in order. *)
Inductive Event :=
| screenAboutToChange
| outputChanged
| scrolled (line : Z)
| selectionChanged
| currentResultLineChanged
| Screen_setSelectionStart (column line : Z) (columnMode : bool)
| Screen_setSelectionEnd (column line : Z) (trimTrailingWhitespace : bool)
| Screen_clearSelection
| Screen_getImage (size startLine endLine : Z)
| Screen_fillWithDefaultChar (offset count : Z).

(** The members of a [ScreenWindow]; [_windowBuffer] records whether the
    image buffer has been allocated. *)
Record ScreenWindow := mkWindow {
  _windowBuffer : bool;
  _windowBufferSize : Z;
  _bufferNeedsUpdate : bool;
  _windowLines : Z;
  _currentLine : Z;
  _currentResultLine : Z;
  _trackOutput : bool;
  _scrollCount : Z
}.

(** [ScreenWindow::ScreenWindow] *)
Definition ScreenWindow_new : ScreenWindow * list Event :=
  ({| _windowBuffer := false; _windowBufferSize := 0; _bufferNeedsUpdate := true;
      _windowLines := 1; _currentLine := 0; _currentResultLine := -1;
      _trackOutput := true; _scrollCount := 0 |},
   [screenAboutToChange]).

Definition windowLines (w : ScreenWindow) : Z := _windowLines w.
Definition windowColumns (scr : Screen) : Z := getColumns scr.
Definition lineCount (scr : Screen) : Z := iadd (getHistLines scr) (getLines scr).

(** [ScreenWindow::currentLine] *)
Definition currentLine (w : ScreenWindow) (scr : Screen) : Z :=
  qBound 0 (_currentLine w) (qMax 0 (isub (lineCount scr) (windowLines w))).

(** [ScreenWindow::endWindowLine] *)
Definition endWindowLine (w : ScreenWindow) (scr : Screen) : Z :=
  qMin (isub (iadd (currentLine w scr) (windowLines w)) 1) (isub (lineCount scr) 1).

(** [ScreenWindow::fillUnusedArea] *)
Definition fillUnusedArea (w : ScreenWindow) (scr : Screen) : list Event :=
  let screenEndLine := isub (iadd (getHistLines scr) (getLines scr)) 1 in
  let windowEndLine := isub (iadd (currentLine w scr) (windowLines w)) 1 in
  let unusedLines := isub windowEndLine screenEndLine in
  if unusedLines <=? 0 then []
  else
    let charsToFill := imul unusedLines (windowColumns scr) in
    [Screen_fillWithDefaultChar (_windowBufferSize w - charsToFill) charsToFill].

(** [ScreenWindow::getImage] *)
Definition getImage (w : ScreenWindow) (scr : Screen) : ScreenWindow * list Event :=
  let size := imul (windowLines w) (windowColumns scr) in
  let w1 :=
    if negb (_windowBuffer w) || negb (_windowBufferSize w =? size) then
      {| _windowBuffer := true; _windowBufferSize := size; _bufferNeedsUpdate := true;
         _windowLines := _windowLines w; _currentLine := _currentLine w;
         _currentResultLine := _currentResultLine w;
         _trackOutput := _trackOutput w; _scrollCount := _scrollCount w |}
    else w in
  if negb (_bufferNeedsUpdate w1) then (w1, [])
  else
    ({| _windowBuffer := _windowBuffer w1; _windowBufferSize := _windowBufferSize w1;
        _bufferNeedsUpdate := false;
        _windowLines := _windowLines w1; _currentLine := _currentLine w1;
        _currentResultLine := _currentResultLine w1;
        _trackOutput := _trackOutput w1; _scrollCount := _scrollCount w1 |},
     Screen_getImage size (currentLine w1 scr) (endWindowLine w1 scr)
     :: fillUnusedArea w1 scr).

(** [QVector::resize] to a size that is not negative: cut, or pad with
    default-constructed entries. *)
Definition resize (n : Z) (v : list LineProperty) : option (list LineProperty) :=
  if n <? 0 then None
  else Some (take (Z.to_nat n) v
             ++ replicate (Z.to_nat n - length v) LineProperty_default).

(** [ScreenWindow::getLineProperties] *)
Definition ScreenWindow_getLineProperties (w : ScreenWindow) (scr : Screen)
  : option (list LineProperty) :=
  let result := getLineProperties scr (currentLine w scr) (endWindowLine w scr) in
  if negb (Z.of_nat (length result) =? windowLines w) then resize (windowLines w) result
  else Some result.

Definition set_dirty (w : ScreenWindow) : ScreenWindow :=
  {| _windowBuffer := _windowBuffer w; _windowBufferSize := _windowBufferSize w;
     _bufferNeedsUpdate := true;
     _windowLines := _windowLines w; _currentLine := _currentLine w;
     _currentResultLine := _currentResultLine w;
     _trackOutput := _trackOutput w; _scrollCount := _scrollCount w |}.

(** [ScreenWindow::setSelectionStart] *)
Definition setSelectionStart (w : ScreenWindow) (scr : Screen)
    (column line : Z) (columnMode : bool) : ScreenWindow * list Event :=
  (set_dirty w,
   [Screen_setSelectionStart column (iadd line (currentLine w scr)) columnMode;
    selectionChanged]).

(** [ScreenWindow::setSelectionEnd] *)
Definition setSelectionEnd (w : ScreenWindow) (scr : Screen)
    (column line : Z) (trimTrailingWhitespace : bool) : ScreenWindow * list Event :=
  (set_dirty w,
   [Screen_setSelectionEnd column (iadd line (currentLine w scr)) trimTrailingWhitespace;
    selectionChanged]).

(** [ScreenWindow::clearSelection] *)
Definition clearSelection (w : ScreenWindow) (scr : Screen) : ScreenWindow * list Event :=
  (w, [Screen_clearSelection; selectionChanged]).

(** [ScreenWindow::setSelectionByLineRange] *)
Definition setSelectionByLineRange (w : ScreenWindow) (scr : Screen)
    (start end_ : Z) : ScreenWindow * list Event :=
  let '(w1, ev1) := clearSelection w scr in
  (set_dirty w1,
   ev1 ++ [Screen_setSelectionStart 0 start false;
           Screen_setSelectionEnd (windowColumns scr) end_ false;
           selectionChanged]).

(** [ScreenWindow::isSelected] *)
Definition ScreenWindow_isSelected (w : ScreenWindow) (scr : Screen) (column line : Z) : bool :=
  isSelected scr column (qMin (iadd line (currentLine w scr)) (endWindowLine w scr)).

(** [ScreenWindow::setWindowLines]; [Q_ASSERT(lines > 0)]. *)
Definition setWindowLines (w : ScreenWindow) (lines : Z) : option ScreenWindow :=
  if lines >? 0 then
    Some {| _windowBuffer := _windowBuffer w; _windowBufferSize := _windowBufferSize w;
            _bufferNeedsUpdate := _bufferNeedsUpdate w;
            _windowLines := lines; _currentLine := _currentLine w;
            _currentResultLine := _currentResultLine w;
            _trackOutput := _trackOutput w; _scrollCount := _scrollCount w |}
  else None.

(** [ScreenWindow::setCurrentResultLine] *)
Definition setCurrentResultLine (w : ScreenWindow) (line : Z) : ScreenWindow * list Event :=
  if _currentResultLine w =? line then (w, [])
  else
    ({| _windowBuffer := _windowBuffer w; _windowBufferSize := _windowBufferSize w;
        _bufferNeedsUpdate := _bufferNeedsUpdate w;
        _windowLines := _windowLines w; _currentLine := _currentLine w;
        _currentResultLine := line;
        _trackOutput := _trackOutput w; _scrollCount := _scrollCount w |},
     [currentResultLineChanged]).

(** [ScreenWindow::scrollTo] *)
Definition scrollTo (w : ScreenWindow) (scr : Screen) (line : Z) : ScreenWindow * list Event :=
  let maxCurrentLineNumber := isub (lineCount scr) (windowLines w) in
  let line := qBound 0 line maxCurrentLineNumber in
  let delta := isub line (_currentLine w) in
  ({| _windowBuffer := _windowBuffer w; _windowBufferSize := _windowBufferSize w;
      _bufferNeedsUpdate := true;
      _windowLines := _windowLines w; _currentLine := line;
      _currentResultLine := _currentResultLine w;
      _trackOutput := _trackOutput w; _scrollCount := iadd (_scrollCount w) delta |},
   [scrolled line]).

Inductive RelativeScrollMode := ScrollLines | ScrollPages | ScrollPrompts.

(** The upward loop of the prompt scroll:
    [while (i > 0 && amount < 0) { i--; if (properties[i] is a prompt)
    if (++amount == 0) break; }] *)
Fixpoint prompt_up (fuel : nat) (properties : list LineProperty) (i amount : Z)
  : option Z :=
  match fuel with
  | O => None
  | S fuel' =>
      if (i >? 0) && (amount <? 0) then
        let i := i - 1 in
        p ← properties !! Z.to_nat i;
        if negb (prompt_start p =? 0) then
          let amount := amount + 1 in
          if amount =? 0 then Some i else prompt_up fuel' properties i amount
        else prompt_up fuel' properties i amount
      else Some i
  end.

(** The downward loop: [while (i < histLines && amount > 0) { i++;
    if (properties[i - currentLine] is a prompt) if (--amount == 0) break; }] *)
Fixpoint prompt_down (fuel : nat) (properties : list LineProperty)
    (histLines current i amount : Z) : option Z :=
  match fuel with
  | O => None
  | S fuel' =>
      if (i <? histLines) && (amount >? 0) then
        let i := i + 1 in
        p ← (if i - current <? 0 then None else properties !! Z.to_nat (i - current));
        if negb (prompt_start p =? 0) then
          let amount := amount - 1 in
          if amount =? 0 then Some i
          else prompt_down fuel' properties histLines current i amount
        else prompt_down fuel' properties histLines current i amount
      else Some i
  end.

(** [ScreenWindow::scrollBy] *)
Definition scrollBy (w : ScreenWindow) (scr : Screen)
    (mode : RelativeScrollMode) (amount : Z) (fullPage : bool)
  : option (ScreenWindow * list Event) :=
  let pages :=
    if fullPage then
      Some (scrollTo w scr (iadd (currentLine w scr) (imul amount (windowLines w))))
    else
      Some (scrollTo w scr (iadd (currentLine w scr)
                                 (imul amount (Z.quot (windowLines w) 2)))) in
  match mode with
  | ScrollLines => Some (scrollTo w scr (iadd (currentLine w scr) amount))
  | ScrollPages => pages
  | ScrollPrompts =>
      if negb (hasRepl scr) then pages
      else
        let i := currentLine w scr in
        if amount <? 0 then
          let properties := getLineProperties scr 0 (currentLine w scr) in
          i' ← prompt_up (S (Z.to_nat i)) properties i amount;
          Some (scrollTo w scr i')
        else if amount >? 0 then
          let properties :=
            getLineProperties scr (currentLine w scr) (getHistLines scr) in
          i' ← prompt_down (S (Z.to_nat (getHistLines scr - i))) properties
                 (getHistLines scr) (currentLine w scr) i amount;
          Some (scrollTo w scr i')
        else Some (scrollTo w scr i)
  end.

(** [ScreenWindow::atEndOfOutput] *)
Definition atEndOfOutput (w : ScreenWindow) (scr : Screen) : bool :=
  currentLine w scr =? isub (lineCount scr) (windowLines w).

(** [ScreenWindow::setTrackOutput] *)
Definition setTrackOutput (w : ScreenWindow) (trackOutput : bool) : ScreenWindow :=
  {| _windowBuffer := _windowBuffer w; _windowBufferSize := _windowBufferSize w;
     _bufferNeedsUpdate := _bufferNeedsUpdate w;
     _windowLines := _windowLines w; _currentLine := _currentLine w;
     _currentResultLine := _currentResultLine w;
     _trackOutput := trackOutput; _scrollCount := _scrollCount w |}.

(** [ScreenWindow::resetScrollCount] *)
Definition resetScrollCount (w : ScreenWindow) : ScreenWindow :=
  {| _windowBuffer := _windowBuffer w; _windowBufferSize := _windowBufferSize w;
     _bufferNeedsUpdate := _bufferNeedsUpdate w;
     _windowLines := _windowLines w; _currentLine := _currentLine w;
     _currentResultLine := _currentResultLine w;
     _trackOutput := _trackOutput w; _scrollCount := 0 |}.

Definition set_currentLine (w : ScreenWindow) (line : Z) : ScreenWindow :=
  {| _windowBuffer := _windowBuffer w; _windowBufferSize := _windowBufferSize w;
     _bufferNeedsUpdate := _bufferNeedsUpdate w;
     _windowLines := _windowLines w; _currentLine := line;
     _currentResultLine := _currentResultLine w;
     _trackOutput := _trackOutput w; _scrollCount := _scrollCount w |}.

(** [ScreenWindow::updateCurrentLine] *)
Definition updateCurrentLine (w : ScreenWindow) (scr : Screen) : ScreenWindow :=
  if negb (isResize scr) then w
  else
    let cl := if _currentLine w >? 0
              then isub (_currentLine w) (isub (getOldTotalLines scr) (lineCount scr))
              else _currentLine w in
    set_currentLine w (qBound 0 cl (isub (lineCount scr) (windowLines w))).

(** [ScreenWindow::notifyOutputChanged] *)
Definition notifyOutputChanged (w : ScreenWindow) (scr : Screen)
  : ScreenWindow * list Event :=
  let w1 :=
    if _trackOutput w then
      {| _windowBuffer := _windowBuffer w; _windowBufferSize := _windowBufferSize w;
         _bufferNeedsUpdate := _bufferNeedsUpdate w;
         _windowLines := _windowLines w;
         _currentLine :=
           qMax 0 (isub (getHistLines scr) (isub (windowLines w) (getLines scr)));
         _currentResultLine := _currentResultLine w;
         _trackOutput := _trackOutput w;
         _scrollCount := isub (_scrollCount w) (scrolledLines scr) |}
    else
      let cl := qMax 0 (isub (_currentLine w) (droppedLines scr)) in
      set_currentLine w (qMin cl (getHistLines scr)) in
  (set_dirty w1, [outputChanged]).

(** *** Runs of a window

    The operations that change a window or talk to the screen.  An [int]
    argument arrives converted to an [int]. *)
Inductive Op :=
| GetImage
| SetSelectionStart (column line : Z) (columnMode : bool)
| SetSelectionEnd (column line : Z) (trimTrailingWhitespace : bool)
| SetSelectionByLineRange (start end_ : Z)
| ClearSelection
| SetWindowLines (lines : Z)
| SetCurrentResultLine (line : Z)
| ScrollBy (mode : RelativeScrollMode) (amount : Z) (fullPage : bool)
| ScrollTo (line : Z)
| SetTrackOutput (trackOutput : bool)
| ResetScrollCount
| UpdateCurrentLine
| NotifyOutputChanged.

Definition step (w : ScreenWindow) (scr : Screen) (op : Op)
  : option (ScreenWindow * list Event) :=
  match op with
  | GetImage => Some (getImage w scr)
  | SetSelectionStart c l m => Some (setSelectionStart w scr (to_int c) (to_int l) m)
  | SetSelectionEnd c l t => Some (setSelectionEnd w scr (to_int c) (to_int l) t)
  | SetSelectionByLineRange s e =>
      Some (setSelectionByLineRange w scr (to_int s) (to_int e))
  | ClearSelection => Some (clearSelection w scr)
  | SetWindowLines n => w' ← setWindowLines w (to_int n); Some (w', [])
  | SetCurrentResultLine l => Some (setCurrentResultLine w (to_int l))
  | ScrollBy m a f => scrollBy w scr m (to_int a) f
  | ScrollTo l => Some (scrollTo w scr (to_int l))
  | SetTrackOutput t => Some (setTrackOutput w t, [])
  | ResetScrollCount => Some (resetScrollCount w, [])
  | UpdateCurrentLine => Some (updateCurrentLine w scr, [])
  | NotifyOutputChanged => Some (notifyOutputChanged w scr)
  end.

(** A run: each operation with the state of the screen at the time. *)
Fixpoint run (w : ScreenWindow) (ops : list (Screen * Op))
  : option (ScreenWindow * list Event) :=
  match ops with
  | [] => Some (w, [])
  | (scr, op) :: ops' =>
      '(w1, ev1) ← step w scr op;
      '(w2, ev2) ← run w1 ops';
      Some (w2, ev1 ++ ev2)
  end.

Definition run_new (ops : list (Screen * Op)) : option (ScreenWindow * list Event) :=
  '(w, ev) ← run (fst ScreenWindow_new) ops;
  Some (w, snd ScreenWindow_new ++ ev).

(** *** Properties of the window *)

Lemma to_int_add_mul z k : to_int (z + k * 2 ^ 32) = to_int z.
Proof.
  unfold to_int. replace (z + k * 2 ^ 32 + 2 ^ 31) with (z + 2 ^ 31 + k * 2 ^ 32) by lia.
  rewrite Z_mod_plus_full. reflexivity.
Qed.

Lemma to_int_decomp z : exists k, to_int z = z + k * 2 ^ 32.
Proof.
  exists (- ((z + 2 ^ 31) / 2 ^ 32)). unfold to_int.
  rewrite Z.mod_eq by lia. lia.
Qed.

(** Subtracting a difference and subtracting from a sum agree in [int]
    arithmetic, overflow or not. *)
Lemma isub_isub a b c : isub a (isub b c) = isub (iadd a c) b.
Proof.
  unfold isub, iadd.
  destruct (to_int_decomp (b - c)) as [k ->].
  destruct (to_int_decomp (a + c)) as [k' ->].
  replace (a - (b - c + k * 2 ^ 32)) with (a - b + c + (- k) * 2 ^ 32) by lia.
  replace (a + c + k' * 2 ^ 32 - b) with (a - b + c + k' * 2 ^ 32) by lia.
  rewrite !to_int_add_mul. reflexivity.
Qed.

(** The observer [currentLine] clamps whatever the member holds. *)
Lemma currentLine_range w scr :
  0 <= currentLine w scr <= qMax 0 (isub (lineCount scr) (windowLines w)).
Proof.
  unfold currentLine. apply qBound_range. rewrite qMax_max. lia.
Qed.

(** Every [scrollBy] that returns ends in a [scrollTo]. *)
Lemma scrollBy_scrollTo w scr mode amount fullPage r :
  scrollBy w scr mode amount fullPage = Some r ->
  exists line, r = scrollTo w scr line.
Proof.
  unfold scrollBy.
  assert (Hpages :
    (if fullPage
     then Some (scrollTo w scr (iadd (currentLine w scr) (imul amount (windowLines w))))
     else Some (scrollTo w scr (iadd (currentLine w scr)
                                     (imul amount (Z.quot (windowLines w) 2)))))
    = Some r -> exists line, r = scrollTo w scr line).
  { destruct fullPage; intros [= <-]; eauto. }
  destruct mode; [intros [= <-]; eauto|exact Hpages|].
  destruct (negb (hasRepl scr)); [exact Hpages|].
  destruct (amount <? 0).
  { destruct (prompt_up _ _ _ _) as [i'|]; cbn [mbind option_bind]; [|discriminate].
    intros [= <-]. eauto. }
  destruct (amount >? 0).
  { destruct (prompt_down _ _ _ _ _ _) as [i'|]; cbn [mbind option_bind]; [|discriminate].
    intros [= <-]. eauto. }
  intros [= <-]. eauto.
Qed.

(** The window height stays positive and within an [int]. *)
Definition height_ok (w : ScreenWindow) : Prop := 0 < _windowLines w <= int_max.

Lemma step_height_ok w scr op w' ev :
  height_ok w -> step w scr op = Some (w', ev) -> height_ok w'.
Proof.
  unfold height_ok. intros Hw.
  destruct op; simpl; try (intros [= <- _]; exact Hw).
  - unfold getImage.
    destruct (negb (_windowBuffer w) || negb (_windowBufferSize w =? _));
      simpl; destruct (_bufferNeedsUpdate w); simpl; intros [= <- _]; exact Hw.
  - unfold setWindowLines. pose proof (to_int_range lines) as Hr.
    destruct (Z.gtb_spec (to_int lines) 0); simpl; [|discriminate].
    intros [= <- _]. simpl. unfold in_int in Hr. lia.
  - unfold setCurrentResultLine. destruct (_currentResultLine w =? to_int line);
      intros [= <- _]; exact Hw.
  - intros H. destruct (scrollBy_scrollTo _ _ _ _ _ _ H) as [line [= -> _]]. exact Hw.
  - unfold updateCurrentLine. destruct (isResize scr); simpl; intros [= <- _]; exact Hw.
  - unfold notifyOutputChanged. destruct (_trackOutput w); simpl; intros [= <- _]; exact Hw.
Qed.

Lemma run_height_ok ops : forall w w' ev,
  height_ok w -> run w ops = Some (w', ev) -> height_ok w'.
Proof.
  induction ops as [|[scr op] ops IH]; intros w w' ev Hw; simpl.
  - intros [= <- _]. exact Hw.
  - destruct (step w scr op) as [[w1 ev1]|] eqn:E; simpl; [|discriminate].
    destruct (run w1 ops) as [[w2 ev2]|] eqn:E2; simpl; [|discriminate].
    intros [= <- _]. exact (IH w1 w2 ev2 (step_height_ok _ _ _ _ _ Hw E) E2).
Qed.

Lemma height_ok_new : height_ok (fst ScreenWindow_new).
Proof. unfold height_ok, int_max. simpl. lia. Qed.

Lemma run_new_height_ok ops w ev : run_new ops = Some (w, ev) -> height_ok w.
Proof.
  unfold run_new. destruct (run (fst ScreenWindow_new) ops) as [[w1 ev1]|] eqn:E;
    simpl; [|discriminate].
  intros [= <- _]. exact (run_height_ok ops _ _ _ height_ok_new E).
Qed.

(** C7: after any run of window operations, under any state of the screen
    whose line counts are not negative and add up to an [int], the observed
    current line lies between 0 and [max(0, totalLines - windowLines)]. *)
Theorem currentLine_clamped ops w ev scr :
  run_new ops = Some (w, ev) ->
  0 <= getHistLines scr -> 0 <= getLines scr ->
  getHistLines scr + getLines scr <= int_max ->
  0 <= currentLine w scr
    <= Z.max 0 (getHistLines scr + getLines scr - windowLines w).
Proof.
  intros Hrun Hh Hl Hsum. pose proof (run_new_height_ok _ _ _ Hrun) as Hw.
  pose proof (currentLine_range w scr) as Hr. unfold height_ok in Hw.
  unfold lineCount, iadd, isub, windowLines in *.
  rewrite qMax_max in Hr.
  rewrite (to_int_id (getHistLines scr + getLines scr)) in Hr
    by (unfold in_int, int_min, int_max in *; lia).
  rewrite to_int_id in Hr by (unfold in_int, int_min, int_max in *; lia).
  exact Hr.
Qed.

(** C8: a tracking window that is notified of new output observes, as its
    current line, [max(0, histLines - (windowLines - lines))]: in [int]
    arithmetic for all values, and as integers whenever the two subtractions
    do not overflow. *)
Theorem tracking_currentLine w scr :
  _trackOutput w = true ->
  let w' := fst (notifyOutputChanged w scr) in
  currentLine w' scr
  = qMax 0 (isub (getHistLines scr) (isub (windowLines w) (getLines scr)))
  /\ (in_int (windowLines w - getLines scr) ->
      in_int (getHistLines scr - (windowLines w - getLines scr)) ->
      currentLine w' scr
      = Z.max 0 (getHistLines scr - (windowLines w - getLines scr))).
Proof.
  intros Ht w'.
  assert (H1 : currentLine w' scr
               = qMax 0 (isub (getHistLines scr) (isub (windowLines w) (getLines scr)))).
  { unfold w', notifyOutputChanged, currentLine. rewrite Ht. simpl.
    unfold windowLines, lineCount. simpl.
    rewrite (isub_isub (getHistLines scr) (_windowLines w) (getLines scr)).
    unfold qBound. rewrite !qMax_max, !qMin_min. lia. }
  split; [exact H1|].
  intros Ha Hb. rewrite H1, qMax_max. unfold isub.
  rewrite (to_int_id _ Ha), (to_int_id _ Hb). reflexivity.
Qed.

(** C10: the window's line properties have exactly [windowLines] entries: the
    screen's answer cut to that length, or padded with default-constructed
    properties. *)
Theorem getLineProperties_windowLines w scr :
  0 <= windowLines w ->
  exists result,
    ScreenWindow_getLineProperties w scr = Some result
    /\ Z.of_nat (length result) = windowLines w
    /\ result
       = take (Z.to_nat (windowLines w))
              (getLineProperties scr (currentLine w scr) (endWindowLine w scr))
         ++ replicate
              (Z.to_nat (windowLines w)
               - length (getLineProperties scr (currentLine w scr) (endWindowLine w scr)))
              LineProperty_default.
Proof.
  intros Hw. unfold ScreenWindow_getLineProperties.
  set (props := getLineProperties scr (currentLine w scr) (endWindowLine w scr)).
  destruct (Z.eqb_spec (Z.of_nat (length props)) (windowLines w)) as [He|Hne]; simpl.
  - exists props. split; [reflexivity|]. split; [exact He|].
    rewrite take_ge by lia.
    replace (Z.to_nat (windowLines w) - length props)%nat with 0%nat by lia.
    simpl. rewrite app_nil_r. reflexivity.
  - unfold resize. destruct (Z.ltb_spec (windowLines w) 0); [lia|].
    eexists. split; [reflexivity|]. split; [|reflexivity].
    rewrite length_app, length_take, length_replicate. lia.
Qed.

(** The three selection setters mark the image dirty and emit
    [selectionChanged]. *)
Lemma selection_setters_mark_dirty w scr :
  (forall c l m, _bufferNeedsUpdate (fst (setSelectionStart w scr c l m)) = true
                 /\ In selectionChanged (snd (setSelectionStart w scr c l m)))
  /\ (forall c l t, _bufferNeedsUpdate (fst (setSelectionEnd w scr c l t)) = true
                    /\ In selectionChanged (snd (setSelectionEnd w scr c l t)))
  /\ (forall s e, _bufferNeedsUpdate (fst (setSelectionByLineRange w scr s e)) = true
                  /\ In selectionChanged (snd (setSelectionByLineRange w scr s e))).
Proof.
  repeat split; simpl; auto.
Qed.

(** A dirty image stays dirty until [getImage]. *)
Lemma dirty_until_getImage w scr op w' ev :
  op <> GetImage ->
  _bufferNeedsUpdate w = true ->
  step w scr op = Some (w', ev) ->
  _bufferNeedsUpdate w' = true.
Proof.
  intros Hop Hd. destruct op; simpl; try congruence;
    try (intros [= <- _]; simpl; congruence).
  - unfold setWindowLines. destruct (to_int lines >? 0); simpl; [|discriminate].
    intros [= <- _]. exact Hd.
  - unfold setCurrentResultLine. destruct (_currentResultLine w =? to_int line);
      intros [= <- _]; exact Hd.
  - intros H. destruct (scrollBy_scrollTo _ _ _ _ _ _ H) as [line [= -> _]]. reflexivity.
  - unfold updateCurrentLine. destruct (isResize scr); simpl; intros [= <- _]; exact Hd.
Qed.

(** C3: [clearSelection] emits [selectionChanged] but does not touch the
    dirty flag.  On a window whose image was just materialised the cache is
    clean, and it is still clean after [clearSelection]; the specification
    expects it dirty, as the three selection setters leave it. *)
Theorem clearSelection_leaves_cache_clean scr :
  let w := fst (getImage (fst ScreenWindow_new) scr) in
  _bufferNeedsUpdate w = false
  /\ _bufferNeedsUpdate (fst (clearSelection w scr)) = false
  /\ snd (clearSelection w scr) = [Screen_clearSelection; selectionChanged]
  /\ forall w0, _bufferNeedsUpdate (fst (clearSelection w0 scr)) = _bufferNeedsUpdate w0.
Proof.
  repeat split.
Qed.

(** *** The image cache *)

Ltac window_fields :=
  cbn [_windowBuffer _windowBufferSize _bufferNeedsUpdate _windowLines _currentLine
       _currentResultLine _trackOutput _scrollCount fst snd negb orb andb] in *.

(** X18: [getImage] caches.  Whatever the window and the screen, a second
    [getImage] right after a first, with the screen's geometry unchanged,
    asks the screen for nothing and leaves the window as it is; the first
    call leaves the image clean, and on a dirty window it does fetch. *)
Theorem getImage_twice_fetches_once w scr :
  getImage (fst (getImage w scr)) scr = (fst (getImage w scr), [])
  /\ _bufferNeedsUpdate (fst (getImage w scr)) = false
  /\ _windowBufferSize (fst (getImage w scr)) = imul (windowLines w) (windowColumns scr)
  /\ (_bufferNeedsUpdate w = true ->
      exists fill,
        snd (getImage w scr)
        = Screen_getImage (imul (windowLines w) (windowColumns scr))
            (currentLine w scr) (endWindowLine w scr) :: fill).
Proof.
  destruct w as [buf bsize dirty wl cl crl track sc].
  unfold getImage, endWindowLine, currentLine, windowLines. window_fields.
  set (size := imul wl (windowColumns scr)).
  destruct buf; window_fields.
  2:{ rewrite Z.eqb_refl. window_fields.
      repeat split. intros _. eexists. reflexivity. }
  destruct (Z.eqb_spec bsize size) as [->|Hne]; window_fields.
  2:{ rewrite Z.eqb_refl. window_fields.
      repeat split. intros _. eexists. reflexivity. }
  destruct dirty; window_fields; rewrite Z.eqb_refl; window_fields.
  - repeat split. intros _. eexists. reflexivity.
  - repeat split. discriminate.
Qed.

Ltac int_ok := unfold in_int, int_min, int_max in *; lia.

(** What a fetch asks of the screen, in terms of the window's height [wl],
    its stored line [cl] and the screen's counts. *)
Lemma cover_events wl cl hist lines cols :
  0 < wl <= int_max -> 0 <= hist -> 0 <= lines -> hist + lines <= int_max ->
  0 <= cols -> wl * cols <= int_max ->
  let cur := qBound 0 cl (qMax 0 (isub (iadd hist lines) wl)) in
  let shown := Z.min wl (hist + lines - cur) in
  0 <= shown
  /\ Screen_getImage (imul wl cols) cur
       (qMin (isub (iadd cur wl) 1) (isub (iadd hist lines) 1))
     :: (if isub (isub (iadd cur wl) 1) (isub (iadd hist lines) 1) <=? 0 then []
         else [Screen_fillWithDefaultChar
                 (imul wl cols
                  - imul (isub (isub (iadd cur wl) 1) (isub (iadd hist lines) 1)) cols)
                 (imul (isub (isub (iadd cur wl) 1) (isub (iadd hist lines) 1)) cols)])
     = Screen_getImage (wl * cols) cur (cur + shown - 1)
       :: (if shown <? wl
           then [Screen_fillWithDefaultChar (shown * cols) ((wl - shown) * cols)]
           else []).
Proof.
  intros Hw Hh Hl Hsum Hc Hsize. cbn zeta.
  assert (Htot : iadd hist lines = hist + lines) by (unfold iadd; apply to_int_id; int_ok).
  rewrite !Htot. set (total := hist + lines) in *.
  assert (Hmax : isub total wl = total - wl) by (unfold isub; apply to_int_id; int_ok).
  rewrite !Hmax.
  assert (Hcur : 0 <= qBound 0 cl (qMax 0 (total - wl)) <= Z.max 0 (total - wl)).
  { rewrite <- qMax_max. apply qBound_range. rewrite qMax_max. lia. }
  set (cur := qBound 0 cl (qMax 0 (total - wl))) in *. clearbody cur.
  assert (Hsz : imul wl cols = wl * cols).
  { unfold imul. apply to_int_id. assert (0 <= wl * cols) by nia. int_ok. }
  assert (Hend : isub (iadd cur wl) 1 = cur + wl - 1).
  { unfold isub, iadd. rewrite (to_int_id (cur + wl)) by int_ok.
    apply to_int_id. int_ok. }
  assert (Hlast : isub total 1 = total - 1) by (unfold isub; apply to_int_id; int_ok).
  rewrite !Hsz, !Hend, !Hlast.
  assert (Hun : isub (cur + wl - 1) (total - 1) = cur + wl - total).
  { unfold isub. rewrite to_int_id by int_ok. lia. }
  rewrite !Hun, qMin_min. split; [lia|].
  replace (Z.min (cur + wl - 1) (total - 1)) with (cur + Z.min wl (total - cur) - 1) by lia.
  f_equal.
  destruct (Z.leb_spec (cur + wl - total) 0); destruct (Z.ltb_spec (Z.min wl (total - cur)) wl);
    try lia; [reflexivity|].
  assert (Hfill : imul (cur + wl - total) cols = (cur + wl - total) * cols).
  { unfold imul. apply to_int_id.
    assert (0 <= (cur + wl - total) * cols <= wl * cols) by nia. int_ok. }
  rewrite Hfill. replace (Z.min wl (total - cur)) with (total - cur) by lia.
  f_equal; f_equal; lia.
Qed.

(** X19: a fetched image covers the window exactly.  On a dirty window,
    with sizes that fit an [int], [getImage] asks the screen for the lines
    from the current line through the last line shown, and when the output
    ends above the window's bottom it fills the rest of the buffer with
    blanks, starting right behind the cells fetched: lines fetched plus lines
    filled make up the window's height. *)
Theorem getImage_covers_the_window ops w ev scr :
  run_new ops = Some (w, ev) ->
  _bufferNeedsUpdate w = true ->
  0 <= getHistLines scr -> 0 <= getLines scr ->
  getHistLines scr + getLines scr <= int_max ->
  0 <= getColumns scr ->
  windowLines w * getColumns scr <= int_max ->
  let total := getHistLines scr + getLines scr in
  let shown := Z.min (windowLines w) (total - currentLine w scr) in
  0 <= shown
  /\ snd (getImage w scr)
     = Screen_getImage (windowLines w * getColumns scr)
         (currentLine w scr) (currentLine w scr + shown - 1)
       :: (if shown <? windowLines w
           then [Screen_fillWithDefaultChar (shown * getColumns scr)
                   ((windowLines w - shown) * getColumns scr)]
           else []).
Proof.
  intros Hrun Hdirty Hh Hl Hsum Hc Hsize total shown.
  pose proof (run_new_height_ok _ _ _ Hrun) as Hw. unfold height_ok in Hw.
  clear Hrun. subst shown total.
  destruct w as [buf bsize dirty wl cl crl track sc].
  unfold windowLines in *. window_fields. subst dirty.
  pose proof (cover_events wl cl (getHistLines scr) (getLines scr) (getColumns scr)
                Hw Hh Hl Hsum Hc Hsize) as Hcover.
  cbn zeta in Hcover.
  unfold getImage, fillUnusedArea, endWindowLine, currentLine, windowLines, lineCount,
    windowColumns.
  window_fields.
  destruct buf; [destruct (Z.eqb_spec bsize (imul wl (getColumns scr))) as [->|Hne]|];
    window_fields; exact Hcover.
Qed.

(** *** Scrolling *)

Lemma to_int_congr a b c : to_int a = to_int b -> to_int (a + c) = to_int (b + c).
Proof.
  intros H. destruct (to_int_decomp a) as [k Ha]. destruct (to_int_decomp b) as [k' Hb].
  replace (a + c) with (b + c + (k' - k) * 2 ^ 32) by lia.
  apply to_int_add_mul.
Qed.

Lemma to_int_to_int_add a b : to_int (a + to_int b) = to_int (a + b).
Proof.
  destruct (to_int_decomp b) as [k ->].
  replace (a + (b + k * 2 ^ 32)) with (a + b + k * 2 ^ 32) by lia.
  apply to_int_add_mul.
Qed.

(** X20: [scrollTo] lands inside the output.  For a reachable window and a
    screen whose line counts fit an [int], [scrollTo(line)] stores the
    requested line clamped to [0 .. max(0, total - windowLines)], announces
    exactly that line with [scrolled], marks the image dirty, and the line it
    stores is the line [currentLine()] reports afterwards. *)
Theorem scrollTo_lands_in_range ops w ev scr line :
  run_new ops = Some (w, ev) ->
  0 <= getHistLines scr -> 0 <= getLines scr ->
  getHistLines scr + getLines scr <= int_max ->
  let target :=
    Z.max 0 (Z.min line (getHistLines scr + getLines scr - windowLines w)) in
  let w' := fst (scrollTo w scr line) in
  snd (scrollTo w scr line) = [scrolled target]
  /\ _currentLine w' = target
  /\ currentLine w' scr = target
  /\ _bufferNeedsUpdate w' = true
  /\ windowLines w' = windowLines w
  /\ _scrollCount w' = to_int (_scrollCount w + (target - _currentLine w)).
Proof.
  intros Hrun Hh Hl Hsum target w'.
  pose proof (run_new_height_ok _ _ _ Hrun) as Hw. unfold height_ok in Hw.
  clear Hrun. subst w'.
  destruct w as [buf bsize dirty wl cl crl track sc].
  unfold scrollTo, currentLine, windowLines, lineCount in *. window_fields.
  assert (Htot : iadd (getHistLines scr) (getLines scr)
                 = getHistLines scr + getLines scr)
    by (unfold iadd; apply to_int_id; int_ok).
  rewrite !Htot.
  assert (Hmax : isub (getHistLines scr + getLines scr) wl
                 = getHistLines scr + getLines scr - wl)
    by (unfold isub; apply to_int_id; int_ok).
  rewrite !Hmax.
  assert (Ht : qBound 0 line (getHistLines scr + getLines scr - wl) = target).
  { unfold qBound. rewrite qMax_max, qMin_min. unfold target. lia. }
  rewrite !Ht.
  repeat split.
  - unfold qBound. rewrite !qMax_max, !qMin_min. unfold target. lia.
  - unfold iadd, isub. apply to_int_to_int_add.
Qed.

(** The operations that move the window only by scrolling, or not at all. *)
Definition scrolls_only (op : Op) : bool :=
  match op with
  | ResetScrollCount | UpdateCurrentLine | NotifyOutputChanged => false
  | _ => true
  end.

Lemma scrollTo_count w scr line :
  to_int (_scrollCount (fst (scrollTo w scr line)) - _currentLine (fst (scrollTo w scr line)))
  = to_int (_scrollCount w - _currentLine w)
  /\ in_int (_scrollCount (fst (scrollTo w scr line))).
Proof.
  unfold scrollTo. cbn [fst _scrollCount _currentLine].
  set (l := qBound 0 line (isub (lineCount scr) (windowLines w))).
  split; [|apply to_int_range].
  unfold iadd, isub. rewrite to_int_to_int_add.
  destruct (to_int_decomp (_scrollCount w + (l - _currentLine w))) as [k ->].
  replace (_scrollCount w + (l - _currentLine w) + k * 2 ^ 32 - l)
    with (_scrollCount w - _currentLine w + k * 2 ^ 32) by lia.
  apply to_int_add_mul.
Qed.

Lemma step_scroll_count w scr op w' ev :
  scrolls_only op = true ->
  step w scr op = Some (w', ev) ->
  in_int (_scrollCount w) ->
  to_int (_scrollCount w' - _currentLine w') = to_int (_scrollCount w - _currentLine w)
  /\ in_int (_scrollCount w').
Proof.
  intros Hop Hstep Hin.
  destruct op; try discriminate; cbn [step] in Hstep;
    try (injection Hstep as <- _; split; [reflexivity|exact Hin]).
  - unfold getImage in Hstep.
    destruct (negb (_windowBuffer w) || negb (_windowBufferSize w =? _));
      destruct (_bufferNeedsUpdate w); window_fields;
      injection Hstep as <- _; split; try reflexivity; exact Hin.
  - unfold setWindowLines in Hstep.
    destruct (to_int lines >? 0); cbn [mbind option_bind] in Hstep; [|discriminate].
    injection Hstep as <- _. split; [reflexivity|exact Hin].
  - unfold setCurrentResultLine in Hstep.
    destruct (_currentResultLine w =? to_int line); injection Hstep as <- _;
      split; try reflexivity; exact Hin.
  - destruct (scrollBy_scrollTo _ _ _ _ _ _ Hstep) as [l Hl].
    apply (f_equal fst) in Hl. cbn [fst] in Hl. subst w'.
    exact (scrollTo_count w scr l).
  - injection Hstep as <- _. exact (scrollTo_count w scr (to_int line)).
Qed.

(** X21: the scroll count is the distance scrolled.  From
    [resetScrollCount] on, through any run of operations that move the window
    only by [scrollTo] and [scrollBy], [scrollCount()] equals the stored
    current line minus the line stored at the reset, in [int] arithmetic:
    clamped requests count for what they moved, not for what was asked. *)
Theorem scrollCount_is_net_displacement w ops w' ev :
  Forall (fun o : Screen * Op => scrolls_only (snd o) = true) ops ->
  run (resetScrollCount w) ops = Some (w', ev) ->
  _scrollCount w' = isub (_currentLine w') (_currentLine w).
Proof.
  intros Hops Hrun.
  assert (Hgen : forall ops w0 w1 ev1,
    Forall (fun o : Screen * Op => scrolls_only (snd o) = true) ops ->
    run w0 ops = Some (w1, ev1) -> in_int (_scrollCount w0) ->
    to_int (_scrollCount w1 - _currentLine w1) = to_int (_scrollCount w0 - _currentLine w0)
    /\ in_int (_scrollCount w1)).
  { clear. induction ops as [|[scr op] ops IH]; intros w0 w1 ev1 Hops Hrun Hin.
    - injection Hrun as <- _. split; [reflexivity|exact Hin].
    - inversion Hops as [|? ? Hop Hrest]; subst. cbn [snd] in Hop.
      cbn [run] in Hrun.
      destruct (step w0 scr op) as [[wa eva]|] eqn:E; cbn [mbind option_bind] in Hrun;
        [|discriminate].
      destruct (run wa ops) as [[wb evb]|] eqn:E2; cbn [mbind option_bind] in Hrun;
        [|discriminate].
      injection Hrun as <- _.
      destruct (step_scroll_count _ _ _ _ _ Hop E Hin) as [H1 Hin1].
      destruct (IH wa wb evb Hrest E2 Hin1) as [H2 Hin2].
      split; [congruence|exact Hin2]. }
  destruct (Hgen ops (resetScrollCount w) w' ev Hops Hrun) as [H Hin].
  { cbn [resetScrollCount _scrollCount]. int_ok. }
  cbn [resetScrollCount _scrollCount _currentLine] in H.
  apply (to_int_congr _ _ (_currentLine w')) in H.
  replace (_scrollCount w' - _currentLine w' + _currentLine w') with (_scrollCount w')
    in H by lia.
  rewrite (to_int_id _ Hin) in H. rewrite H. unfold isub. f_equal. lia.
Qed.

(** X22: a tracking window is at the end of the output after a
    notification exactly when the output fills the window.
    [notifyOutputChanged] puts a tracking window on line
    [max(0, total - windowLines)], and [atEndOfOutput] compares the current
    line with [total - windowLines] unclamped, so it answers [false] while
    the output is shorter than the window. *)
Theorem tracking_window_at_end_of_output ops w ev scr :
  run_new ops = Some (w, ev) ->
  _trackOutput w = true ->
  0 <= getHistLines scr -> 0 <= getLines scr ->
  getHistLines scr + getLines scr <= int_max ->
  atEndOfOutput (fst (notifyOutputChanged w scr)) scr
  = (windowLines w <=? getHistLines scr + getLines scr).
Proof.
  intros Hrun Htrack Hh Hl Hsum.
  pose proof (run_new_height_ok _ _ _ Hrun) as Hw. unfold height_ok in Hw.
  clear Hrun.
  destruct w as [buf bsize dirty wl cl crl track sc]. window_fields. subst track.
  unfold atEndOfOutput, notifyOutputChanged, currentLine, windowLines, lineCount, set_dirty.
  window_fields.
  assert (Htot : iadd (getHistLines scr) (getLines scr)
                 = getHistLines scr + getLines scr)
    by (unfold iadd; apply to_int_id; int_ok).
  rewrite !Htot.
  assert (Hmax : isub (getHistLines scr + getLines scr) wl
                 = getHistLines scr + getLines scr - wl)
    by (unfold isub; apply to_int_id; int_ok).
  rewrite !Hmax.
  assert (Hin : isub (getHistLines scr) (isub wl (getLines scr))
                = getHistLines scr + getLines scr - wl).
  { unfold isub. rewrite (to_int_id (wl - getLines scr)) by int_ok.
    rewrite to_int_id by int_ok. lia. }
  rewrite Hin. unfold qBound. rewrite !qMax_max, !qMin_min.
  destruct (Z.leb_spec wl (getHistLines scr + getLines scr));
    [apply Z.eqb_eq|apply Z.eqb_neq]; lia.
Qed.

(** *** Scrolling by prompts *)

Definition is_prompt (p : LineProperty) : bool := negb (prompt_start p =? 0).

(** The number of prompt lines among the entries [a .. b) of [properties]. *)
Definition prompts (properties : list LineProperty) (a b : nat) : nat :=
  length (List.filter is_prompt (take (b - a) (drop a properties))).

Lemma prompts_empty properties a : prompts properties a a = 0%nat.
Proof. unfold prompts. rewrite Nat.sub_diag. reflexivity. Qed.

Lemma prompts_snoc properties a b p :
  (a <= b)%nat -> properties !! b = Some p ->
  prompts properties a (S b)
  = (prompts properties a b + if is_prompt p then 1 else 0)%nat.
Proof.
  intros Hab Hb. unfold prompts.
  replace (S b - a)%nat with (S (b - a)) by lia.
  assert (Hd : drop a properties !! (b - a)%nat = Some p).
  { rewrite lookup_drop. replace (a + (b - a))%nat with b by lia. exact Hb. }
  rewrite (take_S_r _ _ _ Hd), List.filter_app, length_app. f_equal.
  cbn [List.filter]. destruct (is_prompt p); reflexivity.
Qed.

Lemma prompts_cons properties a b p :
  (a < b)%nat -> properties !! a = Some p ->
  prompts properties a b
  = ((if is_prompt p then 1 else 0) + prompts properties (S a) b)%nat.
Proof.
  intros Hab Ha. unfold prompts.
  rewrite (drop_S _ _ _ Ha). replace (b - a)%nat with (S (b - S a)) by lia.
  cbn [firstn List.filter]. destruct (is_prompt p); reflexivity.
Qed.

(** The upward loop stops on the [k]-th prompt line above line [n], or at
    line 0 when there are fewer than [k]. *)
Lemma prompt_up_spec properties : forall fuel n k,
  (n < fuel)%nat -> (0 < k)%nat -> (n <= length properties)%nat ->
  exists r,
    prompt_up fuel properties (Z.of_nat n) (- Z.of_nat k) = Some (Z.of_nat r)
    /\ (r <= n)%nat
    /\ ((r < n)%nat /\ (exists p, properties !! r = Some p /\ is_prompt p = true)
        /\ prompts properties r n = k
        \/ r = 0%nat /\ (prompts properties 0 n < k)%nat).
Proof.
  induction fuel as [|fuel IH]; intros n k Hfuel Hk Hlen; [lia|].
  cbn [prompt_up].
  destruct n as [|n].
  - exists 0%nat. split; [reflexivity|]. split; [lia|]. right.
    rewrite prompts_empty. lia.
  - destruct (Z.gtb_spec (Z.of_nat (S n)) 0); [|lia].
    destruct (Z.ltb_spec (- Z.of_nat k) 0); [|lia]. cbn [andb].
    replace (Z.of_nat (S n) - 1) with (Z.of_nat n) by lia. rewrite Nat2Z.id.
    destruct (lookup_lt_is_Some_2 properties n ltac:(lia)) as [p Hp].
    rewrite Hp. cbn [mbind option_bind]. fold (is_prompt p).
    pose proof (prompts_snoc properties) as Hsnoc.
    destruct (is_prompt p) eqn:Eprompt.
    + destruct (Z.eqb_spec (- Z.of_nat k + 1) 0) as [Hone|Hmore].
      * exists n. split; [reflexivity|]. split; [lia|]. left.
        split; [lia|]. split; [eauto|].
        rewrite (Hsnoc n n p ltac:(lia) Hp), prompts_empty, Eprompt. lia.
      * replace (- Z.of_nat k + 1) with (- Z.of_nat (k - 1)) by lia.
        destruct (IH n (k - 1)%nat ltac:(lia) ltac:(lia) ltac:(lia))
          as (r & Hr & Hle & Hcase).
        exists r. split; [exact Hr|]. split; [lia|].
        destruct Hcase as [(Hlt & Hpr & Hcnt)|(-> & Hcnt)].
        -- left. split; [lia|]. split; [exact Hpr|].
           rewrite (Hsnoc r n p ltac:(lia) Hp), Eprompt. lia.
        -- right. split; [reflexivity|].
           rewrite (Hsnoc 0%nat n p ltac:(lia) Hp), Eprompt. lia.
    + destruct (IH n k ltac:(lia) Hk ltac:(lia)) as (r & Hr & Hle & Hcase).
      exists r. split; [exact Hr|]. split; [lia|].
      destruct Hcase as [(Hlt & Hpr & Hcnt)|(-> & Hcnt)].
      * left. split; [lia|]. split; [exact Hpr|].
        rewrite (Hsnoc r n p ltac:(lia) Hp), Eprompt. lia.
      * right. split; [reflexivity|].
        rewrite (Hsnoc 0%nat n p ltac:(lia) Hp), Eprompt. lia.
Qed.

(** The downward loop, [d] lines above the end of the history and at offset
    [o] into [properties]: it stops on the [k]-th prompt line below, or at the
    end of the history when there are fewer than [k]. *)
Lemma prompt_down_spec properties histLines current : forall fuel d o k,
  (d < fuel)%nat -> (0 < k)%nat -> (o + d < length properties)%nat ->
  0 <= current -> current + Z.of_nat (o + d) = histLines ->
  exists r,
    prompt_down fuel properties histLines current (current + Z.of_nat o) (Z.of_nat k)
    = Some (current + Z.of_nat r)
    /\ (o <= r <= o + d)%nat
    /\ ((o < r)%nat /\ (exists p, properties !! r = Some p /\ is_prompt p = true)
        /\ prompts properties (S o) (S r) = k
        \/ r = (o + d)%nat /\ (prompts properties (S o) (S (o + d)) < k)%nat).
Proof.
  induction fuel as [|fuel IH]; intros d o k Hfuel Hk Hlen Hcur Hhist; [lia|].
  cbn [prompt_down].
  destruct d as [|d].
  - destruct (Z.ltb_spec (current + Z.of_nat o) histLines); [lia|]. cbn [andb].
    exists o. split; [reflexivity|]. split; [lia|]. right.
    rewrite Nat.add_0_r, prompts_empty. split; [reflexivity|lia].
  - destruct (Z.ltb_spec (current + Z.of_nat o) histLines); [|lia].
    destruct (Z.gtb_spec (Z.of_nat k) 0); [|lia]. cbn [andb].
    replace (current + Z.of_nat o + 1) with (current + Z.of_nat (S o)) by lia.
    replace (current + Z.of_nat (S o) - current) with (Z.of_nat (S o)) by lia.
    destruct (Z.ltb_spec (Z.of_nat (S o)) 0); [lia|]. rewrite Nat2Z.id.
    destruct (lookup_lt_is_Some_2 properties (S o) ltac:(lia)) as [p Hp].
    rewrite Hp. cbn [mbind option_bind]. fold (is_prompt p).
    pose proof (prompts_cons properties) as Hcons.
    destruct (is_prompt p) eqn:Eprompt.
    + destruct (Z.eqb_spec (Z.of_nat k - 1) 0) as [Hone|Hmore].
      * exists (S o). split; [reflexivity|]. split; [lia|]. left.
        split; [lia|]. split; [eauto|].
        rewrite (Hcons (S o) (S (S o)) p ltac:(lia) Hp), prompts_empty, Eprompt. lia.
      * replace (Z.of_nat k - 1) with (Z.of_nat (k - 1)) by lia.
        destruct (IH d (S o) (k - 1)%nat ltac:(lia) ltac:(lia) ltac:(lia) Hcur ltac:(lia))
          as (r & Hr & Hle & Hcase).
        exists r. split; [exact Hr|]. split; [lia|].
        destruct Hcase as [(Hlt & Hpr & Hcnt)|(-> & Hcnt)].
        -- left. split; [lia|]. split; [exact Hpr|].
           rewrite (Hcons (S o) (S r) p ltac:(lia) Hp), Eprompt. lia.
        -- right. split; [lia|].
           replace (o + S d)%nat with (S o + d)%nat by lia.
           rewrite (Hcons (S o) (S (S o + d)) p ltac:(lia) Hp), Eprompt. lia.
    + destruct (IH d (S o) k ltac:(lia) Hk ltac:(lia) Hcur ltac:(lia))
        as (r & Hr & Hle & Hcase).
      exists r. split; [exact Hr|]. split; [lia|].
      destruct Hcase as [(Hlt & Hpr & Hcnt)|(-> & Hcnt)].
      * left. split; [lia|]. split; [exact Hpr|].
        rewrite (Hcons (S o) (S r) p ltac:(lia) Hp), Eprompt. lia.
      * right. split; [lia|].
        replace (o + S d)%nat with (S o + d)%nat by lia.
        rewrite (Hcons (S o) (S (S o + d)) p ltac:(lia) Hp), Eprompt. lia.
Qed.

(** X23: scrolling up by prompts.  With a shell that marks its prompts,
    [scrollBy(ScrollPrompts, -k)] scrolls to the [k]-th prompt line above the
    current line, and to line 0 when fewer than [k] prompt lines lie above
    it.  The screen is asked for the properties of the lines from 0 to the
    current line. *)
Theorem scrollBy_prompts_up w scr k fullPage :
  hasRepl scr = true -> (0 < k)%nat ->
  let cur := Z.to_nat (currentLine w scr) in
  let properties := getLineProperties scr 0 (currentLine w scr) in
  (cur <= length properties)%nat ->
  exists r,
    scrollBy w scr ScrollPrompts (- Z.of_nat k) fullPage
    = Some (scrollTo w scr (Z.of_nat r))
    /\ (r <= cur)%nat
    /\ ((r < cur)%nat /\ (exists p, properties !! r = Some p /\ is_prompt p = true)
        /\ prompts properties r cur = k
        \/ r = 0%nat /\ (prompts properties 0 cur < k)%nat).
Proof.
  intros Hrepl Hk cur properties Hlen.
  pose proof (currentLine_range w scr) as [Hpos _].
  unfold scrollBy. rewrite Hrepl. cbn [negb].
  destruct (Z.ltb_spec (- Z.of_nat k) 0); [|lia].
  fold properties. fold cur.
  destruct (prompt_up_spec properties (S cur) cur k ltac:(lia) Hk Hlen)
    as (r & Hr & Hle & Hcase).
  replace (Z.of_nat cur) with (currentLine w scr) in Hr by (unfold cur; lia).
  rewrite Hr. cbn [mbind option_bind]. exists r. auto.
Qed.

(** X24: scrolling down by prompts.  [scrollBy(ScrollPrompts, k)] scrolls
    to the [k]-th prompt line below the current line, and to the last line of
    the history when fewer than [k] prompt lines lie between.  The screen is
    asked for the properties of the lines from the current line to the end of
    the history, and the entry of the current line itself is not looked at. *)
Theorem scrollBy_prompts_down w scr k fullPage :
  hasRepl scr = true -> (0 < k)%nat ->
  let d := Z.to_nat (getHistLines scr - currentLine w scr) in
  let properties := getLineProperties scr (currentLine w scr) (getHistLines scr) in
  currentLine w scr <= getHistLines scr ->
  (d < length properties)%nat ->
  exists r,
    scrollBy w scr ScrollPrompts (Z.of_nat k) fullPage
    = Some (scrollTo w scr (currentLine w scr + Z.of_nat r))
    /\ (r <= d)%nat
    /\ ((0 < r)%nat /\ (exists p, properties !! r = Some p /\ is_prompt p = true)
        /\ prompts properties 1 (S r) = k
        \/ r = d /\ (prompts properties 1 (S d) < k)%nat).
Proof.
  intros Hrepl Hk d properties Hle Hlen.
  pose proof (currentLine_range w scr) as [Hpos _].
  unfold scrollBy. rewrite Hrepl. cbn [negb].
  destruct (Z.ltb_spec (Z.of_nat k) 0); [lia|].
  destruct (Z.gtb_spec (Z.of_nat k) 0); [|lia].
  fold properties. fold d.
  destruct (prompt_down_spec properties (getHistLines scr) (currentLine w scr)
              (S d) d 0%nat k ltac:(lia) Hk ltac:(simpl; lia) Hpos
              ltac:(unfold d; simpl; lia))
    as (r & Hr & Hrange & Hcase).
  change (Z.of_nat 0) with 0 in Hr. rewrite Z.add_0_r in Hr.
  rewrite Hr. cbn [mbind option_bind]. exists r.
  split; [reflexivity|]. split; [lia|].
  destruct Hcase as [(Hlt & Hpr & Hcnt)|(-> & Hcnt)]; [left|right]; auto.
Qed.

Lemma getImage_dirty w scr :
  _bufferNeedsUpdate w = true ->
  exists fill,
    snd (getImage w scr)
    = Screen_getImage (imul (windowLines w) (windowColumns scr))
        (currentLine w scr) (endWindowLine w scr) :: fill.
Proof.
  destruct w as [buf bsize dirty wl cl crl track sc]. window_fields. intros ->.
  unfold getImage, endWindowLine, currentLine, windowLines. window_fields.
  destruct (negb buf || negb (bsize =? imul wl (windowColumns scr)));
    window_fields; eexists; reflexivity.
Qed.

Lemma run_dirty ops : forall w w' ev,
  Forall (fun o : Screen * Op => snd o <> GetImage) ops ->
  _bufferNeedsUpdate w = true ->
  run w ops = Some (w', ev) ->
  _bufferNeedsUpdate w' = true.
Proof.
  induction ops as [|[scr op] ops IH]; intros w w' ev Hops Hd; cbn [run].
  - intros [= <- _]. exact Hd.
  - inversion Hops as [|? ? Hop Hrest]; subst. cbn [snd] in Hop.
    destruct (step w scr op) as [[w1 ev1]|] eqn:E; cbn [mbind option_bind]; [|discriminate].
    destruct (run w1 ops) as [[w2 ev2]|] eqn:E2; cbn [mbind option_bind]; [|discriminate].
    intros [= <- _].
    exact (IH w1 w2 ev2 Hrest (dirty_until_getImage _ _ _ _ _ Hop Hd E) E2).
Qed.

(** X25: a pending update is not lost.  Once an operation has marked the
    image dirty, no run of operations other than [getImage] clears the mark,
    and the next [getImage] -- whatever the screen then looks like -- fetches
    the image again for the window's current line range. *)
Theorem pending_update_is_fetched w ops w' ev scr :
  _bufferNeedsUpdate w = true ->
  Forall (fun o : Screen * Op => snd o <> GetImage) ops ->
  run w ops = Some (w', ev) ->
  _bufferNeedsUpdate w' = true
  /\ exists fill,
       snd (getImage w' scr)
       = Screen_getImage (imul (windowLines w') (windowColumns scr))
           (currentLine w' scr) (endWindowLine w' scr) :: fill.
Proof.
  intros Hd Hops Hrun.
  pose proof (run_dirty ops w w' ev Hops Hd Hrun) as Hd'.
  split; [exact Hd'|]. exact (getImage_dirty w' scr Hd').
Qed.

(** *** Selection coordinates *)

(** [ScreenWindow::getSelectionStart] and [getSelectionEnd]: [answer] is the
    column and line that the screen's query of the same name stores. *)
Definition getSelectionStart (w : ScreenWindow) (scr : Screen) (answer : Z * Z) : Z * Z :=
  (fst answer, isub (snd answer) (currentLine w scr)).
Definition getSelectionEnd (w : ScreenWindow) (scr : Screen) (answer : Z * Z) : Z * Z :=
  (fst answer, isub (snd answer) (currentLine w scr)).

(** X26: selection coordinates are window-relative in both directions.
    [setSelectionStart] and [setSelectionEnd] hand the screen the line moved
    down by [currentLine()] and leave the window's position alone, and
    [getSelectionStart] and [getSelectionEnd] move the screen's answer back
    up: when the screen answers with the point it was given, the window
    returns the column and line its caller set, also where the sum wraps
    around in [int] arithmetic. *)
Theorem selection_coordinates_round_trip w scr column line flag :
  in_int line ->
  (exists l,
     snd (setSelectionStart w scr column line flag)
     = [Screen_setSelectionStart column l flag; selectionChanged]
     /\ getSelectionStart (fst (setSelectionStart w scr column line flag)) scr (column, l)
        = (column, line))
  /\ (exists l,
        snd (setSelectionEnd w scr column line flag)
        = [Screen_setSelectionEnd column l flag; selectionChanged]
        /\ getSelectionEnd (fst (setSelectionEnd w scr column line flag)) scr (column, l)
           = (column, line)).
Proof.
  intros Hline.
  assert (Hback : isub (iadd line (currentLine w scr)) (currentLine w scr) = line).
  { unfold isub, iadd. destruct (to_int_decomp (line + currentLine w scr)) as [k ->].
    replace (line + currentLine w scr + k * 2 ^ 32 - currentLine w scr)
      with (line + k * 2 ^ 32) by lia.
    rewrite to_int_add_mul. apply to_int_id. exact Hline. }
  assert (Hcur : currentLine (set_dirty w) scr = currentLine w scr) by reflexivity.
  split; eexists; (split; [reflexivity|]);
    unfold getSelectionStart, getSelectionEnd, setSelectionStart, setSelectionEnd;
    cbn [fst snd]; rewrite Hcur, Hback; reflexivity.
Qed.

(** *** Concrete windows *)

(** A screen of 80 columns with [hist] lines of history above [lines] live
    lines, one line scrolled since the last notification, answering a
    property query with one default entry per line asked for. *)
Definition sample_screen (hist lines : Z) : Screen :=
  {| getColumns := 80; getLines := lines; getHistLines := hist;
     getOldTotalLines := hist + lines; isResize := false;
     scrolledLines := 1; droppedLines := 0; hasRepl := false;
     getLineProperties :=
       fun a b => replicate (Z.to_nat (b - a + 1)) LineProperty_default;
     isSelected := fun _ _ => false |}.

Lemma currentLine_clamped_witness :
  exists w ev,
    run_new [(sample_screen 100 24, SetWindowLines 10);
             (sample_screen 100 24, ScrollTo 1000);
             (sample_screen 90 24, SetTrackOutput false);
             (sample_screen 90 24, NotifyOutputChanged)] = Some (w, ev)
    /\ 0 <= currentLine w (sample_screen 20 24) <= Z.max 0 (20 + 24 - windowLines w).
Proof.
  eexists _, _. split; [vm_compute; reflexivity|].
  eapply (currentLine_clamped
            [(sample_screen 100 24, SetWindowLines 10);
             (sample_screen 100 24, ScrollTo 1000);
             (sample_screen 90 24, SetTrackOutput false);
             (sample_screen 90 24, NotifyOutputChanged)]).
  - vm_compute. reflexivity.
  - simpl. lia.
  - simpl. lia.
  - unfold int_max. simpl. lia.
Defined.

Lemma tracking_currentLine_witness :
  let w := fst (getImage (fst ScreenWindow_new) (sample_screen 100 24)) in
  let w' := fst (notifyOutputChanged w (sample_screen 100 24)) in
  currentLine w' (sample_screen 100 24)
  = qMax 0 (isub 100 (isub (windowLines w) 24))
  /\ currentLine w' (sample_screen 100 24) = Z.max 0 (100 - (windowLines w - 24)).
Proof.
  destruct (tracking_currentLine
              (fst (getImage (fst ScreenWindow_new) (sample_screen 100 24)))
              (sample_screen 100 24) eq_refl) as [Hint Hideal].
  split; [exact Hint|].
  apply Hideal; unfold in_int, int_min, int_max; simpl; lia.
Defined.

Lemma getLineProperties_windowLines_witness :
  exists w,
    setWindowLines (fst ScreenWindow_new) 10 = Some w
    /\ exists result,
         ScreenWindow_getLineProperties w (sample_screen 0 4) = Some result
         /\ Z.of_nat (length result) = windowLines w
         /\ result
            = take (Z.to_nat (windowLines w))
                (getLineProperties (sample_screen 0 4)
                   (currentLine w (sample_screen 0 4))
                   (endWindowLine w (sample_screen 0 4)))
              ++ replicate
                   (Z.to_nat (windowLines w)
                    - length (getLineProperties (sample_screen 0 4)
                                (currentLine w (sample_screen 0 4))
                                (endWindowLine w (sample_screen 0 4))))
                   LineProperty_default.
Proof.
  eexists. split; [reflexivity|].
  apply getLineProperties_windowLines. simpl. lia.
Defined.

(** The two directions of [getLineProperties]: four entries padded to ten,
    and twenty-four entries cut to ten. *)
Example getLineProperties_pads_and_truncates :
  exists w,
    setWindowLines (fst ScreenWindow_new) 10 = Some w
    /\ length (getLineProperties (sample_screen 0 4)
                 (currentLine w (sample_screen 0 4))
                 (endWindowLine w (sample_screen 0 4))) = 4%nat
    /\ (length <$> ScreenWindow_getLineProperties w (sample_screen 0 4)) = Some 10%nat
    /\ (length <$> ScreenWindow_getLineProperties w
          {| getColumns := 80; getLines := 24; getHistLines := 0;
             getOldTotalLines := 24; isResize := false; scrolledLines := 0;
             droppedLines := 0; hasRepl := false;
             getLineProperties := fun _ _ => replicate 24 LineProperty_default;
             isSelected := fun _ _ => false |}) = Some 10%nat.
Proof.
  eexists. split; [reflexivity|]. repeat split; vm_compute; reflexivity.
Qed.

(** *** Concrete instances of the further properties *)

(** A window of 30 lines, scrolled to the top, over 5 lines of history and
    10 live lines: the output ends above the window's bottom. *)
Lemma getImage_covers_the_window_witness :
  exists w ev,
    run_new [(sample_screen 5 10, SetWindowLines 30);
             (sample_screen 5 10, ScrollTo 0)] = Some (w, ev)
    /\ snd (getImage w (sample_screen 5 10))
       = [Screen_getImage 2400 0 14; Screen_fillWithDefaultChar 1200 1200].
Proof.
  eexists _, _. split; [vm_compute; reflexivity|].
  refine (eq_trans (proj2 (getImage_covers_the_window
            [(sample_screen 5 10, SetWindowLines 30); (sample_screen 5 10, ScrollTo 0)]
            _ _ (sample_screen 5 10) _ _ _ _ _ _ _)) _).
  - vm_compute. reflexivity.
  - reflexivity.
  - simpl. lia.
  - simpl. lia.
  - unfold int_max. simpl. lia.
  - simpl. lia.
  - unfold int_max. simpl. lia.
  - vm_compute. reflexivity.
Defined.

Lemma scrollTo_lands_in_range_witness :
  exists w ev,
    run_new [(sample_screen 100 24, SetWindowLines 24)] = Some (w, ev)
    /\ snd (scrollTo w (sample_screen 100 24) 1000) = [scrolled 100]
    /\ currentLine (fst (scrollTo w (sample_screen 100 24) 1000)) (sample_screen 100 24)
       = 100
    /\ snd (scrollTo w (sample_screen 100 24) (-5)) = [scrolled 0].
Proof.
  eexists _, _. split; [vm_compute; reflexivity|].
  pose proof (scrollTo_lands_in_range
                [(sample_screen 100 24, SetWindowLines 24)] _ _ (sample_screen 100 24)
                1000 ltac:(vm_compute; reflexivity) ltac:(simpl; lia) ltac:(simpl; lia)
                ltac:(unfold int_max; simpl; lia)) as (Hev & _ & Hcur & _).
  pose proof (scrollTo_lands_in_range
                [(sample_screen 100 24, SetWindowLines 24)] _ _ (sample_screen 100 24)
                (-5) ltac:(vm_compute; reflexivity) ltac:(simpl; lia) ltac:(simpl; lia)
                ltac:(unfold int_max; simpl; lia)) as (Hev' & _).
  split; [exact Hev|]. split; [exact Hcur|exact Hev'].
Defined.

Lemma scrollCount_is_net_displacement_witness :
  exists w' ev,
    run (resetScrollCount (fst ScreenWindow_new))
      [(sample_screen 100 24, ScrollTo 50);
       (sample_screen 100 24, ScrollBy ScrollLines (-20) false);
       (sample_screen 100 24, GetImage);
       (sample_screen 100 24, ScrollTo 1000)] = Some (w', ev)
    /\ _scrollCount w' = isub (_currentLine w') (_currentLine (fst ScreenWindow_new)).
Proof.
  eexists _, _. split; [vm_compute; reflexivity|].
  eapply (scrollCount_is_net_displacement (fst ScreenWindow_new)
            [(sample_screen 100 24, ScrollTo 50);
             (sample_screen 100 24, ScrollBy ScrollLines (-20) false);
             (sample_screen 100 24, GetImage);
             (sample_screen 100 24, ScrollTo 1000)]).
  - repeat constructor.
  - vm_compute. reflexivity.
Defined.

Lemma tracking_window_at_end_of_output_witness :
  exists w ev,
    run_new [(sample_screen 5 10, SetWindowLines 30)] = Some (w, ev)
    /\ atEndOfOutput (fst (notifyOutputChanged w (sample_screen 5 10))) (sample_screen 5 10)
       = false
    /\ atEndOfOutput (fst (notifyOutputChanged w (sample_screen 100 30))) (sample_screen 100 30)
       = true.
Proof.
  eexists _, _. split; [vm_compute; reflexivity|]. split.
  - refine (eq_trans (tracking_window_at_end_of_output
              [(sample_screen 5 10, SetWindowLines 30)] _ _ (sample_screen 5 10)
              _ _ _ _ _) _).
    + vm_compute. reflexivity.
    + reflexivity.
    + simpl. lia.
    + simpl. lia.
    + unfold int_max. simpl. lia.
    + vm_compute. reflexivity.
  - refine (eq_trans (tracking_window_at_end_of_output
              [(sample_screen 5 10, SetWindowLines 30)] _ _ (sample_screen 100 30)
              _ _ _ _ _) _).
    + vm_compute. reflexivity.
    + reflexivity.
    + simpl. lia.
    + simpl. lia.
    + unfold int_max. simpl. lia.
    + vm_compute. reflexivity.
Defined.

(** A screen whose shell marks prompts: every third line, starting with
    line 2, begins a prompt. *)
Definition prompt_screen (hist lines : Z) : Screen :=
  {| getColumns := 80; getLines := lines; getHistLines := hist;
     getOldTotalLines := hist + lines; isResize := false;
     scrolledLines := 0; droppedLines := 0; hasRepl := true;
     getLineProperties :=
       fun a b =>
         map (fun k => {| wrapped := 0;
                          prompt_start := if (a + Z.of_nat k) mod 3 =? 2 then 1 else 0;
                          other_flags := 0 |})
             (seq 0 (Z.to_nat (b - a + 1)));
     isSelected := fun _ _ => false |}.

(** One line tall and scrolled to line 7. *)
Definition window_at_7 : ScreenWindow :=
  fst (scrollTo (fst ScreenWindow_new) (prompt_screen 20 5) 7).

Lemma scrollBy_prompts_up_witness :
  exists r,
    scrollBy window_at_7 (prompt_screen 20 5) ScrollPrompts (- Z.of_nat 2) false
    = Some (scrollTo window_at_7 (prompt_screen 20 5) (Z.of_nat r))
    /\ (r <= 7)%nat
    /\ ((r < 7)%nat
        /\ (exists p, getLineProperties (prompt_screen 20 5) 0 7 !! r = Some p
                      /\ is_prompt p = true)
        /\ prompts (getLineProperties (prompt_screen 20 5) 0 7) r 7 = 2%nat
        \/ r = 0%nat
           /\ (prompts (getLineProperties (prompt_screen 20 5) 0 7) 0 7 < 2)%nat).
Proof.
  apply (scrollBy_prompts_up window_at_7 (prompt_screen 20 5) 2 false).
  - reflexivity.
  - lia.
  - vm_compute. lia.
Defined.

Lemma scrollBy_prompts_down_witness :
  exists r,
    scrollBy window_at_7 (prompt_screen 20 5) ScrollPrompts (Z.of_nat 2) false
    = Some (scrollTo window_at_7 (prompt_screen 20 5) (7 + Z.of_nat r))
    /\ (r <= 13)%nat
    /\ ((0 < r)%nat
        /\ (exists p, getLineProperties (prompt_screen 20 5) 7 20 !! r = Some p
                      /\ is_prompt p = true)
        /\ prompts (getLineProperties (prompt_screen 20 5) 7 20) 1 (S r) = 2%nat
        \/ r = 13%nat
           /\ (prompts (getLineProperties (prompt_screen 20 5) 7 20) 1 14 < 2)%nat).
Proof.
  apply (scrollBy_prompts_down window_at_7 (prompt_screen 20 5) 2 false).
  - reflexivity.
  - lia.
  - vm_compute. discriminate.
  - vm_compute. lia.
Defined.

Lemma pending_update_is_fetched_witness :
  exists w' ev fill,
    run (fst (setSelectionStart (fst (getImage (fst ScreenWindow_new) (sample_screen 100 24)))
                (sample_screen 100 24) 0 3 false))
      [(sample_screen 100 24, ClearSelection);
       (sample_screen 100 24, SetCurrentResultLine 4);
       (sample_screen 101 24, SetTrackOutput false)] = Some (w', ev)
    /\ _bufferNeedsUpdate w' = true
    /\ snd (getImage w' (sample_screen 101 24))
       = Screen_getImage (imul (windowLines w') (windowColumns (sample_screen 101 24)))
           (currentLine w' (sample_screen 101 24))
           (endWindowLine w' (sample_screen 101 24)) :: fill.
Proof.
  eexists _, _.
  assert (Hrun : run (fst (setSelectionStart
                             (fst (getImage (fst ScreenWindow_new) (sample_screen 100 24)))
                             (sample_screen 100 24) 0 3 false))
                   [(sample_screen 100 24, ClearSelection);
                    (sample_screen 100 24, SetCurrentResultLine 4);
                    (sample_screen 101 24, SetTrackOutput false)] = Some (?[w'], ?[ev]))
    by (vm_compute; reflexivity).
  destruct (pending_update_is_fetched
              (fst (setSelectionStart
                      (fst (getImage (fst ScreenWindow_new) (sample_screen 100 24)))
                      (sample_screen 100 24) 0 3 false))
              [(sample_screen 100 24, ClearSelection);
               (sample_screen 100 24, SetCurrentResultLine 4);
               (sample_screen 101 24, SetTrackOutput false)]
              _ _ (sample_screen 101 24) eq_refl
              ltac:(repeat constructor; discriminate) Hrun) as (Hd & fill & Hfill).
  exists fill. split; [exact Hrun|]. split; [exact Hd|exact Hfill].
Defined.

Lemma selection_coordinates_round_trip_witness :
  snd (setSelectionStart window_at_7 (prompt_screen 20 5) 4 3 false)
  = [Screen_setSelectionStart 4 10 false; selectionChanged]
  /\ getSelectionStart (fst (setSelectionStart window_at_7 (prompt_screen 20 5) 4 3 false))
       (prompt_screen 20 5) (4, 10) = (4, 3).
Proof.
  destruct (selection_coordinates_round_trip window_at_7 (prompt_screen 20 5) 4 3 false)
    as [(l & Hev & Hget) _].
  - unfold in_int, int_min, int_max. lia.
  - assert (l = 10) as ->.
    { assert (Hev' : snd (setSelectionStart window_at_7 (prompt_screen 20 5) 4 3 false)
                     = [Screen_setSelectionStart 4 10 false; selectionChanged])
        by (vm_compute; reflexivity).
      rewrite Hev in Hev'. congruence. }
    split; [exact Hev|exact Hget].
Defined.

End Window.
